(** * DuoPrincess MSG <-> TXT tools: a shallow embedding

    The two converters of the repository, [Tools/duomsgEN.pyw] and
    [Tools/duomsgJP (Experimental).pyw], are embedded as Rocq functions.

    - A Python [str] is a list of Unicode code points, a [bytes] object a
      list of octets; Python integers are [Z].
    - A raised exception is the [Err] case of [result].
    - A [while i < len(text)] scan is a recursion on the unread suffix
      [text[i:]], bounded by the number of unread characters.
    - [dict] and [Counter] objects whose iteration order decides a result
      are insertion-ordered association lists. *)

From Stdlib Require Import ZArith String Ascii Bool Lia List.
Import ListNotations.
Open Scope Z_scope.

(** ** Python values and builtins *)

Definition str := list Z.
Definition bytes := list Z.

Inductive exn : Type :=
| ValueError (msg : string)
| StructError
| OtherError (msg : string).

Inductive result (A : Type) : Type :=
| Ok (a : A)
| Err (e : exn).
Arguments Ok {A} a.
Arguments Err {A} e.

Definition bind {A B : Type} (r : result A) (k : A -> result B) : result B :=
  match r with
  | Ok a => k a
  | Err e => Err e
  end.

Notation "x <- r ;; k" := (bind r (fun x => k))
  (at level 61, r at next level, right associativity).
Notation "' p <- r ;; k" := (bind r (fun p => k))
  (at level 61, p pattern, r at next level, right associativity).

Module Py.

(** A string literal of the source, as code points. *)
Definition lit (s : string) : str :=
  map (fun a => Z.of_nat (nat_of_ascii a)) (list_ascii_of_string s).

Definition LF : Z := 10.

Definition len {A : Type} (l : list A) : Z := Z.of_nat (List.length l).

(** [chr(v)] raises ValueError outside [range(0x110000)]. *)
Definition chr (v : Z) : result Z :=
  if (0 <=? v) && (v <? 0x110000) then Ok v
  else Err (ValueError "chr() arg not in range(0x110000)").

Definition ord (c : Z) : Z := c.

Fixpoint str_eqb (a b : str) : bool :=
  match a, b with
  | [], [] => true
  | x :: a', y :: b' => (x =? y) && str_eqb a' b'
  | _, _ => false
  end.

(** [s.startswith(prefix)], for [s] the suffix [text[i:]]. *)
Fixpoint startswith (s prefix : str) {struct prefix} : bool :=
  match prefix with
  | [] => true
  | p :: prefix' =>
      match s with
      | [] => false
      | c :: s' => (c =? p) && startswith s' prefix'
      end
  end.

(** [s[k]] for [0 <= k], [None] when out of range. *)
Definition index (s : str) (k : Z) : option Z := nth_error s (Z.to_nat k).

(** [data[lo:hi]] for [0 <= lo]: slices clamp to the sequence. *)
Definition slice {A : Type} (data : list A) (lo hi : Z) : list A :=
  firstn (Z.to_nat (hi - lo)) (skipn (Z.to_nat lo) data).

(** [sep.join(parts)] *)
Fixpoint join (sep : str) (parts : list str) : str :=
  match parts with
  | [] => []
  | [p] => p
  | p :: rest => p ++ sep ++ join sep rest
  end.

(** Line boundaries of [str.splitlines]: LF, CR, VT, FF, FS, GS, RS,
    NEL (0x85), LINE SEPARATOR (0x2028), PARAGRAPH SEPARATOR (0x2029),
    and the pair CR LF as one boundary. *)
Definition is_linebreak (c : Z) : bool :=
  (c =? 0x0A) || (c =? 0x0D) || (c =? 0x0B) || (c =? 0x0C) ||
  (c =? 0x1C) || (c =? 0x1D) || (c =? 0x1E) || (c =? 0x85) ||
  (c =? 0x2028) || (c =? 0x2029).

(** [cur] is the line being read; a last line without a terminator is
    kept only when it is not empty. *)
Fixpoint splitlines_from (cur : str) (s : str) : list str :=
  match s with
  | [] => match cur with [] => [] | _ => [cur] end
  | c :: rest =>
      if is_linebreak c then
        if c =? 0x0D then
          match rest with
          | c2 :: rest2 =>
              if c2 =? 0x0A then cur :: splitlines_from [] rest2
              else cur :: splitlines_from [] rest
          | [] => cur :: splitlines_from [] rest
          end
        else cur :: splitlines_from [] rest
      else splitlines_from (cur ++ [c]) rest
  end.

Definition splitlines (s : str) : list str := splitlines_from [] s.

(** Characters for which [str.isspace] holds. *)
Definition isspace (c : Z) : bool :=
  ((0x09 <=? c) && (c <=? 0x0D)) || ((0x1C <=? c) && (c <=? 0x20)) ||
  (c =? 0x85) || (c =? 0xA0) || (c =? 0x1680) ||
  ((0x2000 <=? c) && (c <=? 0x200A)) || (c =? 0x2028) || (c =? 0x2029) ||
  (c =? 0x202F) || (c =? 0x205F) || (c =? 0x3000).

Fixpoint lstrip (s : str) : str :=
  match s with
  | [] => []
  | c :: rest => if isspace c then lstrip rest else s
  end.

(** [s.strip()] *)
Definition strip (s : str) : str := rev (lstrip (rev (lstrip s))).

Fixpoint lstrip_char (ch : Z) (s : str) : str :=
  match s with
  | [] => []
  | c :: rest => if c =? ch then lstrip_char ch rest else s
  end.

(** [s.rstrip('\n')] *)
Definition rstrip_nl (s : str) : str := rev (lstrip_char LF (rev s)).

(** [struct.pack('>H', v)]: struct.error unless [0 <= v <= 0xFFFF]. *)
Definition pack_H (v : Z) : result bytes :=
  if (0 <=? v) && (v <=? 0xFFFF) then Ok [v / 256; v mod 256]
  else Err StructError.

(** [struct.pack('>HH', a, b)] *)
Definition pack_HH (a b : Z) : result bytes :=
  x <- pack_H a ;; y <- pack_H b ;; Ok (x ++ y).

(** [struct.pack(f'>{len(units)}H', *units)] *)
Fixpoint pack_units (units : list Z) : result bytes :=
  match units with
  | [] => Ok []
  | u :: rest => x <- pack_H u ;; y <- pack_units rest ;; Ok (x ++ y)
  end.

(** Big-endian 16-bit words of a byte string, a trailing odd byte left
    over. *)
Fixpoint words_be (raw : bytes) : list Z :=
  match raw with
  | hi :: lo :: rest => (hi * 256 + lo) :: words_be rest
  | _ => []
  end.

(** [struct.unpack(f'>{len(raw)//2}H', raw)]: struct.error unless the
    buffer has exactly the size of the format. *)
Definition unpack_units (raw : bytes) : result (list Z) :=
  if Nat.even (List.length raw) then Ok (words_be raw) else Err StructError.

(** [struct.unpack('>HH', four)] for a four-byte slice. *)
Definition unpack_HH (four : bytes) : result (Z * Z) :=
  match four with
  | [a; b; c; d] => Ok (a * 256 + b, c * 256 + d)
  | _ => Err StructError
  end.

End Py.

Import Py.

(** ** Container pieces common to both tools

    Both files declare the same [Entry] dataclass and end their encoders
    with the same five serialisation lines. *)

Record Entry := mkEntry {
  offset : Z;  (* in 16-bit code units, relative to text start *)
  length_ : Z  (* in 16-bit code units *)
}.

(** [b''.join(struct.pack('>HH', e.offset, e.length) for e in entries)] *)
Fixpoint pack_entries (entries : list Entry) : result bytes :=
  match entries with
  | [] => Ok []
  | e :: rest =>
      x <- pack_HH (offset e) (length_ e) ;;
      y <- pack_entries rest ;;
      Ok (x ++ y)
  end.

(** From [text_bytes = ...] to [return header + header_table + text_bytes]
    (duomsgEN.pyw lines 196-201, duomsgJP lines 373-377). *)
Definition serialize_msg (entries : list Entry) (all_units : list Z)
  : result bytes :=
  text_bytes <- (match all_units with
                 | [] => Ok []
                 | _ => pack_units all_units
                 end) ;;
  header_table <- pack_entries entries ;;
  let full_size := 4 + len header_table + len text_bytes in
  header <- pack_HH full_size (len entries) ;;
  Ok (header ++ header_table ++ text_bytes).

(** The header and block table, as read by [decode_msg_to_blocks] (EN) and
    by [read_msg_entries_and_textstart] (JP): the [for _ in range(count)]
    loop, started at [off]. *)
Fixpoint read_table (count : nat) (data : bytes) (off : Z)
  : result (list Entry * Z) :=
  match count with
  | O => Ok ([], off)
  | S count' =>
      if off + 4 >? len data then Err (ValueError "Truncated block table")
      else
        ' (o, l) <- unpack_HH (slice data off (off + 4)) ;;
        ' (entries, off') <- read_table count' data (off + 4) ;;
        Ok (mkEntry o l :: entries, off')
  end.

Definition read_msg_entries_and_textstart (data : bytes)
  : result (list Entry * Z) :=
  if len data <? 4 then Err (ValueError "File too small to be a valid MSG")
  else
    ' (file_size_be, count_be) <- unpack_HH (slice data 0 4) ;;
    let count := count_be in
    read_table (Z.to_nat count) data 4.

(** [list(struct.unpack(f'>{len(raw)//2}H', raw)) if raw else []] *)
Definition units_of_raw (raw : bytes) : result (list Z) :=
  match raw with
  | [] => Ok []
  | _ => unpack_units raw
  end.

(** [text.startswith(tag, i) and i + len(tag) < n and
    text[i + len(tag)] == '\n'], on the suffix [s = text[i:]]: the test
    both tools make before each character. *)
Definition tagged_newline_at (tag : str) (s : str) : bool :=
  startswith s tag && (len tag <? len s) &&
  match index s (len tag) with
  | Some c => c =? LF
  | None => false
  end.

(** ** Tools/duomsgEN.pyw *)

Module EN.

Definition BLOCK_SEPARATOR : str := lit "###".
Definition TAG_NEWLINES : bool := true.
Definition NL_TAG_8016 : str := lit "/n".
Definition NL_TAG_000A : str := lit "/nn".
Definition DEFAULT_ENCODE_NEWLINE : Z := 0x8016.

Definition NEWLINE_000A : Z := 0x000A.
Definition NEWLINE_8016 : Z := 0x8016.

(** The pieces appended to [out] for one code unit. *)
Definition decode_unit (v : Z) (tag_newlines : bool) : result str :=
  if v =? NEWLINE_000A then
    Ok ((if tag_newlines then NL_TAG_000A else []) ++ [LF])
  else if v =? NEWLINE_8016 then
    Ok ((if tag_newlines then NL_TAG_8016 else []) ++ [LF])
  else if v >=? 0x80 then
    c <- chr (v - 0x80) ;; Ok [c]
  else
    c <- chr v ;; Ok [c].

Fixpoint _decode_units_to_text (units : list Z) (tag_newlines : bool)
  : result str :=
  match units with
  | [] => Ok []
  | v :: rest =>
      piece <- decode_unit v tag_newlines ;;
      out <- _decode_units_to_text rest tag_newlines ;;
      Ok (piece ++ out)
  end.

(** The [while i < n] loop; [s] is [text[i:]] and [fuel] bounds the
    iterations, each of which consumes at least one character. *)
Fixpoint encode_loop (fuel : nat) (s : str) (default_newline_code : Z)
  : list Z :=
  match fuel with
  | O => []
  | S fuel' =>
      match s with
      | [] => []
      | ch :: rest =>
          if TAG_NEWLINES && tagged_newline_at NL_TAG_8016 s then
            NEWLINE_8016 ::
              encode_loop fuel' (skipn (List.length NL_TAG_8016 + 1) s)
                default_newline_code
          else if TAG_NEWLINES && tagged_newline_at NL_TAG_000A s then
            NEWLINE_000A ::
              encode_loop fuel' (skipn (List.length NL_TAG_000A + 1) s)
                default_newline_code
          else if ch =? LF then
            default_newline_code ::
              encode_loop fuel' rest default_newline_code
          else
            let oc := ord ch in
            if (0x61 <=? ch) && (ch <=? 0x7A) then
              (oc + 0x80) :: encode_loop fuel' rest default_newline_code
            else
              oc :: encode_loop fuel' rest default_newline_code
      end
  end.

Definition _encode_text_to_units (text : str) (default_newline_code : Z)
  : list Z :=
  encode_loop (List.length text) text default_newline_code.

(** The [for e in entries] loop of [decode_msg_to_blocks]. *)
Fixpoint decode_entries (entries : list Entry) (data : bytes)
  (text_start : Z) (tag_newlines : bool) : result (list str) :=
  match entries with
  | [] => Ok []
  | e :: rest =>
      let start := text_start + offset e * 2 in
      let end_ := text_start + (offset e + length_ e) * 2 in
      if negb ((text_start <=? start) && (start <=? end_) &&
               (end_ <=? len data))
      then Err (ValueError "Invalid block offset/length")
      else
        let raw := slice data start end_ in
        units <- units_of_raw raw ;;
        block <- _decode_units_to_text units tag_newlines ;;
        blocks <- decode_entries rest data text_start tag_newlines ;;
        Ok (block :: blocks)
  end.

(** [decode_msg_to_blocks], on the bytes read from [msg_path]. *)
Definition decode_msg_to_blocks (data : bytes) (tag_newlines : bool)
  : result (list str) :=
  ' (entries, text_start) <- read_msg_entries_and_textstart data ;;
  decode_entries entries data text_start tag_newlines.

(** The [for b in blocks] loop of [encode_blocks_to_msg], with its three
    accumulators. *)
Fixpoint encode_blocks_loop (blocks : list str) (default_newline_code : Z)
  (all_units : list Z) (entries : list Entry) (cur_off : Z)
  : list Z * list Entry :=
  match blocks with
  | [] => (all_units, entries)
  | b :: rest =>
      let units := _encode_text_to_units b default_newline_code in
      encode_blocks_loop rest default_newline_code
        (all_units ++ units)
        (entries ++ [mkEntry cur_off (len units)])
        (cur_off + len units)
  end.

Definition encode_blocks_to_msg (blocks : list str)
  (default_newline_code : Z) : result bytes :=
  let '(all_units, entries) :=
    encode_blocks_loop blocks default_newline_code [] [] 0 in
  serialize_msg entries all_units.

(** The [for line in txt_text.splitlines()] loop. *)
Fixpoint split_loop (lines : list str) (parts : list str) (cur : list str)
  : list str * list str :=
  match lines with
  | [] => (parts, cur)
  | line :: rest =>
      if str_eqb (strip line) BLOCK_SEPARATOR then
        split_loop rest (parts ++ [join [LF] cur]) []
      else
        split_loop rest parts (cur ++ [line])
  end.

Definition is_empty {A : Type} (l : list A) : bool :=
  match l with [] => true | _ => false end.

Definition split_txt_into_blocks (txt_text : str) : list str :=
  let '(parts, cur) := split_loop (splitlines txt_text) [] [] in
  let parts :=
    if negb (is_empty cur) || is_empty parts
    then parts ++ [join [LF] cur] else parts in
  if negb (is_empty parts) && str_eqb (last parts []) [] &&
     (len parts >? 1)
  then removelast parts else parts.

Definition make_txt_from_blocks (blocks : list str) : str :=
  join ([LF] ++ BLOCK_SEPARATOR ++ [LF]) (map rstrip_nl blocks)
    ++ ([LF] ++ BLOCK_SEPARATOR ++ [LF]).

(** [decode_msg_file_to_txt_path] up to its write: the text it hands to
    [write_text], from the bytes of the file it read. *)
Definition decode_msg_file_to_txt (data : bytes) : result str :=
  blocks <- decode_msg_to_blocks data TAG_NEWLINES ;;
  Ok (make_txt_from_blocks blocks).

(** [encode_txt_file_to_msg_path] up to its write: the bytes it hands to
    [write_bytes], from the text of the file it read. *)
Definition encode_txt_file_to_msg (txt_text : str) : result bytes :=
  let blocks := split_txt_into_blocks txt_text in
  encode_blocks_to_msg blocks DEFAULT_ENCODE_NEWLINE.

End EN.

(** ** Tools/duomsgJP (Experimental).pyw *)

(** A Python [dict] in insertion order; keys are kept distinct by the
    operations below. *)
Definition dict (K V : Type) : Type := list (K * V).

Fixpoint dict_get {K V : Type} (eqb : K -> K -> bool) (k : K) (d : dict K V)
  : option V :=
  match d with
  | [] => None
  | (k', v) :: rest => if eqb k k' then Some v else dict_get eqb k rest
  end.

(** [c[k] += n] on a [Counter]: a new key goes to the end. *)
Fixpoint counter_add (k : Z) (n : Z) (c : dict Z Z) : dict Z Z :=
  match c with
  | [] => [(k, n)]
  | (k', m) :: rest =>
      if k =? k' then (k', m + n) :: rest
      else (k', m) :: counter_add k n rest
  end.

(** [d[k1][k2] += n] on a [defaultdict(Counter)]. *)
Fixpoint nested_add (k1 k2 : Z) (n : Z) (d : dict Z (dict Z Z))
  : dict Z (dict Z Z) :=
  match d with
  | [] => [(k1, [(k2, n)])]
  | (k', c) :: rest =>
      if k1 =? k' then (k', counter_add k2 n c) :: rest
      else (k', c) :: nested_add k1 k2 n rest
  end.

(** [max(items, key=itemgetter(1))], the body of [most_common(1)]: the
    running best is replaced only by a strictly larger count. *)
Fixpoint max_from (best : Z * Z) (items : list (Z * Z)) : Z * Z :=
  match items with
  | [] => best
  | x :: rest =>
      if snd x >? snd best then max_from x rest else max_from best rest
  end.

Definition most_common1 (c : dict Z Z) : list (Z * Z) :=
  match c with
  | [] => []
  | x :: rest => [max_from x rest]
  end.

(** [s.replace(old, '')] for a non-empty [old]: occurrences are removed
    left to right; [skip] counts the characters of a match still to drop. *)
Fixpoint remove_from (skip : nat) (old : str) (s : str) : str :=
  match s with
  | [] => []
  | c :: rest =>
      match skip with
      | S k => remove_from k old rest
      | O =>
          if startswith s old then remove_from (List.length old - 1) old rest
          else c :: remove_from O old rest
      end
  end.

Definition remove_all (old : str) (s : str) : str := remove_from O old s.

Fixpoint hex_digits (fuel : nat) (u : Z) (acc : str) : str :=
  match fuel with
  | O => acc
  | S fuel' =>
      if u <=? 0 then acc
      else
        let d := u mod 16 in
        let c := if d <? 10 then 0x30 + d else 0x41 + (d - 10) in
        hex_digits fuel' (u / 16) (c :: acc)
  end.

(** [f'{u:04X}'] for [0 <= u] *)
Definition format_04X (u : Z) : str :=
  let ds := hex_digits (S (Z.to_nat (Z.log2 u))) u [] in
  repeat 0x30 (4 - List.length ds)%nat ++ ds.

Definition ascii_lower (a : ascii) : ascii :=
  let n := nat_of_ascii a in
  if (65 <=? n)%nat && (n <=? 90)%nat then ascii_of_nat (n + 32) else a.

(** [s.lower()] on an ASCII path suffix *)
Fixpoint lower (s : string) : string :=
  match s with
  | EmptyString => EmptyString
  | String a rest => String (ascii_lower a) (lower rest)
  end.

(** A [pathlib.Path], as the path without its final suffix and that
    suffix; [with_suffix] replaces the suffix, and the code never asks for
    the suffix of a path it built with the two-dot [MAP_FILE_SUFFIX]. *)
Record Path := mkPath { stem : string; suffix : string }.

Definition with_suffix (p : Path) (s : string) : Path := mkPath (stem p) s.

Definition path_eqb (p q : Path) : bool :=
  String.eqb (stem p) (stem q) && String.eqb (suffix p) (suffix q).

(** The files the tool can see. *)
Definition FS : Type := Path -> option bytes.

Definition exists_ (fs : FS) (p : Path) : bool :=
  match fs p with Some _ => true | None => false end.

Definition read_bytes (fs : FS) (p : Path) : result bytes :=
  match fs p with
  | Some data => Ok data
  | None => Err (OtherError "FileNotFoundError")
  end.

Definition write_bytes (fs : FS) (p : Path) (data : bytes) : FS :=
  fun q => if path_eqb q p then Some data else fs q.

Module JP.

Definition BLOCK_SEPARATOR : str := lit "###".
Definition TAG_NEWLINES : bool := true.
Definition NL_TAG_8016 : str := lit "<NL_8016>".
Definition NL_TAG_000A : str := lit "<NL_000A>".
Definition DEFAULT_ENCODE_NEWLINE : Z := 0x8016.
Definition AUTO_TRAIN_JP : bool := true.
Definition MAP_FILE_SUFFIX : string := ".map.json".
Definition ENCODE_UNKNOWN_POLICY : string := "error".

Definition NEWLINE_000A : Z := 0x000A.
Definition NEWLINE_8016 : Z := 0x8016.

Definition _is_ascii_printable (u : Z) : bool :=
  ((0x20 <=? u) && (u <=? 0x7E)) || (u =? 0x09).

(** What one code unit appends to [out] in [_decode_units_english]. *)
Definition decode_unit_english (v : Z) (tag_newlines : bool) : result str :=
  if v =? NEWLINE_000A then
    Ok ((if tag_newlines then NL_TAG_000A else []) ++ [LF])
  else if v =? NEWLINE_8016 then
    Ok ((if tag_newlines then NL_TAG_8016 else []) ++ [LF])
  else if (v >=? 0x80) && _is_ascii_printable (v - 0x80) then
    c <- chr (v - 0x80) ;; Ok [c]
  else
    c <- chr v ;; Ok [c].

Fixpoint _decode_units_english (units : list Z) (tag_newlines : bool)
  : result str :=
  match units with
  | [] => Ok []
  | v :: rest =>
      piece <- decode_unit_english v tag_newlines ;;
      out <- _decode_units_english rest tag_newlines ;;
      Ok (piece ++ out)
  end.

Definition map_path_for (file : Path) : Path :=
  with_suffix file MAP_FILE_SUFFIX.

(** The two functions have the same text as in duomsgEN.pyw, with the
    same [BLOCK_SEPARATOR]. *)
Definition split_txt_into_blocks : str -> list str :=
  EN.split_txt_into_blocks.
Definition make_txt_from_blocks : list str -> str :=
  EN.make_txt_from_blocks.

(** The [for e in entries] loop shared by [decode_msg_to_blocks_english],
    [_read_all_blocks_units] and [decode_msg_to_blocks_with_map]: the
    slice is taken without any test on [start] and [end]. *)
Fixpoint blocks_units (entries : list Entry) (data : bytes)
  (text_start : Z) : result (list (list Z)) :=
  match entries with
  | [] => Ok []
  | e :: rest =>
      let start := text_start + offset e * 2 in
      let end_ := text_start + (offset e + length_ e) * 2 in
      let raw := slice data start end_ in
      units <- units_of_raw raw ;;
      result <- blocks_units rest data text_start ;;
      Ok (units :: result)
  end.

Fixpoint decode_entries_english (entries : list Entry) (data : bytes)
  (text_start : Z) (tag_newlines : bool) : result (list str) :=
  match entries with
  | [] => Ok []
  | e :: rest =>
      let start := text_start + offset e * 2 in
      let end_ := text_start + (offset e + length_ e) * 2 in
      let raw := slice data start end_ in
      units <- units_of_raw raw ;;
      block <- _decode_units_english units tag_newlines ;;
      blocks <- decode_entries_english rest data text_start tag_newlines ;;
      Ok (block :: blocks)
  end.

Definition decode_msg_to_blocks_english (data : bytes)
  (tag_newlines : bool) : result (list str) :=
  ' (entries, text_start) <- read_msg_entries_and_textstart data ;;
  decode_entries_english entries data text_start tag_newlines.

Definition _strip_nl_tags_keep_newline (s : str) : str :=
  remove_all NL_TAG_000A (remove_all NL_TAG_8016 s).

Definition _read_all_blocks_units (data : bytes)
  : result (list (list Z)) :=
  ' (entries, text_start) <- read_msg_entries_and_textstart data ;;
  blocks_units entries data text_start.

(** The [for u in ub] loop; [ref] is the unread reference text
    [ref[j:]]. *)
Fixpoint align_block (ub : list Z) (ref : str) (counts : dict Z (dict Z Z))
  : dict Z (dict Z Z) :=
  match ub with
  | [] => counts
  | u :: ub' =>
      if (u =? NEWLINE_000A) || (u =? NEWLINE_8016) then
        match ref with
        | c :: ref' =>
            if c =? LF then align_block ub' ref' counts
            else align_block ub' ref counts
        | [] => align_block ub' ref counts
        end
      else
        match lstrip_char LF ref with
        | [] => counts
        | ch :: ref' => align_block ub' ref' (nested_add u ch 1 counts)
        end
  end.

(** [for ub, tb in zip(msg_blocks_units, txt_blocks)] *)
Fixpoint align_blocks (pairs : list (list Z * str))
  (counts : dict Z (dict Z Z)) : dict Z (dict Z Z) :=
  match pairs with
  | [] => counts
  | (ub, tb) :: rest =>
      align_blocks rest
        (align_block ub (_strip_nl_tags_keep_newline tb) counts)
  end.

(** [{k: ctr.most_common(1)[0][0] for k, ctr in table.items()}] *)
Fixpoint choose_most_common (table : dict Z (dict Z Z))
  : result (dict Z Z) :=
  match table with
  | [] => Ok []
  | (k, ctr) :: rest =>
      match most_common1 ctr with
      | [] => Err (OtherError "IndexError")
      | (x, _) :: _ =>
          chosen <- choose_most_common rest ;;
          Ok ((k, x) :: chosen)
      end
  end.

(** [for ch, n in ctr.items(): rev_counts[ch][u] += n] *)
Fixpoint add_reversed (u : Z) (ctr : dict Z Z)
  (rev_counts : dict Z (dict Z Z)) : dict Z (dict Z Z) :=
  match ctr with
  | [] => rev_counts
  | (ch, n) :: rest => add_reversed u rest (nested_add ch u n rev_counts)
  end.

(** [for u, ctr in counts.items(): ...] *)
Fixpoint reverse_counts (counts : dict Z (dict Z Z))
  (rev_counts : dict Z (dict Z Z)) : dict Z (dict Z Z) :=
  match counts with
  | [] => rev_counts
  | (u, ctr) :: rest => reverse_counts rest (add_reversed u ctr rev_counts)
  end.

(** Lines 264-298 of [learn_mapping_from_pair]. *)
Definition learn_from_blocks (msg_blocks_units : list (list Z))
  (txt_blocks : list str) : result (dict Z Z * dict Z Z) :=
  let counts := align_blocks (combine msg_blocks_units txt_blocks) [] in
  unit_to_char <- choose_most_common counts ;;
  let rev_counts := reverse_counts counts [] in
  char_to_unit <- choose_most_common rev_counts ;;
  Ok (unit_to_char, char_to_unit).

(** [learn_mapping_from_pair], on the contents of the two files. *)
Definition learn_mapping (data : bytes) (txt_text : str)
  : result (dict Z Z * dict Z Z) :=
  msg_blocks_units <- _read_all_blocks_units data ;;
  let txt_blocks := split_txt_into_blocks txt_text in
  if negb (len msg_blocks_units =? len txt_blocks) then
    Err (ValueError "MSG/TXT block counts differ; cannot train mapping.")
  else learn_from_blocks msg_blocks_units txt_blocks.

(** What one code unit appends to [s] in
    [decode_msg_to_blocks_with_map]. [chr(u - 0x80)] cannot raise where
    it is called: the test before it bounds [u - 0x80] by [0x7E]. *)
Definition decode_unit_with_map (u : Z) (unit_to_char : dict Z str)
  (tag_newlines : bool) : str :=
  if u =? NEWLINE_000A then
    (if tag_newlines then NL_TAG_000A else []) ++ [LF]
  else if u =? NEWLINE_8016 then
    (if tag_newlines then NL_TAG_8016 else []) ++ [LF]
  else
    match dict_get Z.eqb u unit_to_char with
    | Some glyph => glyph
    | None =>
        if (u >=? 0x80) && _is_ascii_printable (u - 0x80) then
          [u - 0x80]
        else
          lit "<U+" ++ format_04X u ++ lit ">"
    end.

Fixpoint decode_units_with_map (units : list Z) (unit_to_char : dict Z str)
  (tag_newlines : bool) : str :=
  match units with
  | [] => []
  | u :: rest =>
      decode_unit_with_map u unit_to_char tag_newlines ++
      decode_units_with_map rest unit_to_char tag_newlines
  end.

Fixpoint decode_entries_with_map (entries : list Entry) (data : bytes)
  (text_start : Z) (unit_to_char : dict Z str) (tag_newlines : bool)
  : result (list str) :=
  match entries with
  | [] => Ok []
  | e :: rest =>
      let start := text_start + offset e * 2 in
      let end_ := text_start + (offset e + length_ e) * 2 in
      let raw := slice data start end_ in
      units <- units_of_raw raw ;;
      blocks <- decode_entries_with_map rest data text_start unit_to_char
                  tag_newlines ;;
      Ok (decode_units_with_map units unit_to_char tag_newlines :: blocks)
  end.

Definition decode_msg_to_blocks_with_map (data : bytes)
  (unit_to_char : dict Z str) (tag_newlines : bool) : result (list str) :=
  ' (entries, text_start) <- read_msg_entries_and_textstart data ;;
  decode_entries_with_map entries data text_start unit_to_char tag_newlines.

(** The [while i < len(block)] loop of [encode_blocks_with_map]; [s] is
    [block[i:]]. The module-level [ENCODE_UNKNOWN_POLICY] is the argument
    [policy]. *)
Fixpoint encode_block_loop (fuel : nat) (s : str) (char_to_unit : dict str Z)
  (default_newline : Z) (policy : string) : result (list Z) :=
  match fuel with
  | O => Ok []
  | S fuel' =>
      match s with
      | [] => Ok []
      | ch :: rest =>
          if TAG_NEWLINES && tagged_newline_at NL_TAG_8016 s then
            units <- encode_block_loop fuel'
                       (skipn (List.length NL_TAG_8016 + 1) s)
                       char_to_unit default_newline policy ;;
            Ok (NEWLINE_8016 :: units)
          else if TAG_NEWLINES && tagged_newline_at NL_TAG_000A s then
            units <- encode_block_loop fuel'
                       (skipn (List.length NL_TAG_000A + 1) s)
                       char_to_unit default_newline policy ;;
            Ok (NEWLINE_000A :: units)
          else if ch =? LF then
            units <- encode_block_loop fuel' rest char_to_unit
                       default_newline policy ;;
            Ok (default_newline :: units)
          else
            match dict_get str_eqb [ch] char_to_unit with
            | Some u =>
                units <- encode_block_loop fuel' rest char_to_unit
                           default_newline policy ;;
                Ok (u :: units)
            | None =>
                if (0x61 <=? ch) && (ch <=? 0x7A) then
                  units <- encode_block_loop fuel' rest char_to_unit
                             default_newline policy ;;
                  Ok ((ord ch + 0x80) :: units)
                else if String.eqb policy "error" then
                  Err (ValueError
                         "Unknown glyph for encoding (no mapping)")
                else if String.eqb policy "placeholder" then
                  units <- encode_block_loop fuel' rest char_to_unit
                             default_newline policy ;;
                  Ok (0x3F :: units)
                else if String.eqb policy "skip" then
                  encode_block_loop fuel' rest char_to_unit
                    default_newline policy
                else
                  units <- encode_block_loop fuel' rest char_to_unit
                             default_newline policy ;;
                  Ok (ord ch :: units)
            end
      end
  end.

Definition encode_block (block : str) (char_to_unit : dict str Z)
  (default_newline : Z) (policy : string) : result (list Z) :=
  encode_block_loop (List.length block) block char_to_unit default_newline
    policy.

(** The [for block in blocks] loop. *)
Fixpoint encode_blocks_loop (blocks : list str) (char_to_unit : dict str Z)
  (default_newline : Z) (policy : string)
  (all_units : list Z) (entries : list Entry)
  : result (list Z * list Entry) :=
  match blocks with
  | [] => Ok (all_units, entries)
  | block :: rest =>
      units <- encode_block block char_to_unit default_newline policy ;;
      encode_blocks_loop rest char_to_unit default_newline policy
        (all_units ++ units)
        (entries ++ [mkEntry (len all_units) (len units)])
  end.

Definition encode_blocks_with_map (blocks : list str)
  (char_to_unit : dict str Z) (default_newline : Z) (policy : string)
  : result bytes :=
  ' (all_units, entries) <-
    encode_blocks_loop blocks char_to_unit default_newline policy [] [] ;;
  serialize_msg entries all_units.

(** *** Training on files *)

(** The JSON document [save_mapping] builds. *)
Record MappingArtifact := mkArtifact {
  art_unit_to_char : dict Z Z;
  art_char_to_unit : dict Z Z;
  art_source_msg : Path;
  art_source_txt : Path;
  art_count : Z
}.

Inductive LogLine : Type :=
| LogTrained (map_p : Path) (chars : Z)
| LogMenuTrained (map_p : Path)
| LogTrainingFailed (e : exn).

(** The file system and the lines passed to [log_fn]. *)
Record World := mkWorld { files : FS; log : list LogLine }.

(** The [if]/[elif]/[else] of [auto_train_if_possible] that picks [msg]
    and [txt] from the dropped path. *)
Definition training_pair (path : Path) : option (Path * Path) :=
  if String.eqb (lower (suffix path)) ".msg" then
    Some (path, with_suffix path ".txt")
  else if String.eqb (lower (suffix path)) ".txt" then
    Some (with_suffix path ".MSG", path)
  else None.

Section Files.

(** The two codecs of the Python library the trainer goes through:
    [bytes.decode('utf-8')] of [read_text], and [json.dumps] followed
    by the UTF-8 encoding of [write_text]. *)
Variable decode_utf8 : bytes -> result str.
Variable dump_json : MappingArtifact -> bytes.

Definition read_text (fs : FS) (p : Path) : result str :=
  data <- read_bytes fs p ;; decode_utf8 data.

Definition save_mapping (fs : FS) (file : Path)
  (unit_to_char char_to_unit : dict Z Z) (source_msg source_txt : Path)
  : Path * FS :=
  let data := mkArtifact unit_to_char char_to_unit source_msg source_txt
                (len unit_to_char) in
  let p := map_path_for file in
  (p, write_bytes fs p (dump_json data)).

Definition learn_mapping_from_pair (fs : FS) (msg_path txt_path : Path)
  : result (dict Z Z * dict Z Z) :=
  data <- read_bytes fs msg_path ;;
  msg_blocks_units <- _read_all_blocks_units data ;;
  txt_text <- read_text fs txt_path ;;
  let txt_blocks := split_txt_into_blocks txt_text in
  if negb (len msg_blocks_units =? len txt_blocks) then
    Err (ValueError "MSG/TXT block counts differ; cannot train mapping.")
  else learn_from_blocks msg_blocks_units txt_blocks.

(** The module-level [AUTO_TRAIN_JP] is the argument [auto_train];
    the [try] block is the match on the result of training. *)
Definition auto_train_if_possible (auto_train : bool) (path : Path)
  (w : World) : option Path * World :=
  if negb auto_train then (None, w)
  else
    match training_pair path with
    | None => (None, w)
    | Some (msg, txt) =>
        if negb (exists_ (files w) msg) || negb (exists_ (files w) txt)
        then (None, w)
        else
          let map_p := map_path_for msg in
          if exists_ (files w) map_p then (Some map_p, w)
          else
            match learn_mapping_from_pair (files w) msg txt with
            | Ok (unit_to_char, char_to_unit) =>
                let '(_, fs') :=
                  save_mapping (files w) msg unit_to_char char_to_unit
                    msg txt in
                (Some map_p,
                 mkWorld fs'
                   (log w ++ [LogTrained map_p (len char_to_unit)]))
            | Err e =>
                (None,
                 mkWorld (files w) (log w ++ [LogTrainingFailed e]))
            end
    end.

(** [_menu_train_mapping], once the two files are picked. *)
Definition _menu_train_mapping (msgp txtp : Path) (w : World) : World :=
  match learn_mapping_from_pair (files w) msgp txtp with
  | Ok (unit_to_char, char_to_unit) =>
      let '(mp, fs') :=
        save_mapping (files w) msgp unit_to_char char_to_unit
          msgp txtp in
      mkWorld fs' (log w ++ [LogMenuTrained mp])
  | Err e => mkWorld (files w) (log w ++ [LogTrainingFailed e])
  end.

End Files.

(** *** The two file operations, from the content read to the content
    written *)

(** The [while i < len(block)] loop of the English-only branch of
    [encode_txt_file_to_msg_path]; [s] is [block[i:]]. Nothing raises
    here. *)
Fixpoint encode_english_loop (fuel : nat) (s : str) : list Z :=
  match fuel with
  | O => []
  | S fuel' =>
      match s with
      | [] => []
      | ch :: rest =>
          if TAG_NEWLINES && tagged_newline_at NL_TAG_8016 s then
            NEWLINE_8016
              :: encode_english_loop fuel'
                   (skipn (List.length NL_TAG_8016 + 1) s)
          else if TAG_NEWLINES && tagged_newline_at NL_TAG_000A s then
            NEWLINE_000A
              :: encode_english_loop fuel'
                   (skipn (List.length NL_TAG_000A + 1) s)
          else if ch =? LF then
            DEFAULT_ENCODE_NEWLINE :: encode_english_loop fuel' rest
          else if (0x61 <=? ch) && (ch <=? 0x7A) then
            (ord ch + 0x80) :: encode_english_loop fuel' rest
          else
            ord ch :: encode_english_loop fuel' rest
      end
  end.

Definition encode_english_block (block : str) : list Z :=
  encode_english_loop (List.length block) block.





End JP.

(** ** Predicates of the statements *)

(** Every character is in the ASCII range, where the Latin rule is
    invertible. *)
Definition ascii_only (t : str) : bool :=
  forallb (fun c => (0 <=? c) && (c <? 0x80)) t.

(** [r] is a text read backwards: every line break in it comes right after
    one of the two tags of duomsgEN.pyw. *)
Fixpoint tagged_backwards (r : str) : bool :=
  match r with
  | [] => true
  | c :: before =>
      (if c =? LF then
         startswith before (rev EN.NL_TAG_8016) ||
         startswith before (rev EN.NL_TAG_000A)
       else true) && tagged_backwards before
  end.

(** No bare line break: each ['\n'] of [t] has a tag immediately before
    it. *)
Definition newlines_all_tagged (t : str) : bool := tagged_backwards (rev t).

(** Texts made of characters other than the line break and of tagged line
    breaks. *)
Inductive tagged_text : str -> Prop :=
| tagged_nil : tagged_text []
| tagged_char c t : c <> LF -> tagged_text t -> tagged_text (c :: t)
| tagged_8016 t : tagged_text t -> tagged_text (EN.NL_TAG_8016 ++ LF :: t)
| tagged_000A t : tagged_text t -> tagged_text (EN.NL_TAG_000A ++ LF :: t).

(** The units and the text of the "Hello" scenario. *)
Definition hello_units : list Z := [0x48; 0x65; 0xEC; 0xEC; 0xEF; 0x8016].
Definition hello_reencoded : list Z := [0x48; 0xE5; 0xEC; 0xEC; 0xEF; 0x8016].
Definition hello_text (tag_newlines : bool) : str :=
  lit "Hello" ++ (if tag_newlines then EN.NL_TAG_8016 else []) ++ [LF].

(** The header of a container as the decoders read it:
    [struct.unpack(">HH", data[:4])]. *)
Definition declared_header (data : bytes) : result (Z * Z) :=
  unpack_HH (slice data 0 4).

(** Sum of the block lengths, in code units. *)
Definition total_units (blocks_units : list (list Z)) : Z :=
  fold_right (fun units acc => len units + acc) 0 blocks_units.

(** A block that [make_txt_from_blocks] and [split_txt_into_blocks] leave
    as it is: not empty, not ending in a line break, with ['\n'] as its only
    line boundary, and with no line that is the separator once stripped. *)
Definition clean_block (b : str) : bool :=
  negb (EN.is_empty b) &&
  negb (last b 0 =? LF) &&
  forallb (fun c => negb (is_linebreak c) || (c =? LF)) b &&
  forallb (fun line => negb (str_eqb (strip line) EN.BLOCK_SEPARATOR))
    (splitlines b).

(** The lines of a text whose only line boundary is ['\n'], the last one
    kept even when empty; [cur] is the line being read. *)
Fixpoint lines_from (cur : str) (s : str) : list str :=
  match s with
  | [] => [cur]
  | c :: rest =>
      if c =? LF then cur :: lines_from [] rest
      else lines_from (cur ++ [c]) rest
  end.

(** All values are octets. *)
Definition octets (data : bytes) : Prop :=
  Forall (fun b => 0 <= b < 256) data.

(** The bounds of a block-table entry, in code units of the text area that
    starts at byte [text_start] of [data]. *)
Definition in_bounds (data : bytes) (text_start : Z) (e : Entry) : Prop :=
  0 <= offset e /\ offset e + length_ e <= (len data - text_start) / 2.

(** A container with one block declared as two code units long, and a text
    area of one code unit. *)
Definition short_container : bytes := [0; 10; 0; 1; 0; 0; 0; 2; 0; 0x48].

(** The Latin rule of the specification for a code unit that is not a
    newline code: "value >= 0x0080 -> character at value - 0x80, otherwise
    -> character at value directly". *)
Definition latin_rule (v : Z) : Z := if v >=? 0x80 then v - 0x80 else v.

(** The visible placeholder [<U+XXXX>] of the mapped decoder. *)
Definition placeholder (u : Z) : str := lit "<U+" ++ format_04X u ++ lit ">".

(** The Latin rule of the specification for a character: "lowercase ->
    + 0x80, else raw codepoint". *)
Definition latin_unit (ch : Z) : Z :=
  if (0x61 <=? ch) && (ch <=? 0x7A) then ch + 0x80 else ch.

(** The character at the head of [s] is met by the scan as a character of
    its own: it starts no tagged line break and is not a line break. *)
Definition plain_char_at (s : str) : bool :=
  match s with
  | [] => false
  | ch :: _ =>
      negb (tagged_newline_at JP.NL_TAG_8016 s) &&
      negb (tagged_newline_at JP.NL_TAG_000A s) &&
      negb (ch =? LF)
  end.

(** A training pair for the statements: a binary of three one-unit blocks
    and a reference text of two blocks, both under the stem "MSG01". *)
Definition three_block_msg : bytes :=
  [0; 22; 0; 3;  0; 0; 0; 1;  0; 1; 0; 1;  0; 2; 0; 1;
   0; 0x41; 0; 0x42; 0; 0x43].

Definition two_block_txt : str :=
  lit "A" ++ [LF] ++ lit "###" ++ [LF] ++ lit "B" ++ [LF] ++ lit "###" ++ [LF].

Definition mismatch_world : JP.World :=
  JP.mkWorld
    (write_bytes
       (write_bytes (fun _ => None) (mkPath "MSG01" ".MSG") three_block_msg)
       (mkPath "MSG01" ".txt") two_block_txt)
    [].

(** Stand-ins for the two library codecs on ASCII content. *)
Definition ascii_decode (data : bytes) : result str := Ok data.
Definition count_dump (a : JP.MappingArtifact) : bytes := [JP.art_count a].

(** *** The trainer seen through its observations *)

(** The pairs [(u, ch)] for which [align_block] runs [counts[u][ch] += 1],
    in the order in which it does. *)
Fixpoint block_observations (ub : list Z) (ref : str) : list (Z * Z) :=
  match ub with
  | [] => []
  | u :: ub' =>
      if (u =? JP.NEWLINE_000A) || (u =? JP.NEWLINE_8016) then
        match ref with
        | c :: ref' =>
            if c =? LF then block_observations ub' ref'
            else block_observations ub' ref
        | [] => block_observations ub' ref
        end
      else
        match lstrip_char LF ref with
        | [] => []
        | ch :: ref' => (u, ch) :: block_observations ub' ref'
        end
  end.

Fixpoint observations (pairs : list (list Z * str)) : list (Z * Z) :=
  match pairs with
  | [] => []
  | (ub, tb) :: rest =>
      block_observations ub (JP._strip_nl_tags_keep_newline tb)
        ++ observations rest
  end.

(** How many times the unit [u] was observed with the character [ch]. *)
Fixpoint count_pair (obs : list (Z * Z)) (u ch : Z) : Z :=
  match obs with
  | [] => 0
  | (u', ch') :: rest =>
      (if (u' =? u) && (ch' =? ch) then 1 else 0) + count_pair rest u ch
  end.

(** The characters observed with the unit [u], in order. *)
Definition chars_with (u : Z) (obs : list (Z * Z)) : list Z :=
  map snd (filter (fun o => fst o =? u) obs).

(** Reading [l] from its start, [x] is met before [y] (or [y] is never
    met); false when [x] does not occur before [y]. *)
Fixpoint first_of (x y : Z) (l : list Z) : bool :=
  match l with
  | [] => false
  | z :: rest =>
      if z =? x then true else if z =? y then false else first_of x y rest
  end.

(** Counters as they grow: an event [(k1, k2, n)] stands for
    [d[k1][k2] += n]. *)
Definition event : Type := (Z * Z * Z)%type.

Definition apply_event (d : dict Z (dict Z Z)) (e : event)
  : dict Z (dict Z Z) :=
  nested_add (fst (fst e)) (snd (fst e)) (snd e) d.

Definition build (events : list event) (d : dict Z (dict Z Z))
  : dict Z (dict Z Z) :=
  fold_left apply_event events d.

Fixpoint weight (events : list event) (a b : Z) : Z :=
  match events with
  | [] => 0
  | (k1, k2, n) :: rest =>
      (if (k1 =? a) && (k2 =? b) then n else 0) + weight rest a b
  end.

Definition seconds_of (a : Z) (events : list event) : list Z :=
  map (fun e => snd (fst e)) (filter (fun e => fst (fst e) =? a) events).

Definition cget (k : Z) (c : dict Z Z) : Z :=
  match dict_get Z.eqb k c with Some n => n | None => 0 end.

Definition cnt (d : dict Z (dict Z Z)) (a b : Z) : Z :=
  match dict_get Z.eqb a d with Some c => cget b c | None => 0 end.

Definition keys_of (a : Z) (d : dict Z (dict Z Z)) : list Z :=
  match dict_get Z.eqb a d with Some c => map fst c | None => [] end.

Definition add_key (ks : list Z) (k : Z) : list Z :=
  if existsb (Z.eqb k) ks then ks else ks ++ [k].

Definition observation_events (obs : list (Z * Z)) : list event :=
  map (fun o => (fst o, snd o, 1)) obs.

(** The events of [reverse_counts]: the entries of [counts], swapped. *)
Fixpoint counter_events (u : Z) (ctr : dict Z Z) : list event :=
  match ctr with
  | [] => []
  | (ch, n) :: rest => (ch, u, n) :: counter_events u rest
  end.

Fixpoint reversed_events (counts : dict Z (dict Z Z)) : list event :=
  match counts with
  | [] => []
  | (u, ctr) :: rest => counter_events u ctr ++ reversed_events rest
  end.

(** All stored counts are positive and no key is repeated. *)
Definition counter_ok (c : dict Z Z) : Prop :=
  NoDup (map fst c) /\ Forall (fun kn => 0 < snd kn) c.

Definition counters_ok (d : dict Z (dict Z Z)) : Prop :=
  NoDup (map fst d) /\ Forall (fun kc => counter_ok (snd kc)) d.

(** [x] or [y] occurs in [l]. *)
Definition mem2 (x y : Z) (l : list Z) : bool :=
  existsb (fun z => (z =? x) || (z =? y)) l.

(** The units observed with the character [ch], in order. *)
Definition units_with (ch : Z) (obs : list (Z * Z)) : list Z :=
  map fst (filter (fun o => snd o =? ch) obs).

(** The observations of a training run on parsed blocks. *)
Definition training_observations (msg_blocks_units : list (list Z))
  (txt_blocks : list str) : list (Z * Z) :=
  observations (combine msg_blocks_units txt_blocks).

(** Two uniform readings of "ties broken by first-encountered order, in
    both directions". In the first, the winner of a tie is the candidate
    that was paired first with the key: the character first observed with
    the unit, the unit first observed with the character. *)
Definition ties_by_first_pairing (obs : list (Z * Z))
  (unit_to_char char_to_unit : dict Z Z) : Prop :=
  (forall u ch ch',
      dict_get Z.eqb u unit_to_char = Some ch ->
      count_pair obs u ch' = count_pair obs u ch ->
      first_of ch ch' (chars_with u obs) = true) /\
  (forall ch u u',
      dict_get Z.eqb ch char_to_unit = Some u ->
      count_pair obs u' ch = count_pair obs u ch ->
      first_of u u' (units_with ch obs) = true).

(** In the second, the winner is the candidate that the training walk met
    first, whatever it was paired with. *)
Definition ties_by_first_encounter (obs : list (Z * Z))
  (unit_to_char char_to_unit : dict Z Z) : Prop :=
  (forall u ch ch',
      dict_get Z.eqb u unit_to_char = Some ch ->
      count_pair obs u ch' = count_pair obs u ch ->
      first_of ch ch' (map snd obs) = true) /\
  (forall ch u u',
      dict_get Z.eqb ch char_to_unit = Some u ->
      count_pair obs u' ch = count_pair obs u ch ->
      first_of u u' (map fst obs) = true).

(** What the trainer does: a tie between characters goes to the character
    first observed with the unit, a tie between units to the unit that the
    training walk met first. *)
Definition ties_as_trained (obs : list (Z * Z))
  (unit_to_char char_to_unit : dict Z Z) : Prop :=
  (forall u ch,
      dict_get Z.eqb u unit_to_char = Some ch ->
      0 < count_pair obs u ch /\
      forall ch',
        count_pair obs u ch' <= count_pair obs u ch /\
        (count_pair obs u ch' = count_pair obs u ch ->
         first_of ch ch' (chars_with u obs) = true)) /\
  (forall ch u,
      dict_get Z.eqb ch char_to_unit = Some u ->
      0 < count_pair obs u ch /\
      forall u',
        count_pair obs u' ch <= count_pair obs u ch /\
        (count_pair obs u' ch = count_pair obs u ch ->
         first_of u u' (map fst obs) = true)).

(** One block of five units against the reference text "abacc". *)
Definition tie_units : list (list Z) := [[2; 1; 1; 1; 2]].
Definition tie_text : list str := [lit "abacc"].

(** A container with the one block of [tie_units], and its reference
    document. *)
Definition tie_msg : bytes :=
  [0; 18; 0; 1;  0; 0; 0; 5;  0; 2; 0; 1; 0; 1; 0; 1; 0; 2].
Definition tie_txt : str := lit "abacc" ++ [LF] ++ lit "###" ++ [LF].
Definition tie_observations : list (Z * Z) :=
  [(2, 0x61); (1, 0x62); (1, 0x61); (1, 0x63); (2, 0x63)].

(** A container whose block holds both newline codes, and its tagged
    reference document. *)
Definition newline_msg : bytes :=
  [0; 16; 0; 1;  0; 0; 0; 4;  0; 2; 0x80; 0x16; 0; 1; 0; 0x0A].
Definition newline_txt : str :=
  lit "a" ++ JP.NL_TAG_8016 ++ [LF] ++ lit "b" ++ JP.NL_TAG_000A ++ [LF]
    ++ lit "###" ++ [LF].
Definition newline_files : FS :=
  write_bytes
    (write_bytes (fun _ => None) (mkPath "MSG02" ".MSG") newline_msg)
    (mkPath "MSG02" ".txt") newline_txt.

(** *** Further statements *)

(** The block table of blocks laid one after the other from [off]. *)
Fixpoint layout (off : Z) (blocks_units : list (list Z)) : list Entry :=
  match blocks_units with
  | [] => []
  | units :: rest => mkEntry off (len units) :: layout (off + len units) rest
  end.

(** The blocks of a container decoded one by one, the first failure
    ending the decoding. *)
Fixpoint decode_each (blocks_units : list (list Z)) (tag_newlines : bool)
  : result (list str) :=
  match blocks_units with
  | [] => Ok []
  | units :: rest =>
      block <- EN._decode_units_to_text units tag_newlines ;;
      blocks <- decode_each rest tag_newlines ;;
      Ok (block :: blocks)
  end.

(** The code units that the Latin encoder itself writes: the two newline
    codes, the ASCII values other than the lowercase letters, and the
    lowercase letters shifted by 0x80. *)
Definition canonical_unit (u : Z) : bool :=
  (u =? 0x0A) || (u =? 0x8016) ||
  ((0 <=? u) && (u <? 0x61)) || ((0x7B <=? u) && (u <? 0x80)) ||
  ((0xE1 <=? u) && (u <=? 0xFA)).

(** A block as [make_txt_from_blocks] writes it and [split_txt_into_blocks]
    reads it back: empty, or as [clean_block] has it. *)
Definition plain_block (b : str) : bool := EN.is_empty b || clean_block b.

(** What [split_txt_into_blocks] drops at the end: one block, when it is
    empty and not the only one. *)
Definition without_final_empty (bs : list str) : list str :=
  if str_eqb (last bs []) [] && (len bs >? 1) then removelast bs else bs.

(** Texts of the second tool made of characters other than the line break
    and of tagged line breaks. *)
Inductive jp_tagged_text : str -> Prop :=
| jp_tagged_nil : jp_tagged_text []
| jp_tagged_char c t :
    c <> LF -> jp_tagged_text t -> jp_tagged_text (c :: t)
| jp_tagged_8016 t :
    jp_tagged_text t -> jp_tagged_text (JP.NL_TAG_8016 ++ LF :: t)
| jp_tagged_000A t :
    jp_tagged_text t -> jp_tagged_text (JP.NL_TAG_000A ++ LF :: t).

(** The pair of tables gives the unit [u] back: a newline code; or a unit
    whose glyph is one character, not the line break, that the glyph->unit
    table sends to [u]; or a unit without glyph that is a printable ASCII
    value plus 0x80, which the glyph->unit table sends to [u] or, for a
    lowercase letter, leaves out. *)
Definition unit_restored (unit_to_char : dict Z str)
  (char_to_unit : dict str Z) (u : Z) : bool :=
  (u =? JP.NEWLINE_000A) || (u =? JP.NEWLINE_8016) ||
  match dict_get Z.eqb u unit_to_char with
  | Some [c] =>
      negb (c =? LF) &&
      match dict_get str_eqb [c] char_to_unit with
      | Some u' => u' =? u
      | None => false
      end
  | Some _ => false
  | None =>
      (u >=? 0x80) && JP._is_ascii_printable (u - 0x80) &&
      match dict_get str_eqb [u - 0x80] char_to_unit with
      | Some u' => u' =? u
      | None => (0x61 <=? u - 0x80) && (u - 0x80 <=? 0x7A)
      end
  end.

(** The units that the English-only rules of the second tool give back:
    the newline codes, the lowercase letters plus 0x80, and every other
    16-bit value that is neither a lowercase letter nor a printable ASCII
    value (or the tab) plus 0x80. *)
Definition english_unit_restored (u : Z) : bool :=
  (u =? JP.NEWLINE_000A) || (u =? JP.NEWLINE_8016) ||
  ((0xE1 <=? u) && (u <=? 0xFA)) ||
  ((0 <=? u) && (u <=? 0xFFFF) &&
   negb ((0x61 <=? u) && (u <=? 0x7A)) &&
   negb ((u >=? 0x80) && JP._is_ascii_printable (u - 0x80))).

(** The units that the English-only decoders of the two tools read alike:
    below 0x80, or a printable ASCII value (or the tab) plus 0x80; a
    newline code when no tag is written, the tags of the two tools being
    different. *)
Definition same_reading (tag_newlines : bool) (u : Z) : bool :=
  if (u =? 0x000A) || (u =? 0x8016) then negb tag_newlines
  else (u <? 0x80) || JP._is_ascii_printable (u - 0x80).

(** * Properties *)

(** ** Latin transcoder (duomsgEN.pyw) *)

Lemma startswith_app (tag rest : str) : startswith (tag ++ rest) tag = true.
Proof.
  induction tag as [|p tag IH]; simpl; [reflexivity|].
  rewrite Z.eqb_refl. exact IH.
Qed.

Lemma startswith_inv (tag s : str) :
  startswith s tag = true -> exists rest, s = tag ++ rest.
Proof.
  revert s. induction tag as [|p tag IH]; intros s H; simpl in H.
  - exists s. reflexivity.
  - destruct s as [|c s]; [discriminate|].
    apply andb_prop in H. destruct H as [Hc Hs].
    apply Z.eqb_eq in Hc. subst c.
    destruct (IH _ Hs) as [rest ->]. exists rest. reflexivity.
Qed.

Lemma index_app_len (tag rest : str) :
  index (tag ++ rest) (len tag) = hd_error rest.
Proof.
  unfold index, len. rewrite Nat2Z.id.
  induction tag as [|p tag IH]; simpl; [destruct rest; reflexivity|exact IH].
Qed.

Lemma tagged_newline_at_intro (tag rest : str) :
  tagged_newline_at tag (tag ++ LF :: rest) = true.
Proof.
  unfold tagged_newline_at.
  rewrite startswith_app, index_app_len. simpl.
  replace (len tag <? len (tag ++ LF :: rest)) with true; [reflexivity|].
  symmetry. apply Z.ltb_lt. unfold len.
  rewrite length_app. simpl. lia.
Qed.

Lemma tagged_newline_at_inv (tag s : str) :
  tagged_newline_at tag s = true -> exists rest, s = tag ++ LF :: rest.
Proof.
  unfold tagged_newline_at. intros H.
  apply andb_prop in H. destruct H as [H Hc].
  apply andb_prop in H. destruct H as [Hs _].
  destruct (startswith_inv _ _ Hs) as [rest ->].
  rewrite index_app_len in Hc.
  destruct rest as [|c rest]; simpl in Hc; [discriminate|].
  apply Z.eqb_eq in Hc. subst c. exists rest. reflexivity.
Qed.

Lemma skipn_tagged (tag rest : str) :
  skipn (List.length tag + 1) (tag ++ LF :: rest) = rest.
Proof.
  induction tag as [|p tag IH]; simpl; [reflexivity|exact IH].
Qed.
Lemma encode_loop_fuel (d : Z) (f1 f2 : nat) (s : str) :
  (List.length s <= f1)%nat -> (List.length s <= f2)%nat ->
  EN.encode_loop f1 s d = EN.encode_loop f2 s d.
Proof.
  revert f2 s. induction f1 as [|f1 IH]; intros f2 s H1 H2.
  - destruct s; [|simpl in H1; lia]. destruct f2; reflexivity.
  - destruct s as [|ch rest]; [destruct f2; reflexivity|].
    destruct f2 as [|f2]; [simpl in H2; lia|].
    simpl in H1, H2.
    assert (Hk : forall k, (List.length (skipn (S k) (ch :: rest)) <= f1)%nat
                        /\ (List.length (skipn (S k) (ch :: rest)) <= f2)%nat).
    { intros k. rewrite length_skipn. simpl. lia. }
    cbn [EN.encode_loop].
    repeat match goal with
           | |- context [if ?b then _ else _] => destruct b
           end;
      try (f_equal; apply IH; lia);
      f_equal; apply IH; apply Hk.
Qed.

Lemma encode_cons_tag_8016 (t : str) (d : Z) :
  EN._encode_text_to_units (EN.NL_TAG_8016 ++ LF :: t) d
  = EN.NEWLINE_8016 :: EN._encode_text_to_units t d.
Proof.
  unfold EN._encode_text_to_units.
  remember (EN.NL_TAG_8016 ++ LF :: t) as s eqn:Hs.
  destruct s as [|ch rest]; [discriminate|].
  cbn [List.length EN.encode_loop].
  rewrite Hs at 1. rewrite tagged_newline_at_intro. cbn [EN.TAG_NEWLINES andb].
  f_equal. rewrite Hs, skipn_tagged.
  apply encode_loop_fuel; [|lia].
  apply (f_equal (@List.length Z)) in Hs. rewrite length_app in Hs. simpl in Hs. lia.
Qed.

Lemma encode_cons_tag_000A (t : str) (d : Z) :
  EN._encode_text_to_units (EN.NL_TAG_000A ++ LF :: t) d
  = EN.NEWLINE_000A :: EN._encode_text_to_units t d.
Proof.
  unfold EN._encode_text_to_units.
  remember (EN.NL_TAG_000A ++ LF :: t) as s eqn:Hs.
  destruct s as [|ch rest]; [discriminate|].
  cbn [List.length EN.encode_loop].
  destruct (tagged_newline_at EN.NL_TAG_8016 (ch :: rest)) eqn:E.
  { apply tagged_newline_at_inv in E. destruct E as [r E].
    rewrite E in Hs. vm_compute in Hs. discriminate. }
  cbn [EN.TAG_NEWLINES andb].
  rewrite Hs at 1. rewrite tagged_newline_at_intro. cbn [EN.TAG_NEWLINES andb].
  f_equal. rewrite Hs, skipn_tagged.
  apply encode_loop_fuel; [|lia].
  apply (f_equal (@List.length Z)) in Hs. rewrite length_app in Hs. simpl in Hs. lia.
Qed.

Lemma tagged_text_head (c : Z) (t : str) : tagged_text (c :: t) -> c <> LF.
Proof.
  intros H. inversion H; subst; [assumption| |];
    intro E; vm_compute in E; discriminate.
Qed.

Lemma no_tag_before_tagged_text (tag : str) (c : Z) (t : str) :
  tag = EN.NL_TAG_8016 \/ tag = EN.NL_TAG_000A ->
  tagged_text t -> tagged_newline_at tag (c :: t) = false.
Proof.
  intros Htag Ht.
  destruct (tagged_newline_at tag (c :: t)) eqn:E; [|reflexivity].
  exfalso. apply tagged_newline_at_inv in E. destruct E as [r E].
  destruct Htag as [-> | ->]; vm_compute in E; inversion E; subst.
  - inversion Ht; subst.
    eapply tagged_text_head; [eassumption|reflexivity].
  - inversion Ht; subst.
    match goal with H : tagged_text (_ :: _ :: _) |- _ => inversion H; subst end.
    eapply tagged_text_head; [eassumption|reflexivity].
Qed.

Lemma encode_cons_char (c : Z) (t : str) (d : Z) :
  c <> LF -> tagged_text t ->
  EN._encode_text_to_units (c :: t) d
  = (if (0x61 <=? c) && (c <=? 0x7A) then c + 0x80 else c)
      :: EN._encode_text_to_units t d.
Proof.
  intros Hc Ht. unfold EN._encode_text_to_units.
  cbn [List.length EN.encode_loop].
  rewrite !no_tag_before_tagged_text by auto.
  cbn [EN.TAG_NEWLINES andb].
  destruct (Z.eqb_spec c LF); [contradiction|].
  unfold ord. destruct ((0x61 <=? c) && (c <=? 0x7A)); reflexivity.
Qed.

Lemma decode_units_cons (v : Z) (units : list Z) (tag : bool) (p out : str) :
  EN.decode_unit v tag = Ok p ->
  EN._decode_units_to_text units tag = Ok out ->
  EN._decode_units_to_text (v :: units) tag = Ok (p ++ out).
Proof. intros Hp Ho. simpl. rewrite Hp. simpl. rewrite Ho. reflexivity. Qed.

Ltac zcases :=
  repeat match goal with
         | |- context [?a >=? ?b] => rewrite (Z.geb_leb a b)
         | |- context [?a >? ?b] => rewrite (Z.gtb_ltb a b)
         | |- context [?a <=? ?b] => destruct (Z.leb_spec a b); try lia
         | |- context [?a <? ?b] => destruct (Z.ltb_spec a b); try lia
         | |- context [?a =? ?b] => destruct (Z.eqb_spec a b); try lia
         end.

Lemma decode_unit_of_char (c : Z) :
  0 <= c < 0x80 -> c <> LF ->
  EN.decode_unit (if (0x61 <=? c) && (c <=? 0x7A) then c + 0x80 else c) true
  = Ok [c].
Proof.
  intros Hr Hc.
  unfold EN.decode_unit, EN.NEWLINE_000A, EN.NEWLINE_8016, chr, LF in *.
  destruct ((0x61 <=? c) && (c <=? 0x7A)) eqn:E.
  - apply andb_prop in E. destruct E as [E1 E2].
    apply Z.leb_le in E1, E2.
    zcases; cbn [andb bind]; zcases; cbn [andb bind].
    f_equal; f_equal; lia.
  - zcases; cbn [andb bind]; zcases; cbn [andb bind]; reflexivity.
Qed.

Lemma roundtrip_tagged_text (t : str) (d : Z) :
  tagged_text t -> ascii_only t = true ->
  EN._decode_units_to_text (EN._encode_text_to_units t d) true = Ok t.
Proof.
  intros Ht. induction Ht as [|c t Hc Ht IH|t Ht IH|t Ht IH]; intros Ha.
  - reflexivity.
  - simpl in Ha. apply andb_prop in Ha. destruct Ha as [Hr Ha].
    apply andb_prop in Hr. destruct Hr as [H0 H1].
    apply Z.leb_le in H0. apply Z.ltb_lt in H1.
    rewrite encode_cons_char by assumption.
    apply (decode_units_cons _ _ _ [c] t); [apply decode_unit_of_char; auto; lia|auto].
  - rewrite encode_cons_tag_8016.
    unfold ascii_only in Ha. rewrite forallb_app in Ha.
    apply andb_prop in Ha. destruct Ha as [_ Ha]. simpl in Ha.
    apply (decode_units_cons _ _ _ (EN.NL_TAG_8016 ++ [LF]) t); [reflexivity|].
    apply IH. apply Ha.
  - rewrite encode_cons_tag_000A.
    unfold ascii_only in Ha. rewrite forallb_app in Ha.
    apply andb_prop in Ha. destruct Ha as [_ Ha]. simpl in Ha.
    apply (decode_units_cons _ _ _ (EN.NL_TAG_000A ++ [LF]) t); [reflexivity|].
    apply IH. apply Ha.
Qed.

Lemma tagged_text_app (a b : str) :
  tagged_text a -> tagged_text b -> tagged_text (a ++ b).
Proof.
  intros Ha Hb. induction Ha as [|c t Hc Ht IH|t Ht IH|t Ht IH].
  - exact Hb.
  - simpl. apply tagged_char; assumption.
  - rewrite <- app_assoc. simpl. apply tagged_8016. exact IH.
  - rewrite <- app_assoc. simpl. apply tagged_000A. exact IH.
Qed.

Lemma tagged_backwards_app (x y : str) :
  tagged_backwards (x ++ y) = true -> tagged_backwards y = true.
Proof.
  induction x as [|c x IH]; simpl; intros H; [exact H|].
  apply andb_prop in H. destruct H as [_ H]. exact (IH H).
Qed.

Lemma tagged_backwards_sound (n : nat) :
  forall r : str, (List.length r <= n)%nat ->
  tagged_backwards r = true -> tagged_text (rev r).
Proof.
  induction n as [|n IH]; intros r Hn H.
  - destruct r; [apply tagged_nil|simpl in Hn; lia].
  - destruct r as [|c before]; [apply tagged_nil|].
    cbn [List.length] in Hn. cbn [tagged_backwards] in H.
    apply andb_prop in H. destruct H as [Hc Hb].
    destruct (Z.eqb_spec c LF) as [-> | Hne].
    + apply orb_prop in Hc.
      assert (Htag : exists tag rest,
                 (tag = EN.NL_TAG_8016 \/ tag = EN.NL_TAG_000A) /\
                 before = rev tag ++ rest).
      { destruct Hc as [Hc | Hc]; apply startswith_inv in Hc;
          destruct Hc as [rest Hc]; eauto. }
      destruct Htag as (tag & rest & Htag & ->).
      apply tagged_backwards_app in Hb.
      assert (Hr : tagged_text (rev rest)).
      { apply IH; [|exact Hb]. rewrite length_app in Hn. lia. }
      simpl. rewrite rev_app_distr, rev_involutive, <- app_assoc.
      apply tagged_text_app; [exact Hr|].
      destruct Htag as [-> | ->].
      * apply (tagged_8016 []), tagged_nil.
      * apply (tagged_000A []), tagged_nil.
    + simpl. apply tagged_text_app; [apply IH; [lia|exact Hb]|].
      apply tagged_char; [exact Hne|apply tagged_nil].
Qed.

Lemma newlines_all_tagged_sound (t : str) :
  newlines_all_tagged t = true -> tagged_text t.
Proof.
  intros H. rewrite <- (rev_involutive t).
  apply (tagged_backwards_sound (List.length (rev t))); [lia|exact H].
Qed.

(** C1 (amended): for every text [t] of ASCII characters in which each line
    break is immediately preceded by one of the two newline tags (no bare
    line break), decoding with tagging enabled the units produced by
    encoding [t] gives [t] again, whatever the default newline code. *)
Theorem latin_roundtrip_tagged_ascii (t : str) (default_newline_code : Z) :
  ascii_only t = true ->
  newlines_all_tagged t = true ->
  EN._decode_units_to_text
    (EN._encode_text_to_units t default_newline_code) true = Ok t.
Proof.
  intros Ha Hn. apply roundtrip_tagged_text; [|exact Ha].
  apply newlines_all_tagged_sound. exact Hn.
Qed.

Lemma latin_roundtrip_tagged_ascii_witness :
  let t := lit "Hi/n" ++ [LF] ++ lit "x/nn" ++ [LF] ++ lit "/n/n" ++ [LF] in
  ascii_only t = true /\ newlines_all_tagged t = true /\
  EN._decode_units_to_text
    (EN._encode_text_to_units t EN.DEFAULT_ENCODE_NEWLINE) true = Ok t.
Proof.
  intros t. split; [reflexivity|]. split; [reflexivity|].
  apply (latin_roundtrip_tagged_ascii t EN.DEFAULT_ENCODE_NEWLINE);
    reflexivity.
Defined.

(** C1 (counterexample): the one-character text made of a bare line break
    is encoded as the default code 0x8016, which decodes, tagging enabled,
    to the tag followed by the line break: three characters, not one. *)
Lemma bare_newline_roundtrip_fails :
  EN.TAG_NEWLINES = true /\
  EN._decode_units_to_text
    (EN._encode_text_to_units [LF] EN.DEFAULT_ENCODE_NEWLINE) true
  = Ok (EN.NL_TAG_8016 ++ [LF]) /\
  EN._decode_units_to_text
    (EN._encode_text_to_units [LF] EN.DEFAULT_ENCODE_NEWLINE) true
  <> Ok [LF].
Proof.
  split; [reflexivity|]. split; [reflexivity|]. discriminate.
Qed.

(** A character above the ASCII range is not restored either: U+00E9 is
    stored raw as 0xE9 and read back as [chr(0xE9 - 0x80)]. *)
Lemma latin1_char_roundtrip_fails :
  EN._decode_units_to_text
    (EN._encode_text_to_units [0xE9] EN.DEFAULT_ENCODE_NEWLINE) true
  = Ok [0x69].
Proof. reflexivity. Qed.

(** C2 (counterexample): whatever text the six units decode to, encoding
    it again does not give the six units back. *)
Lemma hello_units_not_reproduced :
  ~ exists t : str,
      EN._decode_units_to_text hello_units true = Ok t /\
      EN._encode_text_to_units t 0x8016 = hello_units.
Proof.
  intros [t [Hd He]]. vm_compute in Hd. inversion Hd; subst t.
  vm_compute in He. discriminate.
Qed.

(** C2 (amended): the six units decode under the Latin rule to "Hello"
    followed by the 0x8016 line break (with its tag when tagging is
    enabled); encoding that text with default newline code 0x8016 gives the
    six units with 0xE5 in place of 0x65, lowercase 'e' being always stored
    as 0xE5; and these re-encoded units decode to the same text. *)
Theorem hello_scenario :
  (forall tag_newlines : bool,
      EN._decode_units_to_text hello_units tag_newlines
      = Ok (hello_text tag_newlines)) /\
  EN._encode_text_to_units (hello_text EN.TAG_NEWLINES) 0x8016
  = hello_reencoded /\
  EN._decode_units_to_text hello_reencoded EN.TAG_NEWLINES
  = Ok (hello_text EN.TAG_NEWLINES).
Proof.
  split; [intros [|]; reflexivity|]. split; reflexivity.
Qed.

(** ** Serialisation of the container (both tools) *)

Lemma pack_H_length (v : Z) (b : bytes) :
  pack_H v = Ok b -> List.length b = 2%nat.
Proof.
  unfold pack_H. destruct ((0 <=? v) && (v <=? 0xFFFF)); intros H;
    inversion H; reflexivity.
Qed.

Lemma pack_HH_length (a b : Z) (out : bytes) :
  pack_HH a b = Ok out -> List.length out = 4%nat.
Proof.
  unfold pack_HH, bind.
  destruct (pack_H a) as [x|] eqn:Ha; [|discriminate].
  destruct (pack_H b) as [y|] eqn:Hb; [|discriminate].
  intros H. inversion H. rewrite length_app.
  rewrite (pack_H_length _ _ Ha), (pack_H_length _ _ Hb). reflexivity.
Qed.

Lemma pack_units_length (units : list Z) (out : bytes) :
  pack_units units = Ok out -> len out = 2 * len units.
Proof.
  revert out. induction units as [|u units IH]; intros out H; simpl in H.
  - inversion H. reflexivity.
  - unfold bind in H.
    destruct (pack_H u) as [x|] eqn:Hu; [|discriminate].
    destruct (pack_units units) as [y|] eqn:Hy; [|discriminate].
    inversion H. specialize (IH y eq_refl). unfold len in *.
    rewrite length_app, (pack_H_length _ _ Hu). simpl List.length. lia.
Qed.

Lemma pack_entries_length (entries : list Entry) (out : bytes) :
  pack_entries entries = Ok out -> len out = 4 * len entries.
Proof.
  revert out. induction entries as [|e entries IH]; intros out H; simpl in H.
  - inversion H. reflexivity.
  - unfold bind in H.
    destruct (pack_HH (offset e) (length_ e)) as [x|] eqn:He; [|discriminate].
    destruct (pack_entries entries) as [y|] eqn:Hy; [|discriminate].
    inversion H. specialize (IH y eq_refl). unfold len in *.
    rewrite length_app, (pack_HH_length _ _ _ He). simpl List.length. lia.
Qed.

Lemma unpack_pack_HH (a b : Z) (out rest : bytes) :
  pack_HH a b = Ok out -> declared_header (out ++ rest) = Ok (a, b).
Proof.
  unfold pack_HH, pack_H, bind, declared_header.
  destruct ((0 <=? a) && (a <=? 0xFFFF)); [|discriminate].
  destruct ((0 <=? b) && (b <=? 0xFFFF)); [|discriminate].
  intros H. inversion H.
  unfold slice. change (Z.to_nat (4 - 0)) with 4%nat.
  change (Z.to_nat 0) with 0%nat. cbn [app skipn firstn unpack_HH].
  f_equal. f_equal.
  - pose proof (Z.div_mod a 256). lia.
  - pose proof (Z.div_mod b 256). lia.
Qed.

Lemma serialize_msg_header (entries : list Entry) (all_units : list Z)
  (out : bytes) :
  serialize_msg entries all_units = Ok out ->
  declared_header out
  = Ok (4 + 4 * len entries + 2 * len all_units, len entries) /\
  len out = 4 + 4 * len entries + 2 * len all_units.
Proof.
  unfold serialize_msg, bind.
  destruct (match all_units with [] => Ok [] | _ => pack_units all_units end)
    as [text_bytes|] eqn:Ht; [|discriminate].
  assert (Hlen : len text_bytes = 2 * len all_units).
  { destruct all_units; [inversion Ht; reflexivity|].
    apply pack_units_length. exact Ht. }
  destruct (pack_entries entries) as [header_table|] eqn:He; [|discriminate].
  apply pack_entries_length in He.
  destruct (pack_HH (4 + len header_table + len text_bytes) (len entries))
    as [header|] eqn:Hh; [|discriminate].
  intros H. inversion H. split.
  - rewrite (unpack_pack_HH _ _ _ _ Hh). rewrite He, Hlen. reflexivity.
  - apply pack_HH_length in Hh. unfold len in *.
    rewrite !length_app, Hh. simpl Z.of_nat. lia.
Qed.

Lemma total_units_cons (units : list Z) (rest : list (list Z)) :
  total_units (units :: rest) = len units + total_units rest.
Proof. reflexivity. Qed.

Lemma en_encode_blocks_loop_lengths (blocks : list str) (d : Z) :
  forall (all_units : list Z) (entries : list Entry) (cur_off : Z)
         (all_units' : list Z) (entries' : list Entry),
  EN.encode_blocks_loop blocks d all_units entries cur_off
  = (all_units', entries') ->
  len entries' = len entries + len blocks /\
  len all_units'
  = len all_units
    + total_units (map (fun b => EN._encode_text_to_units b d) blocks).
Proof.
  induction blocks as [|b blocks IH]; intros us es off us' es' H; simpl in H.
  - inversion H. subst. unfold len. cbn [map total_units fold_right List.length]. lia.
  - apply IH in H. destruct H as [He Hu]. unfold len in *.
    rewrite length_app in He, Hu.
    cbn [List.length] in He, Hu.
    cbn [map List.length]. rewrite total_units_cons. unfold len. lia.
Qed.

Lemma jp_encode_blocks_loop_lengths (blocks : list str)
  (char_to_unit : dict str Z) (dn : Z) (policy : string) :
  forall (all_units : list Z) (entries : list Entry)
         (all_units' : list Z) (entries' : list Entry),
  JP.encode_blocks_loop blocks char_to_unit dn policy all_units entries
  = Ok (all_units', entries') ->
  exists blocks_units : list (list Z),
    Forall2 (fun b units => JP.encode_block b char_to_unit dn policy = Ok units)
      blocks blocks_units /\
    len entries' = len entries + len blocks /\
    len all_units' = len all_units + total_units blocks_units.
Proof.
  induction blocks as [|b blocks IH]; intros us es us' es' H; simpl in H.
  - inversion H. subst. exists []. split; [constructor|].
    unfold len. cbn [total_units fold_right List.length]. lia.
  - unfold bind in H.
    destruct (JP.encode_block b char_to_unit dn policy) as [units|] eqn:Hb;
      [|discriminate].
    apply IH in H. destruct H as (bus & HF & He & Hu).
    exists (units :: bus). split; [constructor; assumption|].
    unfold len in *. rewrite length_app in He, Hu.
    cbn [List.length] in He, Hu.
    cbn [List.length]. rewrite total_units_cons. unfold len. lia.
Qed.

(** C5: whenever an encoder returns the bytes of a container, the first
    header field, read back as the decoders read it, is
    4 + 4 x blockCount + 2 x (sum of the block lengths in code units), the
    second is the block count, and the first is the byte length of the
    output. This holds for [encode_blocks_to_msg] of duomsgEN.pyw and for
    [encode_blocks_with_map] of duomsgJP, whose block lengths are those of
    the blocks it managed to encode. *)
Theorem header_declares_total_size (blocks : list str) (default_newline : Z)
  (char_to_unit : dict str Z) (policy : string) :
  (forall out : bytes,
      EN.encode_blocks_to_msg blocks default_newline = Ok out ->
      let total :=
        4 + 4 * len blocks
        + 2 * total_units
                (map (fun b => EN._encode_text_to_units b default_newline)
                   blocks) in
      declared_header out = Ok (total, len blocks) /\ len out = total) /\
  (forall out : bytes,
      JP.encode_blocks_with_map blocks char_to_unit default_newline policy
      = Ok out ->
      exists blocks_units : list (list Z),
        Forall2
          (fun b units =>
             JP.encode_block b char_to_unit default_newline policy = Ok units)
          blocks blocks_units /\
        let total := 4 + 4 * len blocks + 2 * total_units blocks_units in
        declared_header out = Ok (total, len blocks) /\ len out = total).
Proof.
  split; intros out H.
  - unfold EN.encode_blocks_to_msg in H.
    destruct (EN.encode_blocks_loop blocks default_newline [] [] 0)
      as [all_units entries] eqn:Hl.
    apply en_encode_blocks_loop_lengths in Hl. destruct Hl as [He Hu].
    apply serialize_msg_header in H. destruct H as [Hh Hn].
    cbv zeta. rewrite Hh, Hn, He, Hu. unfold len. simpl List.length.
    split; [f_equal; f_equal|]; lia.
  - unfold JP.encode_blocks_with_map, bind in H.
    destruct (JP.encode_blocks_loop blocks char_to_unit default_newline
                policy [] []) as [[all_units entries]|] eqn:Hl;
      [|discriminate].
    apply jp_encode_blocks_loop_lengths in Hl.
    destruct Hl as (bus & HF & He & Hu).
    apply serialize_msg_header in H. destruct H as [Hh Hn].
    exists bus. split; [exact HF|].
    cbv zeta. rewrite Hh, Hn, He, Hu. unfold len. simpl List.length.
    split; [f_equal; f_equal|]; lia.
Qed.

Lemma header_declares_total_size_witness :
  let out := [0; 18; 0; 2; 0; 0; 0; 2; 0; 2; 0; 1; 0; 72; 0; 233; 0; 225] in
  EN.encode_blocks_to_msg [lit "Hi"; lit "a"] 0x8016 = Ok out /\
  declared_header out = Ok (18, 2) /\ len out = 18.
Proof.
  intros out. split; [reflexivity|].
  exact (proj1 (header_declares_total_size [lit "Hi"; lit "a"] 0x8016 []
                  JP.ENCODE_UNKNOWN_POLICY) out eq_refl).
Defined.

Lemma pack_H_ok (v : Z) : 0 <= v <= 0xFFFF -> exists b, pack_H v = Ok b.
Proof.
  intros H. unfold pack_H.
  replace ((0 <=? v) && (v <=? 0xFFFF)) with true; [eauto|].
  symmetry. apply andb_true_intro. split; apply Z.leb_le; lia.
Qed.

Lemma pack_HH_ok (a b : Z) :
  0 <= a <= 0xFFFF -> 0 <= b <= 0xFFFF -> exists out, pack_HH a b = Ok out.
Proof.
  intros Ha Hb. unfold pack_HH.
  destruct (pack_H_ok a Ha) as [x ->]. destruct (pack_H_ok b Hb) as [y ->].
  simpl. eauto.
Qed.

Lemma pack_units_ok (units : list Z) :
  Forall (fun u => 0 <= u <= 0xFFFF) units ->
  exists out, pack_units units = Ok out.
Proof.
  induction 1 as [|u units Hu _ IH]; simpl; [eauto|].
  destruct (pack_H_ok u Hu) as [x ->]. destruct IH as [y ->].
  simpl. eauto.
Qed.

Lemma pack_entries_ok (entries : list Entry) :
  Forall (fun e => 0 <= offset e <= 0xFFFF /\ 0 <= length_ e <= 0xFFFF)
    entries ->
  exists out, pack_entries entries = Ok out.
Proof.
  induction 1 as [|e entries [Ho Hl] _ IH]; simpl; [eauto|].
  destruct (pack_HH_ok _ _ Ho Hl) as [x ->]. destruct IH as [y ->].
  simpl. eauto.
Qed.

Lemma en_encode_blocks_loop_entries (blocks : list str) (d : Z) :
  forall (all_units : list Z) (entries : list Entry)
         (all_units' : list Z) (entries' : list Entry),
  EN.encode_blocks_loop blocks d all_units entries (len all_units)
  = (all_units', entries') ->
  Forall (fun e => 0 <= offset e /\ 0 <= length_ e /\
                   offset e + length_ e <= len all_units) entries ->
  Forall (fun e => 0 <= offset e /\ 0 <= length_ e /\
                   offset e + length_ e <= len all_units') entries'.
Proof.
  induction blocks as [|b blocks IH]; intros us es us' es' H HF; simpl in H.
  - inversion H. subst. exact HF.
  - replace (len us + len (EN._encode_text_to_units b d))
      with (len (us ++ EN._encode_text_to_units b d)) in H
      by (unfold len; rewrite length_app; lia).
    apply IH in H; [exact H|].
    apply Forall_app. split.
    + eapply Forall_impl; [|exact HF]. cbv beta. intros e He.
      unfold len in *. rewrite length_app. lia.
    + constructor; [|constructor]. simpl.
      unfold len. rewrite length_app. lia.
Qed.

(** The encoder of duomsgEN.pyw does return a container as soon as every
    code unit and the total size fit in 16 bits; beyond that [struct.pack]
    raises and nothing is produced. *)
Lemma encode_blocks_to_msg_succeeds (blocks : list str) (d : Z) :
  Forall (fun b => Forall (fun u => 0 <= u <= 0xFFFF)
                     (EN._encode_text_to_units b d)) blocks ->
  4 + 4 * len blocks
  + 2 * total_units (map (fun b => EN._encode_text_to_units b d) blocks)
  <= 0xFFFF ->
  exists out, EN.encode_blocks_to_msg blocks d = Ok out.
Proof.
  intros Hunits Htotal. unfold EN.encode_blocks_to_msg.
  destruct (EN.encode_blocks_loop blocks d [] [] 0)
    as [all_units entries] eqn:Hl.
  pose proof (en_encode_blocks_loop_lengths _ _ _ _ _ _ _ Hl) as [He Hu].
  assert (Hin : Forall (fun u => 0 <= u <= 0xFFFF) all_units).
  { clear - Hl Hunits.
    assert (G : forall bs us es off us' es',
               EN.encode_blocks_loop bs d us es off = (us', es') ->
               Forall (fun b => Forall (fun u => 0 <= u <= 0xFFFF)
                                  (EN._encode_text_to_units b d)) bs ->
               Forall (fun u => 0 <= u <= 0xFFFF) us ->
               Forall (fun u => 0 <= u <= 0xFFFF) us').
    { induction bs as [|b bs IH]; intros us es off us' es' H Hb Hus;
        simpl in H.
      - inversion H. subst. exact Hus.
      - inversion Hb; subst. eapply IH; [exact H|assumption|].
        apply Forall_app. split; assumption. }
    eapply G; [exact Hl|exact Hunits|constructor]. }
  apply (en_encode_blocks_loop_entries blocks d [] []) in Hl; [|constructor].
  change (len (@nil Z)) with 0 in Hu. change (len (@nil Entry)) with 0 in He.
  unfold serialize_msg.
  assert (Ht : exists text_bytes,
             (match all_units with
              | [] => Ok []
              | _ => pack_units all_units
              end) = Ok text_bytes /\ len text_bytes = 2 * len all_units).
  { destruct all_units as [|u us]; [exists []; split; reflexivity|].
    destruct (pack_units_ok _ Hin) as [tb Htb].
    exists tb. split; [exact Htb|apply pack_units_length; exact Htb]. }
  destruct Ht as (text_bytes & -> & Htl).
  destruct (pack_entries_ok entries) as [header_table Hht].
  { eapply Forall_impl; [|exact Hl]. cbv beta. intros e He'.
    assert (0 <= len blocks) by (unfold len; lia). lia. }
  cbn [bind]. rewrite Hht. cbn [bind].
  apply pack_entries_length in Hht.
  destruct (pack_HH_ok (4 + len header_table + len text_bytes) (len entries))
    as [header Hh].
  { assert (0 <= len blocks) by (unfold len; lia).
    assert (0 <= len all_units) by (unfold len; lia). lia. }
  { assert (0 <= len blocks) by (unfold len; lia).
    assert (0 <= len all_units) by (unfold len; lia). lia. }
  rewrite Hh. cbn [bind]. eauto.
Qed.

(** ** Block splitter and joiner *)

Lemma str_eqb_eq (a b : str) : str_eqb a b = true <-> a = b.
Proof.
  revert b. induction a as [|x a IH]; intros [|y b]; simpl;
    try (split; [discriminate|discriminate]); [split; reflexivity|].
  rewrite andb_true_iff, Z.eqb_eq, IH.
  split; [intros [-> ->]; reflexivity|intros H; inversion H; auto].
Qed.

Lemma join_cons (sep p : str) (rest : list str) :
  rest <> [] -> join sep (p :: rest) = p ++ sep ++ join sep rest.
Proof. destruct rest; [contradiction|reflexivity]. Qed.

Lemma lines_from_not_nil (cur s : str) : lines_from cur s <> [].
Proof.
  revert cur. induction s as [|c s IH]; intros cur; simpl; [discriminate|].
  destruct (c =? LF); [discriminate|apply IH].
Qed.

Lemma join_lines_from (cur s : str) : join [LF] (lines_from cur s) = cur ++ s.
Proof.
  revert cur. induction s as [|c s IH]; intros cur.
  - simpl. rewrite app_nil_r. reflexivity.
  - cbn [lines_from]. destruct (Z.eqb_spec c LF) as [-> | Hc].
    + rewrite join_cons by apply lines_from_not_nil.
      rewrite IH. reflexivity.
    + rewrite IH, <- app_assoc. reflexivity.
Qed.

Lemma splitlines_from_app_LF (s cur rest : str) :
  forallb (fun c => negb (is_linebreak c) || (c =? LF)) s = true ->
  splitlines_from cur (s ++ LF :: rest)
  = lines_from cur s ++ splitlines_from [] rest.
Proof.
  revert cur. induction s as [|c s IH]; intros cur H.
  - reflexivity.
  - cbn [forallb] in H. apply andb_prop in H. destruct H as [Hc Hs].
    cbn [app splitlines_from lines_from].
    destruct (Z.eqb_spec c LF) as [-> | Hne].
    + cbn. rewrite IH by exact Hs. reflexivity.
    + rewrite orb_false_r in Hc. apply negb_true_iff in Hc. rewrite Hc.
      apply IH. exact Hs.
Qed.

Lemma splitlines_from_lines_from (s cur : str) :
  forallb (fun c => negb (is_linebreak c) || (c =? LF)) s = true ->
  (s = [] -> cur <> []) -> (s <> [] -> last s 0 <> LF) ->
  splitlines_from cur s = lines_from cur s.
Proof.
  revert cur. induction s as [|c s IH]; intros cur H Hnil Hlast.
  - simpl. destruct cur; [exfalso; apply Hnil; reflexivity|reflexivity].
  - cbn [forallb] in H. apply andb_prop in H. destruct H as [Hc Hs].
    assert (Hs' : s <> [] -> last s 0 <> LF).
    { intros Hne. destruct s; [contradiction|]. apply Hlast. discriminate. }
    cbn [splitlines_from lines_from].
    destruct (Z.eqb_spec c LF) as [-> | Hne].
    + cbn. f_equal. apply IH; [exact Hs| |exact Hs'].
      intros ->. exfalso. apply Hlast; [discriminate|reflexivity].
    + rewrite orb_false_r in Hc. apply negb_true_iff in Hc. rewrite Hc.
      apply IH; [exact Hs| |exact Hs'].
      intros _. destruct cur; discriminate.
Qed.

Lemma split_loop_plain (ls rest parts cur : list str) :
  forallb (fun line => negb (str_eqb (strip line) EN.BLOCK_SEPARATOR)) ls
  = true ->
  EN.split_loop (ls ++ rest) parts cur = EN.split_loop rest parts (cur ++ ls).
Proof.
  revert cur. induction ls as [|l ls IH]; intros cur H.
  - rewrite app_nil_r. reflexivity.
  - cbn [forallb] in H. apply andb_prop in H. destruct H as [Hl Hls].
    apply negb_true_iff in Hl. cbn [app EN.split_loop]. rewrite Hl.
    rewrite IH by exact Hls. rewrite <- app_assoc. reflexivity.
Qed.

Lemma split_loop_separator (rest parts cur : list str) :
  EN.split_loop (EN.BLOCK_SEPARATOR :: rest) parts cur
  = EN.split_loop rest (parts ++ [join [LF] cur]) [].
Proof. reflexivity. Qed.

Lemma join_then_sep (sep : str) (bs : list str) :
  bs <> [] ->
  join sep bs ++ sep = concat (map (fun b => b ++ sep) bs).
Proof.
  induction bs as [|b bs IH]; intros H; [contradiction|].
  destruct bs as [|b' bs].
  - simpl. rewrite app_nil_r. reflexivity.
  - rewrite join_cons by discriminate.
    rewrite <- !app_assoc. rewrite IH by discriminate.
    cbn [map concat]. rewrite <- !app_assoc. reflexivity.
Qed.

Lemma rstrip_nl_clean (b : str) :
  b <> [] -> last b 0 <> LF -> rstrip_nl b = b.
Proof.
  intros Hne Hlast. destruct (exists_last Hne) as (b' & x & ->).
  rewrite last_last in Hlast. unfold rstrip_nl.
  rewrite rev_app_distr. cbn [rev app lstrip_char].
  destruct (Z.eqb_spec x LF); [contradiction|].
  cbn [rev]. rewrite rev_involutive. reflexivity.
Qed.

Lemma clean_block_inv (b : str) :
  clean_block b = true ->
  b <> [] /\ last b 0 <> LF /\
  forallb (fun c => negb (is_linebreak c) || (c =? LF)) b = true /\
  forallb (fun line => negb (str_eqb (strip line) EN.BLOCK_SEPARATOR))
    (lines_from [] b) = true.
Proof.
  unfold clean_block. intros H.
  apply andb_prop in H. destruct H as [H H4].
  apply andb_prop in H. destruct H as [H H3].
  apply andb_prop in H. destruct H as [H1 H2].
  assert (Hne : b <> []) by (destruct b; [discriminate|discriminate]).
  assert (Hlast : last b 0 <> LF).
  { apply negb_true_iff in H2. apply Z.eqb_neq. exact H2. }
  repeat split; try assumption.
  unfold splitlines in H4.
  rewrite splitlines_from_lines_from in H4; auto.
Qed.

Lemma map_rstrip_nl_clean (bs : list str) :
  forallb clean_block bs = true -> map rstrip_nl bs = bs.
Proof.
  induction bs as [|b bs IH]; intros H; [reflexivity|].
  cbn [forallb] in H. apply andb_prop in H. destruct H as [Hb Hbs].
  apply clean_block_inv in Hb. destruct Hb as (Hne & Hlast & _).
  cbn [map]. rewrite rstrip_nl_clean, IH by assumption. reflexivity.
Qed.

Lemma splitlines_joined (bs : list str) :
  forallb clean_block bs = true ->
  splitlines
    (concat (map (fun b => b ++ [LF] ++ EN.BLOCK_SEPARATOR ++ [LF]) bs))
  = concat (map (fun b => lines_from [] b ++ [EN.BLOCK_SEPARATOR]) bs).
Proof.
  unfold splitlines. induction bs as [|b bs IH]; intros H; [reflexivity|].
  cbn [forallb] in H. apply andb_prop in H. destruct H as [Hb Hbs].
  apply clean_block_inv in Hb. destruct Hb as (_ & _ & Hlf & _).
  cbn [map concat]. rewrite <- !app_assoc. cbn [app] in IH |- *.
  rewrite splitlines_from_app_LF by exact Hlf.
  rewrite splitlines_from_app_LF by reflexivity.
  rewrite IH by exact Hbs. reflexivity.
Qed.

Lemma split_loop_joined (bs parts : list str) :
  forallb clean_block bs = true ->
  EN.split_loop
    (concat (map (fun b => lines_from [] b ++ [EN.BLOCK_SEPARATOR]) bs))
    parts []
  = (parts ++ bs, []).
Proof.
  revert parts. induction bs as [|b bs IH]; intros parts H.
  - simpl. rewrite app_nil_r. reflexivity.
  - cbn [forallb] in H. apply andb_prop in H. destruct H as [Hb Hbs].
    apply clean_block_inv in Hb. destruct Hb as (_ & _ & _ & Hsep).
    cbn [map concat]. rewrite <- app_assoc.
    rewrite split_loop_plain by exact Hsep.
    cbn [app]. rewrite split_loop_separator, join_lines_from.
    rewrite IH by exact Hbs. rewrite <- app_assoc. reflexivity.
Qed.

(** C7 (amended): for every non-empty list of blocks, each of them
    non-empty, not ending in a line break, with no line boundary other
    than the line break itself (no carriage return, form feed, ...), and
    with no line that equals the sentinel once surrounding whitespace is
    stripped, splitting the document produced by joining them returns
    exactly the original list. *)
Theorem split_join_clean_blocks (bs : list str) :
  bs <> [] ->
  forallb clean_block bs = true ->
  EN.split_txt_into_blocks (EN.make_txt_from_blocks bs) = bs.
Proof.
  intros Hne Hclean.
  unfold EN.make_txt_from_blocks, EN.split_txt_into_blocks.
  rewrite map_rstrip_nl_clean by exact Hclean.
  rewrite join_then_sep by exact Hne.
  rewrite splitlines_joined by exact Hclean.
  rewrite split_loop_joined by exact Hclean.
  cbn [app EN.is_empty negb orb].
  destruct bs as [|b0 bs0] eqn:Hbs; [contradiction|].
  rewrite <- Hbs in *. replace (EN.is_empty bs) with false by (subst; reflexivity).
  replace (str_eqb (last bs []) []) with false;
    [rewrite andb_false_r; reflexivity|].
  symmetry. apply not_true_is_false. intros Hl. apply str_eqb_eq in Hl.
  destruct (exists_last Hne) as (bs' & x & Hx).
  rewrite Hx, last_last in Hl. subst x.
  rewrite Hx, forallb_app in Hclean.
  apply andb_prop in Hclean. destruct Hclean as [_ Hc]. discriminate.
Qed.

Lemma split_join_clean_blocks_witness :
  let bs := [lit "Hello" ++ [LF] ++ lit "world"; lit "## #"; [LF; 0x41]] in
  bs <> [] /\ forallb clean_block bs = true /\
  EN.split_txt_into_blocks (EN.make_txt_from_blocks bs) = bs.
Proof.
  intros bs. split; [discriminate|]. split; [reflexivity|].
  apply (split_join_clean_blocks bs); [discriminate|reflexivity].
Defined.

(** C7 (counterexample): a non-empty block without any sentinel line, but
    ending in a line break, loses that line break; so does the empty list
    of blocks come back as one empty block, a block with a carriage return
    come back with a line break in its place, and a block whose line is
    the sentinel surrounded by spaces is taken for a separator. *)
Lemma split_join_not_identity :
  EN.split_txt_into_blocks (EN.make_txt_from_blocks [lit "a" ++ [LF]])
  = [lit "a"] /\
  EN.split_txt_into_blocks (EN.make_txt_from_blocks [lit "a" ++ [LF]])
  <> [lit "a" ++ [LF]] /\
  EN.split_txt_into_blocks (EN.make_txt_from_blocks []) = [[]] /\
  EN.split_txt_into_blocks
    (EN.make_txt_from_blocks [lit "a" ++ [0x0D] ++ lit "b"])
  = [lit "a" ++ [LF] ++ lit "b"] /\
  EN.split_txt_into_blocks (EN.make_txt_from_blocks [lit " ### "]) = [[]].
Proof.
  repeat split; try reflexivity. discriminate.
Qed.

(** ** Block bounds *)

Lemma Forall_slice {A : Type} (P : A -> Prop) (data : list A) (lo hi : Z) :
  Forall P data -> Forall P (slice data lo hi).
Proof.
  intros H. unfold slice.
  rewrite <- (firstn_skipn (Z.to_nat lo) data) in H.
  apply Forall_app in H. destruct H as [_ H].
  rewrite <- (firstn_skipn (Z.to_nat (hi - lo)) (skipn (Z.to_nat lo) data))
    in H.
  apply Forall_app in H. apply H.
Qed.

Lemma length_slice {A : Type} (data : list A) (lo hi : Z) :
  0 <= lo -> lo <= hi -> hi <= len data ->
  List.length (slice data lo hi) = Z.to_nat (hi - lo).
Proof.
  intros H0 H1 H2. unfold slice, len in *.
  rewrite length_firstn, length_skipn. lia.
Qed.

Lemma unpack_HH_range (four : bytes) (a b : Z) :
  octets four -> unpack_HH four = Ok (a, b) ->
  0 <= a <= 0xFFFF /\ 0 <= b <= 0xFFFF.
Proof.
  intros Ho H. unfold unpack_HH in H.
  destruct four as [|w [|x [|y [|z [|]]]]]; try discriminate.
  inversion H; subst.
  repeat match goal with
         | Hf : octets (_ :: _) |- _ => inversion Hf; subst; clear Hf
         | Hf : Forall _ (_ :: _) |- _ => inversion Hf; subst; clear Hf
         end.
  lia.
Qed.

Lemma read_table_entries (data : bytes) (count : nat) :
  octets data ->
  forall (off : Z) (entries : list Entry) (off' : Z),
  read_table count data off = Ok (entries, off') ->
  off <= off' /\
  Forall (fun e => 0 <= offset e <= 0xFFFF /\ 0 <= length_ e <= 0xFFFF)
    entries.
Proof.
  intros Ho. induction count as [|count IH]; intros off entries off' H;
    simpl in H.
  - inversion H. subst. split; [lia|constructor].
  - destruct (off + 4 >? len data); [discriminate|].
    unfold bind in H.
    destruct (unpack_HH (slice data off (off + 4))) as [[o l]|] eqn:Hu;
      [|discriminate].
    destruct (read_table count data (off + 4)) as [[es off2]|] eqn:Hr;
      [|discriminate].
    inversion H; subst.
    apply IH in Hr. destruct Hr as [Hoff HF].
    apply unpack_HH_range in Hu; [|apply Forall_slice; exact Ho].
    split; [lia|]. constructor; [exact Hu|exact HF].
Qed.

Lemma words_be_range (n : nat) :
  forall raw : bytes, (List.length raw <= n)%nat -> octets raw ->
  Forall (fun u => 0 <= u <= 0xFFFF) (words_be raw).
Proof.
  induction n as [|n IH]; intros raw Hn Ho.
  - destruct raw; [constructor|simpl in Hn; lia].
  - destruct raw as [|hi [|lo rest]]; try constructor.
    + inversion Ho as [|? ? Hhi Ho']; subst.
      inversion Ho' as [|? ? Hlo Ho'']; subst. lia.
    + apply IH.
      * simpl in Hn. lia.
      * inversion Ho as [|? ? Hhi Ho']; subst.
        inversion Ho' as [|? ? Hlo Ho'']; subst. exact Ho''.
Qed.

Lemma en_decode_units_total (units : list Z) (tag : bool) :
  Forall (fun u => 0 <= u <= 0xFFFF) units ->
  exists t, EN._decode_units_to_text units tag = Ok t.
Proof.
  induction 1 as [|u units Hu _ [t IH]]; simpl; [eauto|].
  assert (Hp : exists p, EN.decode_unit u tag = Ok p).
  { unfold EN.decode_unit, EN.NEWLINE_000A, EN.NEWLINE_8016, chr.
    zcases; cbn [andb bind]; eauto; zcases; cbn [andb bind]; eauto. }
  destruct Hp as [p ->]. rewrite IH. simpl. eauto.
Qed.

Lemma en_bounds_check (data : bytes) (text_start : Z) (e : Entry) :
  0 <= length_ e ->
  ((text_start <=? text_start + offset e * 2) &&
   (text_start + offset e * 2 <=? text_start + (offset e + length_ e) * 2) &&
   (text_start + (offset e + length_ e) * 2 <=? len data)) = true
  <-> in_bounds data text_start e.
Proof.
  intros Hl. unfold in_bounds.
  pose proof (Z.div_mod (len data - text_start) 2 ltac:(lia)) as Hd.
  pose proof (Z.mod_pos_bound (len data - text_start) 2 ltac:(lia)) as Hm.
  rewrite !andb_true_iff, !Z.leb_le. lia.
Qed.

Lemma en_block_in_bounds_decodes (data : bytes) (text_start : Z) (e : Entry)
  (tag : bool) :
  octets data -> 0 <= text_start -> 0 <= length_ e ->
  in_bounds data text_start e ->
  exists units block,
    units_of_raw
      (slice data (text_start + offset e * 2)
         (text_start + (offset e + length_ e) * 2)) = Ok units /\
    len units = length_ e /\
    EN._decode_units_to_text units tag = Ok block.
Proof.
  intros Ho Hts Hl Hb.
  set (raw := slice data _ _).
  assert (Hlen : List.length raw = (2 * Z.to_nat (length_ e))%nat).
  { apply en_bounds_check in Hb; [|exact Hl].
    rewrite !andb_true_iff, !Z.leb_le in Hb.
    unfold raw. rewrite length_slice by lia. lia. }
  assert (Hraw : octets raw) by (apply Forall_slice; exact Ho).
  assert (Hw : len (words_be raw) = length_ e).
  { clear - Hlen Hl. revert Hlen. generalize (length_ e) Hl. clear Hl.
    assert (G : forall n (r : bytes), List.length r = (2 * n)%nat ->
                                      List.length (words_be r) = n).
    { induction n as [|n IH]; intros r Hr.
      - destruct r; [reflexivity|discriminate].
      - destruct r as [|hi [|lo r]]; simpl in Hr; try lia.
        cbn [words_be List.length]. f_equal. apply IH. lia. }
    intros l Hl Hlen. unfold len. rewrite (G _ _ Hlen). lia. }
  assert (Hu : units_of_raw raw = Ok (words_be raw)).
  { unfold units_of_raw, unpack_units.
    rewrite Hlen, Nat.even_mul. destruct raw; reflexivity. }
  destruct (en_decode_units_total (words_be raw) tag) as [block Hblock].
  { apply (words_be_range (List.length raw)); [lia|exact Hraw]. }
  exists (words_be raw), block. auto.
Qed.

Lemma en_decode_entries_rejects (data : bytes) (text_start : Z) (tag : bool) :
  octets data -> 0 <= text_start ->
  forall entries : list Entry,
  Forall (fun e => 0 <= length_ e) entries ->
  Exists (fun e => ~ in_bounds data text_start e) entries ->
  EN.decode_entries entries data text_start tag
  = Err (ValueError "Invalid block offset/length").
Proof.
  intros Ho Hts. induction entries as [|e entries IH]; intros Hl Hex.
  - inversion Hex.
  - inversion Hl as [|? ? Hle Hl']; subst.
    cbn [EN.decode_entries]. cbv zeta.
    destruct ((text_start <=? text_start + offset e * 2) &&
              (text_start + offset e * 2
               <=? text_start + (offset e + length_ e) * 2) &&
              (text_start + (offset e + length_ e) * 2 <=? len data))
      eqn:Hcheck; [|reflexivity].
    apply en_bounds_check in Hcheck; [|exact Hle].
    inversion Hex as [? ? Hbad|? ? Hrest]; subst; [contradiction|].
    destruct (en_block_in_bounds_decodes data text_start e tag Ho Hts Hle
                Hcheck) as (units & block & -> & _ & Hblock).
    cbn [negb bind]. rewrite Hblock. cbn [bind].
    rewrite (IH Hl' Hrest). reflexivity.
Qed.

Lemma en_decode_entries_accepts (data : bytes) (text_start : Z) (tag : bool) :
  octets data -> 0 <= text_start ->
  forall entries : list Entry,
  Forall (fun e => 0 <= length_ e) entries ->
  Forall (in_bounds data text_start) entries ->
  exists blocks,
    EN.decode_entries entries data text_start tag = Ok blocks /\
    List.length blocks = List.length entries.
Proof.
  intros Ho Hts. induction entries as [|e entries IH]; intros Hl Hin.
  - exists []. split; reflexivity.
  - inversion Hl as [|? ? Hle Hl']; subst.
    inversion Hin as [|? ? Hb Hin']; subst.
    destruct (IH Hl' Hin') as (blocks & Hblocks & Hlen).
    destruct (en_block_in_bounds_decodes data text_start e tag Ho Hts Hle Hb)
      as (units & block & Hu & _ & Hblock).
    cbn [EN.decode_entries]. cbv zeta.
    rewrite (proj2 (en_bounds_check data text_start e Hle) Hb).
    cbn [negb]. rewrite Hu. cbn [bind]. rewrite Hblock. cbn [bind].
    rewrite Hblocks. cbn [bind].
    exists (block :: blocks). split; [reflexivity|simpl; lia].
Qed.

Lemma read_header_entries (data : bytes) (entries : list Entry)
  (text_start : Z) :
  octets data ->
  read_msg_entries_and_textstart data = Ok (entries, text_start) ->
  0 <= text_start /\ Forall (fun e => 0 <= length_ e) entries.
Proof.
  intros Ho H. unfold read_msg_entries_and_textstart, bind in H.
  destruct (len data <? 4); [discriminate|].
  destruct (unpack_HH (slice data 0 4)) as [[size count]|]; [|discriminate].
  apply read_table_entries in H; [|exact Ho].
  destruct H as [Hoff HF]. split; [lia|].
  eapply Forall_impl; [|exact HF]. cbv beta. intros e He. lia.
Qed.

(** X5: the decoder of duomsgEN.pyw checks every block against the text
    area. Once the header and the block table are read, a table entry out
    of the text area makes the whole decoding fail with "Invalid block
    offset/length", and a table with all entries in bounds gives one
    decoded block per entry. *)
Lemma en_decode_checks_block_bounds (data : bytes) (tag_newlines : bool)
  (entries : list Entry) (text_start : Z) :
  octets data ->
  read_msg_entries_and_textstart data = Ok (entries, text_start) ->
  (Exists (fun e => ~ in_bounds data text_start e) entries ->
   EN.decode_msg_to_blocks data tag_newlines
   = Err (ValueError "Invalid block offset/length")) /\
  (Forall (in_bounds data text_start) entries ->
   exists blocks,
     EN.decode_msg_to_blocks data tag_newlines = Ok blocks /\
     List.length blocks = List.length entries).
Proof.
  intros Ho Hr. destruct (read_header_entries _ _ _ Ho Hr) as [Hts Hl].
  unfold EN.decode_msg_to_blocks. rewrite Hr. cbn [bind].
  split; intros H.
  - apply en_decode_entries_rejects; assumption.
  - apply en_decode_entries_accepts; assumption.
Qed.

(** C8 (failing input): a container whose only block is declared two code
    units long while the text area holds one. The decoder of duomsgEN.pyw
    rejects it; the three decoders of duomsgJP slice without a test and
    return the block cut to the one unit that is there. *)
Theorem jp_decoders_truncate_out_of_bounds_block :
  read_msg_entries_and_textstart short_container = Ok ([mkEntry 0 2], 8) /\
  ~ in_bounds short_container 8 (mkEntry 0 2) /\
  EN.decode_msg_to_blocks short_container true
  = Err (ValueError "Invalid block offset/length") /\
  JP.decode_msg_to_blocks_english short_container true = Ok [lit "H"] /\
  JP._read_all_blocks_units short_container = Ok [[0x48]] /\
  JP.decode_msg_to_blocks_with_map short_container [(0x48, lit "X")] true
  = Ok [lit "X"].
Proof.
  split; [reflexivity|]. split.
  - unfold in_bounds. cbn. intros [_ H]. lia.
  - repeat split; reflexivity.
Qed.

(** ** Mapped transcoder (duomsgJP) *)

(** C3 (counterexample): the unit 0x41 is no newline code and no key of
    the (empty) table; the Latin rule reads it as the printable 'A', yet
    the mapped decoder emits the placeholder, where the decoder without
    mapping of the same file emits 'A'; so it is for a whole container
    of this one unit. *)
Lemma raw_ascii_unit_gets_placeholder :
  JP._is_ascii_printable (latin_rule 0x41) = true /\
  JP.decode_unit_with_map 0x41 [] true = lit "<U+0041>" /\
  JP.decode_unit_with_map 0x41 [] true <> [latin_rule 0x41] /\
  JP.decode_msg_to_blocks_with_map [0; 10; 0; 1; 0; 0; 0; 1; 0; 0x41] [] true
  = Ok [lit "<U+0041>"] /\
  JP.decode_msg_to_blocks_english [0; 10; 0; 1; 0; 0; 0; 1; 0; 0x41] true
  = Ok [lit "A"].
Proof.
  repeat split; try reflexivity. discriminate.
Qed.

(** C3 (amended): in [decode_msg_to_blocks_with_map], a code unit that is
    neither a newline code nor a key of the unit->glyph table decodes to the
    character at value - 0x80 when value >= 0x80 and that character is
    ASCII-printable (0x20..0x7E, or tab), and to the visible placeholder
    <U+XXXX> in every other case, every value below 0x80 included; either
    way it contributes at least one character, so no code unit is silently
    dropped. *)
Theorem unmapped_unit_decoding (u : Z) (unit_to_char : dict Z str)
  (tag_newlines : bool) :
  u <> JP.NEWLINE_000A -> u <> JP.NEWLINE_8016 ->
  dict_get Z.eqb u unit_to_char = None ->
  (0x80 <= u -> JP._is_ascii_printable (u - 0x80) = true ->
   JP.decode_unit_with_map u unit_to_char tag_newlines = [u - 0x80]) /\
  (u < 0x80 \/ JP._is_ascii_printable (u - 0x80) = false ->
   JP.decode_unit_with_map u unit_to_char tag_newlines = placeholder u) /\
  JP.decode_unit_with_map u unit_to_char tag_newlines <> [].
Proof.
  intros Ha H8 Hget. unfold JP.decode_unit_with_map.
  destruct (Z.eqb_spec u JP.NEWLINE_000A); [contradiction|].
  destruct (Z.eqb_spec u JP.NEWLINE_8016); [contradiction|].
  rewrite Hget. rewrite Z.geb_leb.
  split; [|split].
  - intros Hu Hp. rewrite Hp. destruct (Z.leb_spec 0x80 u); [reflexivity|lia].
  - intros [Hu | Hp].
    + destruct (Z.leb_spec 0x80 u); [lia|reflexivity].
    + rewrite Hp, andb_false_r. reflexivity.
  - destruct ((0x80 <=? u) && JP._is_ascii_printable (u - 0x80));
      discriminate.
Qed.

Lemma unmapped_unit_decoding_witness :
  0xE1 <> JP.NEWLINE_000A /\ 0xE1 <> JP.NEWLINE_8016 /\
  dict_get Z.eqb 0xE1 [(0x10D, lit "X")] = None /\
  (0x80 <= 0xE1 -> JP._is_ascii_printable (0xE1 - 0x80) = true ->
   JP.decode_unit_with_map 0xE1 [(0x10D, lit "X")] true = [0xE1 - 0x80]) /\
  (0xE1 < 0x80 \/ JP._is_ascii_printable (0xE1 - 0x80) = false ->
   JP.decode_unit_with_map 0xE1 [(0x10D, lit "X")] true = placeholder 0xE1) /\
  JP.decode_unit_with_map 0xE1 [(0x10D, lit "X")] true <> [].
Proof.
  split; [discriminate|]. split; [discriminate|]. split; [reflexivity|].
  apply (unmapped_unit_decoding 0xE1 [(0x10D, lit "X")] true);
    [discriminate|discriminate|reflexivity].
Defined.

(** The text of a block is the concatenation, in order, of what each of
    its code units decodes to. *)
Lemma decode_units_with_map_concat (units : list Z)
  (unit_to_char : dict Z str) (tag_newlines : bool) :
  JP.decode_units_with_map units unit_to_char tag_newlines
  = concat (map (fun u => JP.decode_unit_with_map u unit_to_char tag_newlines)
              units).
Proof.
  induction units as [|u units IH]; simpl; [reflexivity|].
  rewrite IH. reflexivity.
Qed.

(** The bound on the iterations of the scan is never reached: any bound
    that is at least the length of the block gives the same result. *)
Lemma encode_block_loop_fuel (char_to_unit : dict str Z) (d : Z)
  (policy : string) (f1 : nat) :
  forall (f2 : nat) (s : str),
  (List.length s <= f1)%nat -> (List.length s <= f2)%nat ->
  JP.encode_block_loop f1 s char_to_unit d policy
  = JP.encode_block_loop f2 s char_to_unit d policy.
Proof.
  induction f1 as [|f1 IH]; intros f2 s H1 H2.
  - destruct s; [|simpl in H1; lia]. destruct f2; reflexivity.
  - destruct s as [|ch rest]; [destruct f2; reflexivity|].
    destruct f2 as [|f2]; [simpl in H2; lia|].
    cbn [List.length] in H1, H2.
    assert (Hk : forall k,
               JP.encode_block_loop f1 (skipn k (ch :: rest)) char_to_unit d
                 policy
               = JP.encode_block_loop f2 (skipn k (ch :: rest)) char_to_unit
                   d policy \/ k = O).
    { intros [|k]; [right; reflexivity|left].
      apply IH; rewrite length_skipn; cbn [List.length]; lia. }
    assert (Hr : JP.encode_block_loop f1 rest char_to_unit d policy
                 = JP.encode_block_loop f2 rest char_to_unit d policy).
    { apply IH; lia. }
    destruct (Hk (List.length JP.NL_TAG_8016 + 1)%nat) as [H8 | H8];
      [|discriminate].
    destruct (Hk (List.length JP.NL_TAG_000A + 1)%nat) as [HA | HA];
      [|discriminate].
    cbn [JP.encode_block_loop]. rewrite H8, HA, Hr. reflexivity.
Qed.

(** C4 (counterexample): 'A' is in no newline tag, is no line break and
    is absent from the (empty) table; the Latin rule would store its raw
    code point 0x41, but the encoder applies the policy: it raises under
    "error", stores '?' under "placeholder" and drops it under "skip". *)
Lemma uppercase_char_meets_policy :
  plain_char_at (lit "A") = true /\
  latin_unit 0x41 = 0x41 /\
  JP.encode_block (lit "A") [] JP.DEFAULT_ENCODE_NEWLINE "error"
  = Err (ValueError "Unknown glyph for encoding (no mapping)") /\
  JP.encode_blocks_with_map [lit "A"] [] JP.DEFAULT_ENCODE_NEWLINE
    JP.ENCODE_UNKNOWN_POLICY
  = Err (ValueError "Unknown glyph for encoding (no mapping)") /\
  JP.encode_block (lit "A") [] JP.DEFAULT_ENCODE_NEWLINE "placeholder"
  = Ok [0x3F] /\
  JP.encode_block (lit "A") [] JP.DEFAULT_ENCODE_NEWLINE "skip" = Ok [].
Proof. repeat split; reflexivity. Qed.

(** C4 (amended): in [encode_blocks_with_map], for a character that is not
    part of a newline tag, is not a bare line break and is absent from the
    glyph->unit table: a lowercase letter a..z becomes codepoint + 0x80
    whatever the policy; every other character is handed to the
    unknown-glyph policy: "error" raises and the whole block fails,
    "placeholder" stores 0x3F ('?'), "skip" drops the character; the raw
    code point is stored only under a policy value that is none of the
    three. *)
Theorem unmapped_char_encoding (ch : Z) (rest : str)
  (char_to_unit : dict str Z) (default_newline : Z) (policy : string) :
  plain_char_at (ch :: rest) = true ->
  dict_get str_eqb [ch] char_to_unit = None ->
  let continue_with (emitted : list Z) : result (list Z) :=
    units <- JP.encode_block rest char_to_unit default_newline policy ;;
    Ok (emitted ++ units) in
  JP.encode_block (ch :: rest) char_to_unit default_newline policy
  = if (0x61 <=? ch) && (ch <=? 0x7A) then continue_with [ch + 0x80]
    else if String.eqb policy "error" then
      Err (ValueError "Unknown glyph for encoding (no mapping)")
    else if String.eqb policy "placeholder" then continue_with [0x3F]
    else if String.eqb policy "skip" then continue_with []
    else continue_with [ch].
Proof.
  intros Hplain Hget. cbv zeta.
  unfold plain_char_at in Hplain.
  apply andb_prop in Hplain. destruct Hplain as [Hplain Hlf].
  apply andb_prop in Hplain. destruct Hplain as [H8 Ha].
  apply negb_true_iff in H8, Ha, Hlf.
  unfold JP.encode_block. cbn [List.length JP.encode_block_loop].
  rewrite H8, Ha, Hlf, Hget. cbn [JP.TAG_NEWLINES andb].
  fold (JP.encode_block rest char_to_unit default_newline policy).
  unfold ord.
  destruct (JP.encode_block rest char_to_unit default_newline policy);
    repeat match goal with
           | |- context [if ?b then _ else _] => destruct b
           end; reflexivity.
Qed.

Lemma unmapped_char_encoding_witness :
  plain_char_at (lit "Ab") = true /\
  dict_get str_eqb (lit "A") [(lit "b", 0x10D)] = None /\
  JP.encode_block (lit "Ab") [(lit "b", 0x10D)] 0x8016 "placeholder"
  = Ok [0x3F; 0x10D].
Proof.
  split; [reflexivity|]. split; [reflexivity|].
  exact (unmapped_char_encoding 0x41 (lit "b") [(lit "b", 0x10D)] 0x8016
           "placeholder" eq_refl eq_refl).
Defined.

(** X21: a block that cannot be encoded fails the whole operation. If
    [encode_blocks_with_map]'s loop raises on one of the blocks, wherever
    it stands in the list, the function raises and no container is
    produced, not even for the blocks before it. *)
Lemma encode_blocks_with_map_fails (blocks : list str)
  (char_to_unit : dict str Z) (default_newline : Z) (policy : string) :
  Exists (fun b => exists e,
              JP.encode_block b char_to_unit default_newline policy = Err e)
    blocks ->
  exists e,
    JP.encode_blocks_with_map blocks char_to_unit default_newline policy
    = Err e.
Proof.
  intros H. unfold JP.encode_blocks_with_map.
  assert (G : forall us es, exists e,
             JP.encode_blocks_loop blocks char_to_unit default_newline policy
               us es = Err e).
  { induction H as [b bs [e He]|b bs _ IH]; intros us es; simpl.
    - rewrite He. simpl. eauto.
    - destruct (JP.encode_block b char_to_unit default_newline policy);
        simpl; [apply IH|eauto]. }
  destruct (G [] []) as [e ->]. simpl. eauto.
Qed.

(** ** Training and the mapping file (duomsgJP) *)

Section TrainingFiles.

Variable decode_utf8 : bytes -> result str.
Variable dump_json : JP.MappingArtifact -> bytes.

(** [_menu_train_mapping] writes the mapping file when training returns
    its two tables, and leaves every file as it was when training
    raises. *)
Lemma menu_training_all_or_nothing (msg txt : Path) (w : JP.World) :
  match JP.learn_mapping_from_pair decode_utf8 (JP.files w) msg txt with
  | Ok (unit_to_char, char_to_unit) =>
      JP.files (JP._menu_train_mapping decode_utf8 dump_json msg txt w)
      = write_bytes (JP.files w) (JP.map_path_for msg)
          (dump_json (JP.mkArtifact unit_to_char char_to_unit msg txt
                        (len unit_to_char)))
  | Err _ =>
      JP.files (JP._menu_train_mapping decode_utf8 dump_json msg txt w)
      = JP.files w
  end.
Proof.
  unfold JP._menu_train_mapping.
  destruct (JP.learn_mapping_from_pair decode_utf8 (JP.files w) msg txt)
    as [[u2c c2u]|e]; reflexivity.
Qed.

(** [auto_train_if_possible] leaves every file as it was, unless it
    trained the pair of its path with success, and then the one file it
    writes is the mapping file of that pair. *)
Lemma auto_training_all_or_nothing (auto_train : bool) (path : Path)
  (w : JP.World) :
  let w' :=
    snd (JP.auto_train_if_possible decode_utf8 dump_json auto_train path w)
  in
  JP.files w' = JP.files w \/
  exists msg txt unit_to_char char_to_unit,
    JP.training_pair path = Some (msg, txt) /\
    JP.learn_mapping_from_pair decode_utf8 (JP.files w) msg txt
    = Ok (unit_to_char, char_to_unit) /\
    JP.files w'
    = write_bytes (JP.files w) (JP.map_path_for msg)
        (dump_json (JP.mkArtifact unit_to_char char_to_unit msg txt
                      (len unit_to_char))).
Proof.
  unfold JP.auto_train_if_possible.
  destruct auto_train; cbn [negb]; [|left; reflexivity].
  destruct (JP.training_pair path) as [[msg txt]|] eqn:Hp;
    [|left; reflexivity].
  destruct (negb (exists_ (JP.files w) msg) ||
            negb (exists_ (JP.files w) txt)); [left; reflexivity|].
  destruct (exists_ (JP.files w) (JP.map_path_for msg));
    [left; reflexivity|].
  destruct (JP.learn_mapping_from_pair decode_utf8 (JP.files w) msg txt)
    as [[u2c c2u]|e] eqn:Hl; [|left; reflexivity].
  right. exists msg, txt, u2c, c2u.
  split; [reflexivity|split; [exact Hl|reflexivity]].
Qed.

(** C6: when the binary parses into a number of blocks that differs from
    the number of blocks of the reference document, training stops with
    the block-count error, which is raised at the comparison of the two
    counts, before the alignment loop; neither [_menu_train_mapping] nor
    [auto_train_if_possible] writes a file then. For any pair, training
    writes the one mapping file when it succeeds and no file when it
    fails. *)
Theorem block_count_mismatch_writes_nothing (w : JP.World)
  (msg txt : Path) (data : bytes) (msg_blocks_units : list (list Z))
  (txt_text : str) :
  JP.files w msg = Some data ->
  JP._read_all_blocks_units data = Ok msg_blocks_units ->
  JP.read_text decode_utf8 (JP.files w) txt = Ok txt_text ->
  len msg_blocks_units <> len (JP.split_txt_into_blocks txt_text) ->
  JP.learn_mapping data txt_text
  = Err (ValueError "MSG/TXT block counts differ; cannot train mapping.")
  /\
  JP.learn_mapping_from_pair decode_utf8 (JP.files w) msg txt
  = Err (ValueError "MSG/TXT block counts differ; cannot train mapping.")
  /\
  JP.files (JP._menu_train_mapping decode_utf8 dump_json msg txt w)
  = JP.files w /\
  (forall (auto_train : bool) (path : Path),
      JP.training_pair path = Some (msg, txt) ->
      JP.files
        (snd (JP.auto_train_if_possible decode_utf8 dump_json auto_train
                path w))
      = JP.files w) /\
  (forall (msg' txt' : Path) (w' : JP.World),
      match JP.learn_mapping_from_pair decode_utf8 (JP.files w') msg' txt'
      with
      | Ok (unit_to_char, char_to_unit) =>
          JP.files
            (JP._menu_train_mapping decode_utf8 dump_json msg' txt' w')
          = write_bytes (JP.files w') (JP.map_path_for msg')
              (dump_json (JP.mkArtifact unit_to_char char_to_unit msg' txt'
                            (len unit_to_char)))
      | Err _ =>
          JP.files
            (JP._menu_train_mapping decode_utf8 dump_json msg' txt' w')
          = JP.files w'
      end).
Proof.
  intros Hfile Hunits Htxt Hcount.
  assert (Hlearn :
            JP.learn_mapping_from_pair decode_utf8 (JP.files w) msg txt
            = Err (ValueError
                     "MSG/TXT block counts differ; cannot train mapping.")).
  { unfold JP.learn_mapping_from_pair, read_bytes.
    rewrite Hfile. cbn [bind]. rewrite Hunits. cbn [bind].
    rewrite Htxt. cbn [bind].
    destruct (Z.eqb_spec (len msg_blocks_units)
                (len (JP.split_txt_into_blocks txt_text)));
      [contradiction|reflexivity]. }
  split; [|split; [exact Hlearn|split; [|split]]].
  - unfold JP.learn_mapping. rewrite Hunits. cbn [bind].
    destruct (Z.eqb_spec (len msg_blocks_units)
                (len (JP.split_txt_into_blocks txt_text)));
      [contradiction|reflexivity].
  - pose proof (menu_training_all_or_nothing msg txt w) as H.
    rewrite Hlearn in H. exact H.
  - intros auto_train path Hpair.
    destruct (auto_training_all_or_nothing auto_train path w)
      as [H | (m & t & u2c & c2u & Hp & Hl & _)]; [exact H|].
    rewrite Hpair in Hp. inversion Hp; subst m t.
    rewrite Hlearn in Hl. discriminate.
  - intros msg' txt' w'. apply menu_training_all_or_nothing.
Qed.

End TrainingFiles.

Lemma block_count_mismatch_writes_nothing_witness :
  let msg := mkPath "MSG01" ".MSG" in
  let txt := mkPath "MSG01" ".txt" in
  JP._read_all_blocks_units three_block_msg = Ok [[0x41]; [0x42]; [0x43]] /\
  JP.split_txt_into_blocks two_block_txt = [lit "A"; lit "B"] /\
  JP.training_pair msg = Some (msg, txt) /\
  JP.learn_mapping_from_pair ascii_decode (JP.files mismatch_world) msg txt
  = Err (ValueError "MSG/TXT block counts differ; cannot train mapping.") /\
  JP.files
    (snd (JP.auto_train_if_possible ascii_decode count_dump JP.AUTO_TRAIN_JP
            msg mismatch_world))
  = JP.files mismatch_world.
Proof.
  intros msg txt.
  split; [reflexivity|]. split; [reflexivity|]. split; [reflexivity|].
  destruct (block_count_mismatch_writes_nothing ascii_decode count_dump
              mismatch_world msg txt three_block_msg
              [[0x41]; [0x42]; [0x43]] two_block_txt
              eq_refl eq_refl eq_refl ltac:(discriminate))
    as (_ & Hlearn & _ & Hauto & _).
  split; [exact Hlearn|].
  exact (Hauto JP.AUTO_TRAIN_JP msg eq_refl).
Defined.

(** ** The glyph mapping trainer (duomsgJP) *)

(** *** Counters as folds of events *)

Lemma build_app (e1 e2 : list event) (d : dict Z (dict Z Z)) :
  build (e1 ++ e2) d = build e2 (build e1 d).
Proof. unfold build. apply fold_left_app. Qed.

Lemma align_block_events (ub : list Z) :
  forall (ref : str) (counts : dict Z (dict Z Z)),
  JP.align_block ub ref counts
  = build (observation_events (block_observations ub ref)) counts.
Proof.
  induction ub as [|u ub IH]; intros ref counts; [reflexivity|].
  cbn [JP.align_block block_observations].
  destruct ((u =? JP.NEWLINE_000A) || (u =? JP.NEWLINE_8016)).
  - destruct ref as [|c ref]; [apply IH|]. destruct (c =? LF); apply IH.
  - destruct (lstrip_char LF ref) as [|ch ref']; [reflexivity|].
    rewrite IH. reflexivity.
Qed.

Lemma align_blocks_events (pairs : list (list Z * str)) :
  forall counts : dict Z (dict Z Z),
  JP.align_blocks pairs counts
  = build (observation_events (observations pairs)) counts.
Proof.
  induction pairs as [|[ub tb] pairs IH]; intros counts; [reflexivity|].
  cbn [JP.align_blocks observations]. rewrite IH, align_block_events.
  unfold observation_events. rewrite map_app. rewrite build_app. reflexivity.
Qed.

Lemma add_reversed_events (u : Z) (ctr : dict Z Z) :
  forall d : dict Z (dict Z Z),
  JP.add_reversed u ctr d = build (counter_events u ctr) d.
Proof.
  induction ctr as [|[ch n] ctr IH]; intros d; [reflexivity|].
  cbn [JP.add_reversed counter_events]. rewrite IH. reflexivity.
Qed.

Lemma reverse_counts_events (counts : dict Z (dict Z Z)) :
  forall d : dict Z (dict Z Z),
  JP.reverse_counts counts d = build (reversed_events counts) d.
Proof.
  induction counts as [|[u ctr] counts IH]; intros d; [reflexivity|].
  cbn [JP.reverse_counts reversed_events].
  rewrite IH, add_reversed_events, build_app. reflexivity.
Qed.

(** *** One update *)

Lemma dict_get_counter_add (k n : Z) (c : dict Z Z) (k' : Z) :
  dict_get Z.eqb k' (counter_add k n c)
  = if k' =? k then Some (cget k c + n) else dict_get Z.eqb k' c.
Proof.
  unfold cget. induction c as [|[k0 m] c IH]; cbn [counter_add dict_get].
  - destruct (Z.eqb_spec k' k); reflexivity.
  - destruct (Z.eqb_spec k k0) as [-> | Hk]; cbn [dict_get].
    + destruct (Z.eqb_spec k' k0); reflexivity.
    + rewrite IH.
      destruct (Z.eqb_spec k' k0) as [-> | Hk'];
        destruct (Z.eqb_spec k0 k); try congruence;
        destruct (Z.eqb_spec k' k); try congruence.
Qed.

Lemma keys_counter_add (k n : Z) (c : dict Z Z) :
  map fst (counter_add k n c) = add_key (map fst c) k.
Proof.
  unfold add_key. induction c as [|[k0 m] c IH]; [reflexivity|].
  cbn [counter_add map fst existsb].
  destruct (Z.eqb_spec k k0) as [-> | Hk]; [reflexivity|].
  cbn [map fst orb]. rewrite IH.
  destruct (existsb (Z.eqb k) (map fst c)); reflexivity.
Qed.

Lemma dict_get_nested_add (a b n : Z) (d : dict Z (dict Z Z)) (a' : Z) :
  dict_get Z.eqb a' (nested_add a b n d)
  = if a' =? a then
      Some (match dict_get Z.eqb a d with
            | Some c => counter_add b n c
            | None => [(b, n)]
            end)
    else dict_get Z.eqb a' d.
Proof.
  induction d as [|[a0 c] d IH]; cbn [nested_add dict_get].
  - destruct (Z.eqb_spec a' a); reflexivity.
  - destruct (Z.eqb_spec a a0) as [-> | Ha]; cbn [dict_get].
    + destruct (Z.eqb_spec a' a0); reflexivity.
    + rewrite IH.
      destruct (Z.eqb_spec a' a0) as [-> | Ha'];
        destruct (Z.eqb_spec a0 a); try congruence;
        destruct (Z.eqb_spec a' a); try congruence.
Qed.

Lemma keys_nested_add (a b n : Z) (d : dict Z (dict Z Z)) :
  map fst (nested_add a b n d) = add_key (map fst d) a.
Proof.
  unfold add_key. induction d as [|[a0 c] d IH]; [reflexivity|].
  cbn [nested_add map fst existsb].
  destruct (Z.eqb_spec a a0) as [-> | Ha]; [reflexivity|].
  cbn [map fst orb]. rewrite IH.
  destruct (existsb (Z.eqb a) (map fst d)); reflexivity.
Qed.

Lemma cnt_nested_add (a b n : Z) (d : dict Z (dict Z Z)) (a' b' : Z) :
  cnt (nested_add a b n d) a' b'
  = cnt d a' b' + (if (a =? a') && (b =? b') then n else 0).
Proof.
  unfold cnt. rewrite dict_get_nested_add.
  destruct (Z.eqb_spec a' a) as [-> | Ha].
  - rewrite Z.eqb_refl. cbn [andb].
    destruct (dict_get Z.eqb a d) as [c|].
    + unfold cget at 1. rewrite dict_get_counter_add.
      destruct (Z.eqb_spec b' b) as [-> | Hb].
      * rewrite Z.eqb_refl. reflexivity.
      * destruct (Z.eqb_spec b b'); [congruence|]. unfold cget. lia.
    + unfold cget. cbn [dict_get].
      destruct (Z.eqb_spec b' b) as [-> | Hb].
      * rewrite Z.eqb_refl. reflexivity.
      * destruct (Z.eqb_spec b b'); [congruence|]. reflexivity.
  - destruct (Z.eqb_spec a a'); [congruence|]. cbn [andb]. lia.
Qed.

Lemma keys_of_nested_add (a b n : Z) (d : dict Z (dict Z Z)) (a' : Z) :
  keys_of a' (nested_add a b n d)
  = if a' =? a then add_key (keys_of a d) b else keys_of a' d.
Proof.
  unfold keys_of. rewrite dict_get_nested_add.
  destruct (Z.eqb_spec a' a) as [-> | Ha]; [|reflexivity].
  destruct (dict_get Z.eqb a d) as [c|]; [apply keys_counter_add|reflexivity].
Qed.

(** *** A whole fold *)

Lemma cnt_build (events : list event) :
  forall (d : dict Z (dict Z Z)) (a b : Z),
  cnt (build events d) a b = cnt d a b + weight events a b.
Proof.
  induction events as [|[[k1 k2] n] events IH]; intros d a b.
  - cbn. lia.
  - cbn [build fold_left weight]. fold (build events (apply_event d (k1, k2, n))).
    rewrite IH. unfold apply_event. cbn [fst snd].
    rewrite cnt_nested_add. lia.
Qed.

Lemma keys_build (events : list event) :
  forall d : dict Z (dict Z Z),
  map fst (build events d)
  = fold_left add_key (map (fun e => fst (fst e)) events) (map fst d).
Proof.
  induction events as [|[[k1 k2] n] events IH]; intros d; [reflexivity|].
  cbn [build fold_left map]. fold (build events (apply_event d (k1, k2, n))).
  rewrite IH. unfold apply_event. cbn [fst snd].
  rewrite keys_nested_add. reflexivity.
Qed.

Lemma keys_of_build (events : list event) :
  forall (d : dict Z (dict Z Z)) (a : Z),
  keys_of a (build events d)
  = fold_left add_key (seconds_of a events) (keys_of a d).
Proof.
  induction events as [|[[k1 k2] n] events IH]; intros d a; [reflexivity|].
  cbn [build fold_left]. fold (build events (apply_event d (k1, k2, n))).
  rewrite IH. unfold apply_event, seconds_of. cbn [fst snd filter].
  rewrite keys_of_nested_add.
  destruct (Z.eqb_spec k1 a) as [-> | Hk].
  - rewrite Z.eqb_refl. reflexivity.
  - destruct (Z.eqb_spec a k1); [congruence|]. reflexivity.
Qed.

(** *** Order of first encounter *)

Lemma first_of_app (x y : Z) (l1 l2 : list Z) :
  first_of x y (l1 ++ l2)
  = if mem2 x y l1 then first_of x y l1 else first_of x y l2.
Proof.
  unfold mem2. induction l1 as [|z l1 IH]; [reflexivity|].
  cbn [app first_of existsb].
  destruct (z =? x); [reflexivity|]. destruct (z =? y); [reflexivity|].
  exact IH.
Qed.

Lemma existsb_eqb_In (k : Z) (ks : list Z) :
  existsb (Z.eqb k) ks = true <-> In k ks.
Proof.
  rewrite existsb_exists. split.
  - intros [z [Hz Hk]]. apply Z.eqb_eq in Hk. subst. exact Hz.
  - intros H. exists k. split; [exact H|apply Z.eqb_refl].
Qed.

Lemma mem2_false (x y : Z) (l : list Z) :
  mem2 x y l = false <-> ~ In x l /\ ~ In y l.
Proof.
  unfold mem2. induction l as [|z l IH]; cbn [existsb In].
  - split; [intros _; split; intros []|reflexivity].
  - rewrite orb_false_iff, IH, orb_false_iff, !Z.eqb_neq. tauto.
Qed.

Lemma first_of_add_key (x y : Z) (ks : list Z) (k : Z) :
  first_of x y (add_key ks k)
  = if mem2 x y ks then first_of x y ks else (k =? x) && negb (existsb (Z.eqb k) ks).
Proof.
  unfold add_key. destruct (existsb (Z.eqb k) ks) eqn:Hk.
  - destruct (mem2 x y ks) eqn:Hm; [reflexivity|].
    rewrite andb_false_r.
    apply mem2_false in Hm. destruct Hm as [Hx Hy].
    clear Hk. induction ks as [|z ks IH]; [reflexivity|].
    cbn [first_of]. cbn [In] in Hx, Hy.
    destruct (Z.eqb_spec z x); [tauto|]. destruct (Z.eqb_spec z y); [tauto|].
    apply IH; tauto.
  - rewrite first_of_app. destruct (mem2 x y ks); [reflexivity|].
    cbn. destruct (k =? x); [reflexivity|]. destruct (k =? y); reflexivity.
Qed.

Lemma mem2_add_key (x y : Z) (ks : list Z) (k : Z) :
  mem2 x y (add_key ks k) = mem2 x y ks || (k =? x) || (k =? y).
Proof.
  unfold add_key. destruct (existsb (Z.eqb k) ks) eqn:Hk.
  - apply existsb_eqb_In in Hk.
    destruct (Z.eqb_spec k x) as [-> | Hx].
    + replace (mem2 x y ks) with true; [reflexivity|].
      symmetry. unfold mem2. apply existsb_exists. exists x.
      split; [exact Hk|]. rewrite Z.eqb_refl. reflexivity.
    + destruct (Z.eqb_spec k y) as [-> | Hy].
      * replace (mem2 x y ks) with true; [reflexivity|].
        symmetry. unfold mem2. apply existsb_exists. exists y.
        split; [exact Hk|]. rewrite Z.eqb_refl. apply orb_true_r.
      * rewrite !orb_false_r. reflexivity.
  - unfold mem2. rewrite existsb_app. cbn [existsb].
    rewrite orb_false_r, orb_assoc. reflexivity.
Qed.

Lemma first_of_fold_add_key (x y : Z) (l : list Z) :
  forall init : list Z,
  first_of x y (fold_left add_key l init)
  = if mem2 x y init then first_of x y init else first_of x y l.
Proof.
  induction l as [|k l IH]; intros init; cbn [fold_left].
  - destruct (mem2 x y init) eqn:Hm; [reflexivity|].
    apply mem2_false in Hm. destruct Hm as [Hx Hy].
    induction init as [|z init IHi]; [reflexivity|].
    cbn [first_of]. cbn [In] in Hx, Hy.
    destruct (Z.eqb_spec z x); [tauto|]. destruct (Z.eqb_spec z y); [tauto|].
    apply IHi; tauto.
  - rewrite IH, mem2_add_key, first_of_add_key.
    destruct (mem2 x y init) eqn:Hm; [reflexivity|].
    cbn [orb first_of].
    destruct (Z.eqb_spec k x) as [-> | Hx].
    + cbn [orb andb].
      destruct (existsb (Z.eqb x) init) eqn:Hin; [|reflexivity].
      apply existsb_eqb_In in Hin. apply mem2_false in Hm. tauto.
    + cbn [orb andb]. destruct (Z.eqb_spec k y) as [-> | Hy]; reflexivity.
Qed.

Lemma In_fold_add_key (k : Z) (l : list Z) :
  forall init : list Z,
  In k (fold_left add_key l init) <-> In k init \/ In k l.
Proof.
  induction l as [|z l IH]; intros init; cbn [fold_left In]; [tauto|].
  rewrite IH. unfold add_key.
  destruct (existsb (Z.eqb z) init) eqn:Hz.
  - apply existsb_eqb_In in Hz. split; [tauto|].
    intros [H | [-> | H]]; tauto.
  - rewrite in_app_iff. cbn [In]. tauto.
Qed.

Lemma NoDup_add_key (ks : list Z) (k : Z) :
  NoDup ks -> NoDup (add_key ks k).
Proof.
  intros H. unfold add_key. destruct (existsb (Z.eqb k) ks) eqn:Hk; [exact H|].
  assert (Hn : ~ In k ks).
  { intros Hin. apply existsb_eqb_In in Hin. congruence. }
  clear Hk. induction H as [|z ks Hz H IH]; cbn [app].
  - constructor; [intros []|constructor].
  - cbn [In] in Hn. constructor.
    + rewrite in_app_iff. cbn [In]. intros [Hin | [-> | []]]; tauto.
    + apply IH. tauto.
Qed.

(** *** Well-formed counters *)

Lemma In_dict_get (k n : Z) (c : dict Z Z) :
  NoDup (map fst c) -> In (k, n) c -> dict_get Z.eqb k c = Some n.
Proof.
  induction c as [|[k0 m] c IH]; intros Hnd Hin; [destruct Hin|].
  cbn [map fst] in Hnd. inversion Hnd as [|? ? Hk0 Hnd']; subst.
  cbn [dict_get]. destruct Hin as [Heq | Hin].
  - inversion Heq; subst. rewrite Z.eqb_refl. reflexivity.
  - destruct (Z.eqb_spec k k0) as [-> | Hk]; [|apply IH; assumption].
    exfalso. apply Hk0. apply (in_map fst) in Hin. exact Hin.
Qed.

Lemma dict_get_In {V : Type} (k : Z) (v : V) (d : dict Z V) :
  dict_get Z.eqb k d = Some v -> In (k, v) d.
Proof.
  induction d as [|[k0 v0] d IH]; cbn [dict_get]; [discriminate|].
  destruct (Z.eqb_spec k k0) as [-> | Hk]; intros H.
  - inversion H. left. reflexivity.
  - right. apply IH. exact H.
Qed.

Lemma dict_get_None {V : Type} (k : Z) (d : dict Z V) :
  dict_get Z.eqb k d = None <-> ~ In k (map fst d).
Proof.
  induction d as [|[k0 v0] d IH]; cbn [dict_get map fst In]; [tauto|].
  destruct (Z.eqb_spec k k0) as [-> | Hk].
  - split; [discriminate|tauto].
  - rewrite IH. split; [intros H [E | E]; [congruence|tauto]|tauto].
Qed.

Lemma counter_add_ok (k n : Z) (c : dict Z Z) :
  0 < n -> counter_ok c -> counter_ok (counter_add k n c).
Proof.
  intros Hn [Hnd Hpos]. split.
  - rewrite keys_counter_add. apply NoDup_add_key. exact Hnd.
  - clear Hnd. induction c as [|[k0 m] c IH]; cbn [counter_add].
    + constructor; [exact Hn|constructor].
    + inversion Hpos as [|? ? Hm Hpos']; subst. cbn [snd] in Hm.
      destruct (k =? k0); constructor; cbn [snd]; auto; lia.
Qed.

Lemma nested_add_ok (a b n : Z) (d : dict Z (dict Z Z)) :
  0 < n -> counters_ok d -> counters_ok (nested_add a b n d).
Proof.
  intros Hn [Hnd Hok]. split.
  - rewrite keys_nested_add. apply NoDup_add_key. exact Hnd.
  - clear Hnd. induction d as [|[a0 c] d IH]; cbn [nested_add].
    + constructor; [|constructor]. cbn [snd]. split.
      * constructor; [intros []|constructor].
      * constructor; [exact Hn|constructor].
    + inversion Hok as [|? ? Hc Hok']; subst. cbn [snd] in Hc.
      destruct (a =? a0); constructor; cbn [snd]; auto.
      apply counter_add_ok; assumption.
Qed.

Lemma build_ok (events : list event) :
  Forall (fun e => 0 < snd e) events ->
  forall d : dict Z (dict Z Z), counters_ok d -> counters_ok (build events d).
Proof.
  induction 1 as [|e events He _ IH]; intros d Hd; [exact Hd|].
  cbn [build fold_left]. apply IH. apply nested_add_ok; assumption.
Qed.

Lemma counters_ok_get (d : dict Z (dict Z Z)) (a : Z) (c : dict Z Z) :
  counters_ok d -> dict_get Z.eqb a d = Some c -> counter_ok c.
Proof.
  intros [_ Hok] Hget. apply dict_get_In in Hget.
  rewrite Forall_forall in Hok. exact (Hok _ Hget).
Qed.

(** *** The most common entry *)

Lemma max_from_first_maximum (items : list (Z * Z)) :
  forall (best : Z * Z) (before ties : list (Z * Z)),
  (forall x, In x before -> snd x < snd best) ->
  (forall x, In x ties -> snd x <= snd best) ->
  exists l1 l2,
    before ++ best :: ties ++ items = l1 ++ max_from best items :: l2 /\
    (forall x, In x l1 -> snd x < snd (max_from best items)) /\
    (forall x, In x l2 -> snd x <= snd (max_from best items)).
Proof.
  induction items as [|x items IH]; intros best before ties Hb Ht.
  - exists before, ties. rewrite app_nil_r. auto.
  - cbn [max_from]. rewrite Z.gtb_ltb.
    destruct (Z.ltb_spec (snd best) (snd x)) as [Hlt | Hge].
    + destruct (IH x (before ++ best :: ties) []) as (l1 & l2 & Heq & H1 & H2).
      * intros y Hy. rewrite in_app_iff in Hy. cbn [In] in Hy.
        destruct Hy as [Hy | [<- | Hy]];
          [specialize (Hb _ Hy)| |specialize (Ht _ Hy)]; lia.
      * intros y [].
      * exists l1, l2. split; [|auto].
        rewrite <- Heq. rewrite <- !app_assoc. reflexivity.
    + destruct (IH best before (ties ++ [x])) as (l1 & l2 & Heq & H1 & H2).
      * exact Hb.
      * intros y Hy. rewrite in_app_iff in Hy. cbn [In] in Hy.
        destruct Hy as [Hy | [<- | []]]; [apply Ht; exact Hy|lia].
      * exists l1, l2. split; [|auto].
        rewrite <- Heq. rewrite <- !app_assoc. reflexivity.
Qed.

Lemma most_common1_first_maximum (c : dict Z Z) (k n : Z) (more : list (Z * Z)) :
  most_common1 c = (k, n) :: more ->
  exists l1 l2,
    c = l1 ++ (k, n) :: l2 /\
    (forall x, In x l1 -> snd x < n) /\
    (forall x, In x l2 -> snd x <= n).
Proof.
  destruct c as [|x c]; cbn [most_common1]; [discriminate|].
  intros H. inversion H as [Hmax].
  destruct (max_from_first_maximum c x [] []) as (l1 & l2 & Heq & H1 & H2);
    [intros ? []|intros ? []|].
  rewrite Hmax in Heq, H1, H2. cbn [snd app] in *.
  exists l1, l2. rewrite ?Hmax. split; [exact Heq|split; assumption].
Qed.

(** In a well-formed counter the entry chosen by [most_common(1)] has the
    highest count, and among the keys with that count it is the one that
    entered the counter first. *)
Lemma most_common1_tie_break (c : dict Z Z) (k n : Z) (more : list (Z * Z)) :
  counter_ok c ->
  most_common1 c = (k, n) :: more ->
  cget k c = n /\ 0 < n /\
  forall k', cget k' c <= n /\
             (cget k' c = n -> first_of k k' (map fst c) = true).
Proof.
  intros [Hnd Hpos] Hmc.
  destruct (most_common1_first_maximum _ _ _ _ Hmc) as (l1 & l2 & -> & H1 & H2).
  assert (Hin : In (k, n) (l1 ++ (k, n) :: l2)).
  { rewrite in_app_iff. right. left. reflexivity. }
  assert (Hn : 0 < n).
  { rewrite Forall_forall in Hpos. exact (Hpos _ Hin). }
  split; [unfold cget; rewrite (In_dict_get _ _ _ Hnd Hin); reflexivity|].
  split; [exact Hn|]. intros k'.
  assert (Hk1 : ~ In k (map fst l1)).
  { rewrite map_app in Hnd. cbn [map fst] in Hnd.
    apply NoDup_remove_2 in Hnd. rewrite in_app_iff in Hnd. tauto. }
  unfold cget.
  destruct (dict_get Z.eqb k' (l1 ++ (k, n) :: l2)) as [n'|] eqn:Hget.
  - assert (Hin' := dict_get_In _ _ _ Hget).
    rewrite in_app_iff in Hin'. cbn [In] in Hin'.
    split.
    + destruct Hin' as [Hin' | [Heq | Hin']];
        [specialize (H1 _ Hin'); cbn [snd] in H1; lia
        |inversion Heq; lia
        |specialize (H2 _ Hin'); cbn [snd] in H2; lia].
    + intros ->. rewrite map_app, first_of_app. cbn [map fst first_of].
      assert (Hk'1 : ~ In k' (map fst l1)).
      { intros Hk'. apply in_map_iff in Hk'. destruct Hk' as [[k0 m] [Hf Hx]].
        cbn [fst] in Hf. subst k0.
        assert (Hm : dict_get Z.eqb k' (l1 ++ (k, n) :: l2) = Some m).
        { apply In_dict_get; [exact Hnd|].
          rewrite in_app_iff. left. exact Hx. }
        rewrite Hget in Hm. inversion Hm; subst m.
        specialize (H1 _ Hx). cbn [snd] in H1. lia. }
      replace (mem2 k k' (map fst l1)) with false
        by (symmetry; apply mem2_false; tauto).
      rewrite Z.eqb_refl. reflexivity.
  - split; [lia|]. intros H0. lia.
Qed.

Lemma choose_most_common_get (table : dict Z (dict Z Z)) :
  forall (chosen : dict Z Z),
  JP.choose_most_common table = Ok chosen ->
  map fst chosen = map fst table /\
  forall k x, dict_get Z.eqb k chosen = Some x ->
    exists c n more,
      dict_get Z.eqb k table = Some c /\ most_common1 c = (x, n) :: more.
Proof.
  induction table as [|[k0 c0] table IH]; intros chosen H;
    cbn [JP.choose_most_common] in H.
  - inversion H. split; [reflexivity|]. intros k x Hk. discriminate.
  - destruct (most_common1 c0) as [|[x0 n0] more0] eqn:Hmc; [discriminate|].
    unfold bind in H.
    destruct (JP.choose_most_common table) as [rest|] eqn:Hrest;
      [|discriminate].
    inversion H; subst chosen.
    destruct (IH rest eq_refl) as [Hkeys Hget].
    split; [cbn [map fst]; rewrite Hkeys; reflexivity|].
    intros k x Hk. cbn [dict_get] in Hk |- *.
    destruct (Z.eqb_spec k k0) as [-> | Hne].
    + inversion Hk; subst x. exists c0, n0, more0. auto.
    + apply Hget. exact Hk.
Qed.

Lemma choose_most_common_total (table : dict Z (dict Z Z)) :
  Forall (fun kc => snd kc <> []) table ->
  exists chosen, JP.choose_most_common table = Ok chosen.
Proof.
  induction 1 as [|[k c] table Hc _ [rest IH]]; cbn [JP.choose_most_common].
  - eauto.
  - cbn [snd] in Hc. destruct c as [|x c]; [contradiction|].
    cbn [most_common1]. destruct (max_from x c) as [y m].
    rewrite IH. cbn [bind]. eauto.
Qed.

Lemma nested_add_nonempty (a b n : Z) (d : dict Z (dict Z Z)) :
  Forall (fun kc => snd kc <> []) d ->
  Forall (fun kc : Z * dict Z Z => snd kc <> []) (nested_add a b n d).
Proof.
  induction 1 as [|[a0 c] d Hc Hd IH]; cbn [nested_add].
  - constructor; [discriminate|constructor].
  - destruct (a =? a0).
    + constructor; [|exact Hd]. cbn [snd] in *.
      destruct c as [|[k m] c]; [contradiction|].
      cbn [counter_add]. destruct (b =? k); discriminate.
    + constructor; [exact Hc|exact IH].
Qed.

Lemma build_nonempty (events : list event) :
  forall d : dict Z (dict Z Z),
  Forall (fun kc => snd kc <> []) d ->
  Forall (fun kc : Z * dict Z Z => snd kc <> []) (build events d).
Proof.
  induction events as [|e events IH]; intros d Hd; [exact Hd|].
  cbn [build fold_left]. apply IH. apply nested_add_nonempty. exact Hd.
Qed.

(** *** The reversed counters *)

Lemma weight_app (e1 e2 : list event) (a b : Z) :
  weight (e1 ++ e2) a b = weight e1 a b + weight e2 a b.
Proof.
  induction e1 as [|[[k1 k2] n] e1 IH]; cbn [app weight]; [reflexivity|].
  rewrite IH. lia.
Qed.

Lemma weight_counter_events_other (u0 : Z) (ctr : dict Z Z) (ch u : Z) :
  u0 <> u -> weight (counter_events u0 ctr) ch u = 0.
Proof.
  intros Hu. induction ctr as [|[k n] ctr IH]; cbn [counter_events weight];
    [reflexivity|].
  rewrite IH. destruct (Z.eqb_spec u0 u); [contradiction|].
  rewrite andb_false_r. reflexivity.
Qed.

Lemma weight_counter_events_same (u : Z) (ctr : dict Z Z) (ch : Z) :
  NoDup (map fst ctr) -> weight (counter_events u ctr) ch u = cget ch ctr.
Proof.
  unfold cget.
  induction ctr as [|[k n] ctr IH]; intros Hnd;
    cbn [counter_events weight dict_get]; [reflexivity|].
  cbn [map fst] in Hnd. inversion Hnd as [|? ? Hk Hnd']; subst.
  rewrite (IH Hnd'), Z.eqb_refl, andb_true_r.
  destruct (Z.eqb_spec k ch) as [-> | Hne].
  - rewrite Z.eqb_refl.
    replace (dict_get Z.eqb ch ctr) with (@None Z);
      [lia|symmetry; apply dict_get_None; exact Hk].
  - destruct (Z.eqb_spec ch k); [congruence|]. lia.
Qed.

Lemma weight_reversed_absent (counts : dict Z (dict Z Z)) (ch u : Z) :
  ~ In u (map fst counts) -> weight (reversed_events counts) ch u = 0.
Proof.
  induction counts as [|[u0 ctr] counts IH]; intros Hu;
    cbn [reversed_events]; [reflexivity|].
  cbn [map fst In] in Hu. rewrite weight_app, IH by tauto.
  rewrite weight_counter_events_other by tauto. reflexivity.
Qed.

Lemma weight_reversed_events (counts : dict Z (dict Z Z)) (ch u : Z) :
  counters_ok counts -> weight (reversed_events counts) ch u = cnt counts u ch.
Proof.
  unfold cnt.
  induction counts as [|[u0 ctr] counts IH]; intros [Hnd Hok];
    cbn [reversed_events dict_get]; [reflexivity|].
  cbn [map fst] in Hnd. inversion Hnd as [|? ? Hu0 Hnd']; subst.
  inversion Hok as [|? ? Hc Hok']; subst. cbn [snd] in Hc.
  rewrite weight_app.
  destruct (Z.eqb_spec u u0) as [-> | Hne].
  - rewrite weight_counter_events_same by apply Hc.
    rewrite weight_reversed_absent by exact Hu0. lia.
  - rewrite weight_counter_events_other by congruence.
    rewrite IH by (split; assumption). reflexivity.
Qed.

Lemma seconds_of_app (a : Z) (e1 e2 : list event) :
  seconds_of a (e1 ++ e2) = seconds_of a e1 ++ seconds_of a e2.
Proof. unfold seconds_of. rewrite filter_app, map_app. reflexivity. Qed.

Lemma seconds_counter_events_all (u0 : Z) (ctr : dict Z Z) (ch : Z) :
  Forall (eq u0) (seconds_of ch (counter_events u0 ctr)).
Proof.
  unfold seconds_of.
  induction ctr as [|[k n] ctr IH]; cbn [counter_events filter fst snd map];
    [constructor|].
  destruct (k =? ch); [constructor; [reflexivity|exact IH]|exact IH].
Qed.

Lemma seconds_counter_events_head (u0 : Z) (ctr : dict Z Z) (ch : Z) :
  cget ch ctr <> 0 ->
  exists tl, seconds_of ch (counter_events u0 ctr) = u0 :: tl.
Proof.
  unfold cget, seconds_of.
  induction ctr as [|[k n] ctr IH];
    cbn [counter_events filter fst snd map dict_get]; intros H;
    [contradiction|].
  destruct (Z.eqb_spec ch k) as [-> | Hne].
  - rewrite Z.eqb_refl. cbn [map fst snd]. eauto.
  - destruct (Z.eqb_spec k ch); [congruence|]. apply IH. exact H.
Qed.

Lemma first_of_reversed_events (counts : dict Z (dict Z Z)) (ch u u' : Z) :
  cnt counts u ch <> 0 -> cnt counts u' ch <> 0 ->
  first_of u u' (seconds_of ch (reversed_events counts))
  = first_of u u' (map fst counts).
Proof.
  unfold cnt.
  induction counts as [|[u0 ctr] counts IH]; cbn [dict_get]; intros Hu Hu';
    [contradiction|].
  cbn [reversed_events map fst first_of]. rewrite seconds_of_app.
  destruct (Z.eqb_spec u u0) as [-> | Hne].
  - rewrite Z.eqb_refl.
    destruct (seconds_counter_events_head u0 ctr ch Hu) as [tl ->].
    cbn [app first_of]. rewrite Z.eqb_refl. reflexivity.
  - destruct (Z.eqb_spec u0 u); [congruence|].
    destruct (Z.eqb_spec u' u0) as [-> | Hne'].
    + rewrite Z.eqb_refl.
      destruct (seconds_counter_events_head u0 ctr ch Hu') as [tl ->].
      cbn [app first_of]. rewrite Z.eqb_refl.
      destruct (Z.eqb_spec u0 u); [congruence|reflexivity].
    + destruct (Z.eqb_spec u0 u'); [congruence|].
      rewrite first_of_app.
      replace (mem2 u u' (seconds_of ch (counter_events u0 ctr))) with false;
        [apply IH; assumption|].
      symmetry. apply mem2_false.
      pose proof (seconds_counter_events_all u0 ctr ch) as Hall.
      rewrite Forall_forall in Hall.
      split; intros Hin; apply Hall in Hin; congruence.
Qed.

(** *** The observations *)

Lemma weight_observation_events (obs : list (Z * Z)) (u ch : Z) :
  weight (observation_events obs) u ch = count_pair obs u ch.
Proof.
  induction obs as [|[u0 ch0] obs IH];
    cbn [observation_events map weight count_pair fst snd]; [reflexivity|].
  fold (observation_events obs). rewrite IH. reflexivity.
Qed.

Lemma seconds_of_observation_events (obs : list (Z * Z)) (u : Z) :
  seconds_of u (observation_events obs) = chars_with u obs.
Proof.
  unfold seconds_of, chars_with, observation_events.
  induction obs as [|[u0 ch0] obs IH]; cbn [map filter fst snd];
    [reflexivity|].
  destruct (u0 =? u); cbn [map fst snd]; rewrite IH; reflexivity.
Qed.

Lemma firsts_of_observation_events (obs : list (Z * Z)) :
  map (fun e : event => fst (fst e)) (observation_events obs) = map fst obs.
Proof.
  unfold observation_events. rewrite map_map. reflexivity.
Qed.

Lemma observation_events_positive (obs : list (Z * Z)) :
  Forall (fun e : event => 0 < snd e) (observation_events obs).
Proof.
  unfold observation_events. apply Forall_forall. intros e He.
  apply in_map_iff in He. destruct He as [o [<- _]]. cbn. lia.
Qed.

Lemma reversed_events_positive (counts : dict Z (dict Z Z)) :
  counters_ok counts ->
  Forall (fun e : event => 0 < snd e) (reversed_events counts).
Proof.
  intros [_ Hok].
  induction Hok as [|[u ctr] counts [_ Hpos] _ IH]; cbn [reversed_events];
    [constructor|].
  apply Forall_app. split; [|exact IH].
  cbn [snd] in Hpos. clear - Hpos.
  induction Hpos as [|[k n] ctr Hn _ IH]; cbn [counter_events];
    constructor; auto.
Qed.

Lemma count_pair_nonneg (obs : list (Z * Z)) (u ch : Z) :
  0 <= count_pair obs u ch.
Proof.
  induction obs as [|[u0 ch0] obs IH]; cbn [count_pair]; [lia|].
  destruct ((u0 =? u) && (ch0 =? ch)); lia.
Qed.

Lemma count_pair_In (obs : list (Z * Z)) (u ch : Z) :
  0 < count_pair obs u ch -> In (u, ch) obs.
Proof.
  induction obs as [|[u0 ch0] obs IH]; cbn [count_pair In]; [lia|].
  destruct (Z.eqb_spec u0 u) as [-> | Hu];
    destruct (Z.eqb_spec ch0 ch) as [-> | Hc]; cbn [andb]; intros H;
    auto; right; apply IH; lia.
Qed.

Lemma In_count_pair (obs : list (Z * Z)) (u ch : Z) :
  In (u, ch) obs -> 0 < count_pair obs u ch.
Proof.
  induction obs as [|[u0 ch0] obs IH]; cbn [count_pair In]; [tauto|].
  pose proof (count_pair_nonneg obs u ch).
  intros [Heq | Hin].
  - inversion Heq; subst. rewrite !Z.eqb_refl. cbn [andb]. lia.
  - specialize (IH Hin). destruct ((u0 =? u) && (ch0 =? ch)); lia.
Qed.

Lemma lstrip_char_head (c : Z) (s : str) (x : Z) (rest : str) :
  lstrip_char c s = x :: rest -> x <> c.
Proof.
  induction s as [|z s IH]; cbn [lstrip_char]; [discriminate|].
  destruct (Z.eqb_spec z c); [exact IH|].
  intros H. inversion H; subst. assumption.
Qed.

Lemma block_observations_valid (ub : list Z) :
  forall ref : str,
  Forall (fun o => fst o <> JP.NEWLINE_000A /\ fst o <> JP.NEWLINE_8016 /\
                   snd o <> LF)
    (block_observations ub ref).
Proof.
  induction ub as [|u ub IH]; intros ref; cbn [block_observations];
    [constructor|].
  destruct (Z.eqb_spec u JP.NEWLINE_000A) as [-> | Ha]; cbn [orb].
  - destruct ref as [|c ref]; [apply IH|]. destruct (c =? LF); apply IH.
  - destruct (Z.eqb_spec u JP.NEWLINE_8016) as [-> | H8].
    + destruct ref as [|c ref]; [apply IH|]. destruct (c =? LF); apply IH.
    + destruct (lstrip_char LF ref) as [|ch ref'] eqn:Hs; [constructor|].
      constructor; [|apply IH]. cbn [fst snd].
      repeat split; try assumption. eapply lstrip_char_head. exact Hs.
Qed.

Lemma observations_valid (pairs : list (list Z * str)) :
  Forall (fun o => fst o <> JP.NEWLINE_000A /\ fst o <> JP.NEWLINE_8016 /\
                   snd o <> LF)
    (observations pairs).
Proof.
  induction pairs as [|[ub tb] pairs IH]; cbn [observations]; [constructor|].
  apply Forall_app. split; [apply block_observations_valid|exact IH].
Qed.

(** *** The learned tables *)

Lemma cget_of_cnt (d : dict Z (dict Z Z)) (a : Z) (c : dict Z Z) (b : Z) :
  dict_get Z.eqb a d = Some c -> cget b c = cnt d a b.
Proof. intros H. unfold cnt. rewrite H. reflexivity. Qed.

Lemma keys_of_get (d : dict Z (dict Z Z)) (a : Z) (c : dict Z Z) :
  dict_get Z.eqb a d = Some c -> map fst c = keys_of a d.
Proof. intros H. unfold keys_of. rewrite H. reflexivity. Qed.

Lemma counters_ok_nil : counters_ok [].
Proof. split; constructor. Qed.

Lemma learn_from_blocks_ties (msg_blocks_units : list (list Z))
  (txt_blocks : list str) (unit_to_char char_to_unit : dict Z Z) :
  JP.learn_from_blocks msg_blocks_units txt_blocks
  = Ok (unit_to_char, char_to_unit) ->
  ties_as_trained (training_observations msg_blocks_units txt_blocks)
    unit_to_char char_to_unit.
Proof.
  unfold JP.learn_from_blocks, training_observations.
  rewrite reverse_counts_events, align_blocks_events.
  set (obs := observations (combine msg_blocks_units txt_blocks)).
  set (counts := build (observation_events obs) []).
  set (rev_counts := build (reversed_events counts) []).
  assert (Hok : counters_ok counts).
  { apply build_ok; [apply observation_events_positive|apply counters_ok_nil]. }
  assert (Hrok : counters_ok rev_counts).
  { apply build_ok; [apply reversed_events_positive; exact Hok
                    |apply counters_ok_nil]. }
  assert (Hcnt : forall u ch, cnt counts u ch = count_pair obs u ch).
  { intros u ch. unfold counts. rewrite cnt_build, weight_observation_events.
    reflexivity. }
  assert (Hrcnt : forall ch u, cnt rev_counts ch u = count_pair obs u ch).
  { intros ch u. unfold rev_counts.
    rewrite cnt_build, weight_reversed_events by exact Hok.
    rewrite Hcnt. reflexivity. }
  unfold bind.
  destruct (JP.choose_most_common counts) as [u2c|] eqn:Hu2c; [|discriminate].
  destruct (JP.choose_most_common rev_counts) as [c2u|] eqn:Hc2u;
    [|discriminate].
  intros H. inversion H; subst u2c c2u. clear H.
  destruct (choose_most_common_get _ _ Hu2c) as [_ Hfw].
  destruct (choose_most_common_get _ _ Hc2u) as [_ Hbw].
  split.
  - intros u ch Hget.
    destruct (Hfw _ _ Hget) as (c & n & more & Hc & Hmc).
    destruct (most_common1_tie_break c ch n more
                (counters_ok_get _ _ _ Hok Hc) Hmc) as (Hn & Hpos & Hties).
    rewrite (cget_of_cnt _ _ _ _ Hc), Hcnt in Hn.
    split; [lia|]. intros ch'. specialize (Hties ch').
    rewrite (cget_of_cnt _ _ _ _ Hc), Hcnt in Hties.
    rewrite (keys_of_get _ _ _ Hc) in Hties.
    unfold counts in Hties at 1.
    rewrite keys_of_build, first_of_fold_add_key in Hties.
    rewrite seconds_of_observation_events in Hties.
    rewrite Hn. exact Hties.
  - intros ch u Hget.
    destruct (Hbw _ _ Hget) as (c & n & more & Hc & Hmc).
    destruct (most_common1_tie_break c u n more
                (counters_ok_get _ _ _ Hrok Hc) Hmc) as (Hn & Hpos & Hties).
    rewrite (cget_of_cnt _ _ _ _ Hc), Hrcnt in Hn.
    split; [lia|]. intros u'. specialize (Hties u').
    rewrite (cget_of_cnt _ _ _ _ Hc), Hrcnt in Hties.
    rewrite (keys_of_get _ _ _ Hc) in Hties.
    destruct Hties as [Hle Htie]. rewrite Hn. split; [exact Hle|].
    intros Heq. specialize (Htie Heq).
    unfold rev_counts in Htie at 1.
    rewrite keys_of_build, first_of_fold_add_key in Htie.
    cbn [keys_of dict_get mem2 existsb] in Htie.
    rewrite first_of_reversed_events in Htie by (rewrite Hcnt; lia).
    unfold counts in Htie at 1.
    rewrite keys_build, first_of_fold_add_key in Htie.
    rewrite firsts_of_observation_events in Htie. exact Htie.
Qed.

(** The alignment and the two choices never raise: on parsed blocks the
    trainer always returns its two tables. *)
Lemma learn_from_blocks_total (msg_blocks_units : list (list Z))
  (txt_blocks : list str) :
  exists unit_to_char char_to_unit,
    JP.learn_from_blocks msg_blocks_units txt_blocks
    = Ok (unit_to_char, char_to_unit).
Proof.
  unfold JP.learn_from_blocks.
  rewrite reverse_counts_events, align_blocks_events.
  destruct (choose_most_common_total
              (build (observation_events
                        (observations
                           (combine msg_blocks_units txt_blocks))) []))
    as [u2c ->]; [apply build_nonempty; constructor|].
  cbn [bind].
  destruct (choose_most_common_total
              (build (reversed_events
                        (build (observation_events
                                  (observations
                                     (combine msg_blocks_units txt_blocks)))
                           [])) []))
    as [c2u ->]; [apply build_nonempty; constructor|].
  cbn [bind]. eauto.
Qed.

Lemma learn_mapping_inv (data : bytes) (txt_text : str)
  (unit_to_char char_to_unit : dict Z Z) :
  JP.learn_mapping data txt_text = Ok (unit_to_char, char_to_unit) ->
  exists msg_blocks_units,
    JP._read_all_blocks_units data = Ok msg_blocks_units /\
    JP.learn_from_blocks msg_blocks_units
      (JP.split_txt_into_blocks txt_text)
    = Ok (unit_to_char, char_to_unit).
Proof.
  unfold JP.learn_mapping, bind.
  destruct (JP._read_all_blocks_units data) as [mbu|]; [|discriminate].
  destruct (negb (len mbu =? len (JP.split_txt_into_blocks txt_text)));
    [discriminate|].
  intros H. exists mbu. auto.
Qed.

(** C9 (counterexample): one block of units 2 1 1 1 2 against "abacc". Every
    pair is observed once, so every choice is a tie. The unit 1 gets 'b',
    the character it was first paired with, although 'a' was met earlier
    in the walk; the character 'c' gets the unit 2, the unit met first in
    the walk, although 'c' was first paired with the unit 1. Neither of the
    two uniform readings of "first-encountered order in both directions"
    holds. *)
Lemma tie_break_not_uniform :
  JP._read_all_blocks_units tie_msg = Ok tie_units /\
  JP.split_txt_into_blocks tie_txt = tie_text /\
  training_observations tie_units tie_text = tie_observations /\
  JP.learn_mapping tie_msg tie_txt
  = Ok ([(2, 0x61); (1, 0x62)], [(0x61, 2); (0x63, 2); (0x62, 1)]) /\
  ~ ties_by_first_pairing tie_observations
      [(2, 0x61); (1, 0x62)] [(0x61, 2); (0x63, 2); (0x62, 1)] /\
  ~ ties_by_first_encounter tie_observations
      [(2, 0x61); (1, 0x62)] [(0x61, 2); (0x63, 2); (0x62, 1)].
Proof.
  split; [reflexivity|]. split; [reflexivity|]. split; [reflexivity|].
  split; [reflexivity|]. split.
  - intros [_ H]. specialize (H 0x63 2 1 eq_refl eq_refl). discriminate.
  - intros [H _]. specialize (H 1 0x62 0x61 eq_refl eq_refl). discriminate.
Qed.

(** C9 (amended): training is a function of the contents of the two files:
    any run on a binary and a reference with these contents returns the
    same two tables. Each unit gets a character with the highest count for
    it, and among tied characters the one first observed with that unit;
    each character gets a unit with the highest count for it, and among
    tied units the one that the training walk met first, whichever
    character it was then paired with. *)
Theorem training_deterministic_tie_breaks (data : bytes) (txt_text : str)
  (msg_blocks_units : list (list Z)) (unit_to_char char_to_unit : dict Z Z) :
  JP._read_all_blocks_units data = Ok msg_blocks_units ->
  JP.learn_mapping data txt_text = Ok (unit_to_char, char_to_unit) ->
  (forall (decode_utf8 : bytes -> result str) (fs : FS) (msg txt : Path),
      fs msg = Some data ->
      JP.read_text decode_utf8 fs txt = Ok txt_text ->
      JP.learn_mapping_from_pair decode_utf8 fs msg txt
      = Ok (unit_to_char, char_to_unit)) /\
  ties_as_trained
    (training_observations msg_blocks_units
       (JP.split_txt_into_blocks txt_text))
    unit_to_char char_to_unit.
Proof.
  intros Hread Hlearn. split.
  - intros decode_utf8 fs msg txt Hmsg Htxt.
    unfold JP.learn_mapping_from_pair, read_bytes.
    rewrite Hmsg. cbn [bind]. rewrite Hread. cbn [bind].
    rewrite Htxt. cbn [bind].
    unfold JP.learn_mapping in Hlearn. rewrite Hread in Hlearn.
    exact Hlearn.
  - destruct (learn_mapping_inv _ _ _ _ Hlearn) as (mbu & Hmbu & Hl).
    rewrite Hread in Hmbu. inversion Hmbu; subst mbu.
    apply learn_from_blocks_ties. exact Hl.
Qed.

Lemma training_deterministic_tie_breaks_witness :
  JP._read_all_blocks_units tie_msg = Ok tie_units /\
  JP.learn_mapping tie_msg tie_txt
  = Ok ([(2, 0x61); (1, 0x62)], [(0x61, 2); (0x63, 2); (0x62, 1)]) /\
  ties_as_trained
    (training_observations tie_units (JP.split_txt_into_blocks tie_txt))
    [(2, 0x61); (1, 0x62)] [(0x61, 2); (0x63, 2); (0x62, 1)].
Proof.
  split; [reflexivity|]. split; [reflexivity|].
  exact (proj2 (training_deterministic_tie_breaks tie_msg tie_txt tie_units
                  [(2, 0x61); (1, 0x62)] [(0x61, 2); (0x63, 2); (0x62, 1)]
                  eq_refl eq_refl)).
Defined.

(** X20: training returns its tables whenever the binary parses and the
    two block counts agree: the alignment and the choice of the most
    common candidate never raise, no counter being empty when
    [most_common(1)[0]] is taken from it. *)
Lemma learn_mapping_total (data : bytes) (txt_text : str)
  (msg_blocks_units : list (list Z)) :
  JP._read_all_blocks_units data = Ok msg_blocks_units ->
  len msg_blocks_units = len (JP.split_txt_into_blocks txt_text) ->
  exists unit_to_char char_to_unit,
    JP.learn_mapping data txt_text = Ok (unit_to_char, char_to_unit).
Proof.
  intros Hread Hlen. unfold JP.learn_mapping. rewrite Hread. cbn [bind].
  rewrite Hlen, Z.eqb_refl. cbn [negb]. apply learn_from_blocks_total.
Qed.

Lemma learn_mapping_from_pair_inv (decode_utf8 : bytes -> result str)
  (fs : FS) (msg_path txt_path : Path)
  (unit_to_char char_to_unit : dict Z Z) :
  JP.learn_mapping_from_pair decode_utf8 fs msg_path txt_path
  = Ok (unit_to_char, char_to_unit) ->
  exists data txt_text,
    fs msg_path = Some data /\
    JP.read_text decode_utf8 fs txt_path = Ok txt_text /\
    JP.learn_mapping data txt_text = Ok (unit_to_char, char_to_unit).
Proof.
  unfold JP.learn_mapping_from_pair, JP.learn_mapping, read_bytes, bind.
  destruct (fs msg_path) as [data|]; [|discriminate].
  destruct (JP._read_all_blocks_units data) as [mbu|] eqn:Hread;
    [|discriminate].
  destruct (JP.read_text decode_utf8 fs txt_path) as [txt_text|];
    [|discriminate].
  intros H. exists data, txt_text. rewrite Hread. auto.
Qed.

(** C10: for every pair of files on which [learn_mapping_from_pair]
    succeeds, neither newline code unit is a key of the learned unit->glyph
    table and the line break is not a key of the learned glyph->unit table;
    more, no entry of either table pairs a newline code unit or a
    line-break character with anything. *)
Theorem learned_tables_avoid_newlines (decode_utf8 : bytes -> result str)
  (fs : FS) (msg_path txt_path : Path)
  (unit_to_char char_to_unit : dict Z Z) :
  JP.learn_mapping_from_pair decode_utf8 fs msg_path txt_path
  = Ok (unit_to_char, char_to_unit) ->
  dict_get Z.eqb JP.NEWLINE_000A unit_to_char = None /\
  dict_get Z.eqb JP.NEWLINE_8016 unit_to_char = None /\
  dict_get Z.eqb LF char_to_unit = None /\
  (forall u ch, dict_get Z.eqb u unit_to_char = Some ch -> ch <> LF) /\
  (forall ch u, dict_get Z.eqb ch char_to_unit = Some u ->
                u <> JP.NEWLINE_000A /\ u <> JP.NEWLINE_8016).
Proof.
  intros Hpair.
  destruct (learn_mapping_from_pair_inv _ _ _ _ _ _ Hpair)
    as (data & txt_text & _ & _ & Hlearn).
  destruct (learn_mapping_inv _ _ _ _ Hlearn) as (mbu & _ & Hl).
  apply learn_from_blocks_ties in Hl. destruct Hl as [Hfw Hbw].
  pose proof (observations_valid
                (combine mbu (JP.split_txt_into_blocks txt_text))) as Hv.
  rewrite Forall_forall in Hv.
  assert (Hf : forall u ch, dict_get Z.eqb u unit_to_char = Some ch ->
                 u <> JP.NEWLINE_000A /\ u <> JP.NEWLINE_8016 /\ ch <> LF).
  { intros u ch Hget. destruct (Hfw _ _ Hget) as [Hpos _].
    apply count_pair_In in Hpos. exact (Hv _ Hpos). }
  assert (Hb : forall ch u, dict_get Z.eqb ch char_to_unit = Some u ->
                 u <> JP.NEWLINE_000A /\ u <> JP.NEWLINE_8016 /\ ch <> LF).
  { intros ch u Hget. destruct (Hbw _ _ Hget) as [Hpos _].
    apply count_pair_In in Hpos. exact (Hv _ Hpos). }
  repeat split.
  - destruct (dict_get Z.eqb JP.NEWLINE_000A unit_to_char) as [ch|] eqn:E;
      [|reflexivity]. destruct (Hf _ _ E) as [H _]. contradiction.
  - destruct (dict_get Z.eqb JP.NEWLINE_8016 unit_to_char) as [ch|] eqn:E;
      [|reflexivity]. destruct (Hf _ _ E) as (_ & H & _). contradiction.
  - destruct (dict_get Z.eqb LF char_to_unit) as [u|] eqn:E;
      [|reflexivity]. destruct (Hb _ _ E) as (_ & _ & H). contradiction.
  - intros u ch Hget. apply (Hf _ _ Hget).
  - apply (Hb _ _ H).
  - apply (Hb _ _ H).
Qed.

Lemma learned_tables_avoid_newlines_witness :
  JP._read_all_blocks_units newline_msg = Ok [[2; 0x8016; 1; 0x000A]] /\
  JP.learn_mapping_from_pair ascii_decode newline_files
    (mkPath "MSG02" ".MSG") (mkPath "MSG02" ".txt")
  = Ok ([(2, 0x61); (1, 0x62)], [(0x61, 2); (0x62, 1)]) /\
  dict_get Z.eqb JP.NEWLINE_000A [(2, 0x61); (1, 0x62)] = None /\
  dict_get Z.eqb JP.NEWLINE_8016 [(2, 0x61); (1, 0x62)] = None /\
  dict_get Z.eqb LF [(0x61, 2); (0x62, 1)] = None.
Proof.
  split; [reflexivity|]. split; [reflexivity|].
  destruct (learned_tables_avoid_newlines ascii_decode newline_files
              (mkPath "MSG02" ".MSG") (mkPath "MSG02" ".txt")
              [(2, 0x61); (1, 0x62)] [(0x61, 2); (0x62, 1)]
              eq_refl) as (H1 & H2 & H3 & _).
  auto.
Defined.

(** * Further properties of the two tools *)

(** ** Containers written and read back (duomsgEN.pyw) *)

Lemma slice_app_exact {A : Type} (a b c : list A) :
  slice (a ++ b ++ c) (len a) (len a + len b) = b.
Proof.
  unfold slice, len.
  replace (Z.to_nat (Z.of_nat (List.length a) + Z.of_nat (List.length b)
                     - Z.of_nat (List.length a)))
    with (List.length b) by lia.
  rewrite Nat2Z.id.
  induction a as [|x a IH]; cbn [app List.length skipn]; [|exact IH].
  induction b as [|y b IHb]; cbn [app List.length firstn]; [reflexivity|].
  f_equal. exact IHb.
Qed.

Lemma unpack_HH_pack (a b : Z) (x : bytes) :
  pack_HH a b = Ok x -> unpack_HH x = Ok (a, b).
Proof.
  intros H. pose proof (unpack_pack_HH a b x [] H) as Hd.
  unfold declared_header in Hd. rewrite app_nil_r in Hd.
  pose proof (pack_HH_length _ _ _ H) as Hl.
  destruct x as [|w [|x1 [|y [|z [|]]]]]; try discriminate.
  exact Hd.
Qed.

Lemma words_be_pack_units (units : list Z) (packed : bytes) :
  pack_units units = Ok packed ->
  words_be packed = units /\ List.length packed = (2 * List.length units)%nat.
Proof.
  revert packed. induction units as [|u units IH]; intros packed H;
    cbn [pack_units] in H.
  - inversion H. split; reflexivity.
  - unfold bind, pack_H in H.
    destruct ((0 <=? u) && (u <=? 0xFFFF)) eqn:Hu; [|discriminate].
    destruct (pack_units units) as [y|]; [|discriminate].
    inversion H. destruct (IH y eq_refl) as [Hw Hl].
    cbn [app words_be List.length]. rewrite Hw, Hl. split; [|lia].
    f_equal. pose proof (Z.div_mod u 256). lia.
Qed.

Lemma units_of_raw_pack_units (units : list Z) (packed : bytes) :
  pack_units units = Ok packed -> units_of_raw packed = Ok units.
Proof.
  intros H. destruct (words_be_pack_units _ _ H) as [Hw Hl].
  unfold units_of_raw, unpack_units. rewrite Hl, Nat.even_mul, Hw.
  destruct packed; [|reflexivity].
  destruct units; [reflexivity|discriminate].
Qed.

Lemma pack_units_app (a b : list Z) (out : bytes) :
  pack_units (a ++ b) = Ok out ->
  exists pa pb,
    pack_units a = Ok pa /\ pack_units b = Ok pb /\ out = pa ++ pb.
Proof.
  revert out. induction a as [|u a IH]; intros out H; cbn [app] in H.
  - exists [], out. auto.
  - cbn [pack_units] in H |- *. unfold bind in H |- *.
    destruct (pack_H u) as [x|]; [|discriminate].
    destruct (pack_units (a ++ b)) as [y|] eqn:Hy; [|discriminate].
    inversion H. destruct (IH y eq_refl) as (pa & pb & -> & Hb & ->).
    exists (x ++ pa), pb. rewrite app_assoc. auto.
Qed.

Lemma pack_units_range (units : list Z) (out : bytes) :
  pack_units units = Ok out -> Forall (fun u => 0 <= u <= 0xFFFF) units.
Proof.
  revert out. induction units as [|u units IH]; intros out H;
    cbn [pack_units] in H; [constructor|].
  unfold bind, pack_H in H.
  destruct ((0 <=? u) && (u <=? 0xFFFF)) eqn:Hu; [|discriminate].
  destruct (pack_units units) as [y|] eqn:Hy; [|discriminate].
  apply andb_prop in Hu. destruct Hu as [H0 H1].
  apply Z.leb_le in H0, H1.
  constructor; [lia|]. eapply IH. reflexivity.
Qed.

Lemma read_table_pack_entries (entries : list Entry) :
  forall (table hdr rest : bytes),
  pack_entries entries = Ok table ->
  read_table (List.length entries) (hdr ++ table ++ rest) (len hdr)
  = Ok (entries, len hdr + 4 * len entries).
Proof.
  induction entries as [|e entries IH]; intros table hdr rest H;
    cbn [pack_entries] in H.
  - cbn. f_equal. f_equal. unfold len. cbn. lia.
  - unfold bind in H.
    destruct (pack_HH (offset e) (length_ e)) as [x|] eqn:Hx; [|discriminate].
    destruct (pack_entries entries) as [y|] eqn:Hy; [|discriminate].
    inversion H; subst table.
    pose proof (pack_HH_length _ _ _ Hx) as Hlx.
    cbn [List.length read_table].
    replace (len hdr + 4 >? len (hdr ++ (x ++ y) ++ rest)) with false.
    2:{ symmetry. rewrite Z.gtb_ltb. apply Z.ltb_ge. unfold len.
        rewrite !length_app, Hlx. lia. }
    replace (len hdr + 4) with (len hdr + len x) by (unfold len; rewrite Hlx; lia).
    rewrite <- !app_assoc. rewrite slice_app_exact.
    rewrite (unpack_HH_pack _ _ _ Hx). cbn [bind].
    replace (len hdr + len x) with (len (hdr ++ x))
      by (unfold len; rewrite length_app; lia).
    rewrite app_assoc. rewrite (IH y (hdr ++ x) rest eq_refl). cbn [bind].
    destruct e as [o l]. cbn [offset length_]. f_equal. f_equal.
    unfold len. rewrite length_app, Hlx. cbn [List.length]. lia.
Qed.

Lemma serialize_msg_parts (entries : list Entry) (all_units : list Z)
  (out : bytes) :
  serialize_msg entries all_units = Ok out ->
  exists header table text,
    out = header ++ table ++ text /\
    List.length header = 4%nat /\
    pack_HH (4 + len table + len text) (len entries) = Ok header /\
    pack_entries entries = Ok table /\
    pack_units all_units = Ok text.
Proof.
  unfold serialize_msg, bind.
  destruct (match all_units with [] => Ok [] | _ => pack_units all_units end)
    as [text|] eqn:Ht; [|discriminate].
  destruct (pack_entries entries) as [table|] eqn:He; [|discriminate].
  destruct (pack_HH (4 + len table + len text) (len entries))
    as [header|] eqn:Hh; [|discriminate].
  intros H. inversion H. exists header, table, text.
  split; [reflexivity|]. split; [apply (pack_HH_length _ _ _ Hh)|].
  split; [exact Hh|]. split; [reflexivity|].
  destruct all_units; [inversion Ht; reflexivity|exact Ht].
Qed.

Lemma read_serialized (entries : list Entry) (all_units : list Z)
  (out : bytes) :
  serialize_msg entries all_units = Ok out ->
  read_msg_entries_and_textstart out = Ok (entries, 4 + 4 * len entries).
Proof.
  intros H.
  pose proof (serialize_msg_header _ _ _ H) as [Hdecl Hlen].
  destruct (serialize_msg_parts _ _ _ H)
    as (header & table & text & -> & Hl4 & Hh & Ht & Hu).
  unfold read_msg_entries_and_textstart.
  replace (len (header ++ table ++ text) <? 4) with false.
  2:{ symmetry. apply Z.ltb_ge. unfold len. rewrite length_app, Hl4. lia. }
  unfold declared_header in Hdecl. rewrite Hdecl. cbn [bind].
  unfold len at 1. rewrite Nat2Z.id.
  replace 4 with (len header) at 1 by (unfold len; rewrite Hl4; reflexivity).
  rewrite (read_table_pack_entries entries table header text Ht).
  unfold len at 1. rewrite Hl4. reflexivity.
Qed.

Lemma en_encode_blocks_loop_layout (blocks : list str) (d : Z) :
  forall (all_units : list Z) (entries : list Entry),
  EN.encode_blocks_loop blocks d all_units entries (len all_units)
  = (all_units ++ concat (map (fun b => EN._encode_text_to_units b d) blocks),
     entries
       ++ layout (len all_units)
            (map (fun b => EN._encode_text_to_units b d) blocks)).
Proof.
  induction blocks as [|b blocks IH]; intros us es;
    cbn [EN.encode_blocks_loop map concat layout].
  - rewrite !app_nil_r. reflexivity.
  - replace (len us + len (EN._encode_text_to_units b d))
      with (len (us ++ EN._encode_text_to_units b d))
      by (unfold len; rewrite length_app; lia).
    rewrite IH. rewrite <- !app_assoc. reflexivity.
Qed.

Lemma en_decode_entries_layout (tag : bool) (hdr : bytes) :
  forall (blocks_units : list (list Z)) (pre : list Z) (text : bytes),
  pack_units (pre ++ concat blocks_units) = Ok text ->
  EN.decode_entries (layout (len pre) blocks_units) (hdr ++ text) (len hdr)
    tag
  = decode_each blocks_units tag.
Proof.
  induction blocks_units as [|us rest IH]; intros pre text Hpack;
    [reflexivity|].
  cbn [layout EN.decode_entries decode_each offset length_ concat] in *.
  cbv zeta.
  pose proof Hpack as Hpack'.
  apply pack_units_app in Hpack'.
  destruct Hpack' as (ppre & ptail & Hpre & Htail & ->).
  apply pack_units_app in Htail.
  destruct Htail as (pus & prest & Hus & Hrest & ->).
  destruct (words_be_pack_units _ _ Hpre) as [_ Hlpre].
  destruct (words_be_pack_units _ _ Hus) as [_ Hlus].
  assert (Ha : len hdr + len pre * 2 = len (hdr ++ ppre)).
  { unfold len. rewrite length_app, Hlpre. lia. }
  assert (Hb : len hdr + (len pre + len us) * 2
               = len (hdr ++ ppre) + len pus).
  { unfold len. rewrite length_app, Hlpre, Hlus. lia. }
  replace ((len hdr <=? len hdr + len pre * 2) &&
           (len hdr + len pre * 2 <=? len hdr + (len pre + len us) * 2) &&
           (len hdr + (len pre + len us) * 2
            <=? len (hdr ++ ppre ++ pus ++ prest))) with true.
  2:{ symmetry. rewrite !andb_true_iff, !Z.leb_le. unfold len.
      rewrite !length_app, Hlpre, Hlus. lia. }
  cbn [negb]. rewrite Ha, Hb.
  replace (hdr ++ ppre ++ pus ++ prest) with ((hdr ++ ppre) ++ pus ++ prest)
    by (rewrite <- app_assoc; reflexivity).
  rewrite slice_app_exact, (units_of_raw_pack_units _ _ Hus). cbn [bind].
  destruct (EN._decode_units_to_text us tag) as [block|e]; [|reflexivity].
  cbn [bind].
  replace ((hdr ++ ppre) ++ pus ++ prest) with (hdr ++ (ppre ++ pus) ++ prest)
    by (rewrite <- !app_assoc; reflexivity).
  replace (len pre + len us) with (len (pre ++ us))
    by (unfold len; rewrite length_app; lia).
  rewrite (IH (pre ++ us) ((ppre ++ pus) ++ prest)); [reflexivity|].
  rewrite <- app_assoc. rewrite Hpack. rewrite <- !app_assoc. reflexivity.
Qed.

Lemma decode_each_Forall2 (tag : bool) (blocks_units : list (list Z)) :
  Forall (Forall (fun u => 0 <= u <= 0xFFFF)) blocks_units ->
  exists texts,
    decode_each blocks_units tag = Ok texts /\
    Forall2 (fun units t => EN._decode_units_to_text units tag = Ok t)
      blocks_units texts.
Proof.
  induction 1 as [|us rest Hus _ [texts [IH HF]]]; cbn [decode_each].
  - exists []. split; [reflexivity|constructor].
  - destruct (en_decode_units_total us tag Hus) as [t Ht].
    rewrite Ht, IH. cbn [bind]. exists (t :: texts).
    split; [reflexivity|constructor; assumption].
Qed.

Lemma Forall_concat_inv {A : Type} (P : A -> Prop) (ls : list (list A)) :
  Forall P (concat ls) -> Forall (Forall P) ls.
Proof.
  induction ls as [|l ls IH]; cbn [concat]; intros H; [constructor|].
  apply Forall_app in H. destruct H as [Hl Hls].
  constructor; [exact Hl|exact (IH Hls)].
Qed.

Lemma en_decode_encoded (blocks : list str) (d : Z) (tag : bool)
  (out : bytes) :
  EN.encode_blocks_to_msg blocks d = Ok out ->
  EN.decode_msg_to_blocks out tag
  = decode_each (map (fun b => EN._encode_text_to_units b d) blocks) tag /\
  Forall (Forall (fun u => 0 <= u <= 0xFFFF))
    (map (fun b => EN._encode_text_to_units b d) blocks).
Proof.
  intros H. unfold EN.encode_blocks_to_msg in H.
  pose proof (en_encode_blocks_loop_layout blocks d [] []) as Hloop.
  change (len (@nil Z)) with 0 in Hloop. rewrite Hloop in H.
  cbn [app] in H. clear Hloop.
  set (uss := map (fun b => EN._encode_text_to_units b d) blocks) in *.
  pose proof (read_serialized _ _ _ H) as Hread.
  destruct (serialize_msg_parts _ _ _ H)
    as (header & table & text & -> & Hl4 & _ & Ht & Hu).
  split.
  - unfold EN.decode_msg_to_blocks. rewrite Hread. cbn [bind].
    apply pack_entries_length in Ht.
    replace (4 + 4 * len (layout 0 uss)) with (len (header ++ table))
      by (unfold len in *; rewrite length_app, Hl4; lia).
    rewrite app_assoc.
    apply (en_decode_entries_layout tag (header ++ table) uss [] text).
    exact Hu.
  - apply Forall_concat_inv. eapply pack_units_range. exact Hu.
Qed.

Lemma Forall2_map_l {A B C : Type} (f : A -> B) (R : B -> C -> Prop)
  (l : list A) (l' : list C) :
  Forall2 R (map f l) l' -> Forall2 (fun a c => R (f a) c) l l'.
Proof.
  revert l'. induction l as [|a l IH]; intros l' H; inversion H; subst;
    constructor; auto.
Qed.

(** X1: a container written by [encode_blocks_to_msg] is read back by
    [decode_msg_to_blocks] block by block: decoding succeeds, returns as
    many blocks as were encoded, and each block is the decoding of the
    units encoded for it. The container layer itself loses nothing. *)
Theorem en_container_roundtrip (blocks : list str) (default_newline_code : Z)
  (tag_newlines : bool) (out : bytes) :
  EN.encode_blocks_to_msg blocks default_newline_code = Ok out ->
  exists texts,
    EN.decode_msg_to_blocks out tag_newlines = Ok texts /\
    Forall2
      (fun b t =>
         EN._decode_units_to_text
           (EN._encode_text_to_units b default_newline_code) tag_newlines
         = Ok t)
      blocks texts.
Proof.
  intros H.
  destruct (en_decode_encoded _ _ tag_newlines _ H) as [Hdec Hrange].
  destruct (decode_each_Forall2 tag_newlines _ Hrange) as (texts & Hd & HF).
  exists texts. split; [rewrite Hdec; exact Hd|].
  apply Forall2_map_l in HF. exact HF.
Qed.

Lemma en_container_roundtrip_witness :
  let blocks := [lit "Hi/n" ++ [LF]; lit "a"] in
  let out := [0; 20; 0; 2; 0; 0; 0; 3; 0; 3; 0; 1;
              0; 72; 0; 233; 128; 22; 0; 225] in
  EN.encode_blocks_to_msg blocks 0x8016 = Ok out /\
  exists texts,
    EN.decode_msg_to_blocks out true = Ok texts /\
    Forall2
      (fun b t =>
         EN._decode_units_to_text (EN._encode_text_to_units b 0x8016) true
         = Ok t)
      blocks texts.
Proof.
  intros blocks out. split; [reflexivity|].
  exact (en_container_roundtrip blocks 0x8016 true out eq_refl).
Defined.

Lemma decode_each_identity (blocks : list str) (d : Z) :
  forallb ascii_only blocks = true ->
  forallb newlines_all_tagged blocks = true ->
  decode_each (map (fun b => EN._encode_text_to_units b d) blocks) true
  = Ok blocks.
Proof.
  induction blocks as [|b blocks IH]; cbn [forallb map decode_each];
    intros Ha Hn; [reflexivity|].
  apply andb_prop in Ha. destruct Ha as [Ha Has].
  apply andb_prop in Hn. destruct Hn as [Hn Hns].
  rewrite (roundtrip_tagged_text b d (newlines_all_tagged_sound b Hn) Ha).
  cbn [bind]. rewrite (IH Has Hns). reflexivity.
Qed.

(** X2: blocks of ASCII text in which every line break carries its tag
    survive the container: if [encode_blocks_to_msg] returns the bytes of
    a container for them, [decode_msg_to_blocks] with tagging on returns
    exactly these blocks. *)
Theorem en_container_roundtrip_identity (blocks : list str)
  (default_newline_code : Z) (out : bytes) :
  forallb ascii_only blocks = true ->
  forallb newlines_all_tagged blocks = true ->
  EN.encode_blocks_to_msg blocks default_newline_code = Ok out ->
  EN.decode_msg_to_blocks out true = Ok blocks.
Proof.
  intros Ha Hn H.
  destruct (en_decode_encoded _ _ true _ H) as [Hdec _].
  rewrite Hdec. apply decode_each_identity; assumption.
Qed.

Lemma en_container_roundtrip_identity_witness :
  let blocks := [lit "Hi/n" ++ [LF] ++ lit "there/nn" ++ [LF]; lit "a"; []] in
  forallb ascii_only blocks = true /\
  forallb newlines_all_tagged blocks = true /\
  EN.encode_blocks_to_msg blocks 0x000A
  = Ok [0; 36; 0; 3; 0; 0; 0; 9; 0; 9; 0; 1; 0; 10; 0; 0;
        0; 72; 0; 233; 128; 22; 0; 244; 0; 232; 0; 229; 0; 242; 0; 229;
        0; 10; 0; 225] /\
  EN.decode_msg_to_blocks
    [0; 36; 0; 3; 0; 0; 0; 9; 0; 9; 0; 1; 0; 10; 0; 0;
     0; 72; 0; 233; 128; 22; 0; 244; 0; 232; 0; 229; 0; 242; 0; 229;
     0; 10; 0; 225] true
  = Ok blocks.
Proof.
  intros blocks. split; [reflexivity|]. split; [reflexivity|].
  split; [reflexivity|].
  exact (en_container_roundtrip_identity blocks 0x000A _ eq_refl eq_refl
           eq_refl).
Defined.

Lemma length_layout (off : Z) (blocks_units : list (list Z)) :
  len (layout off blocks_units) = len blocks_units.
Proof.
  revert off. unfold len.
  induction blocks_units as [|us rest IH]; intros off; cbn [layout List.length];
    [reflexivity|].
  specialize (IH (off + Z.of_nat (List.length us))). unfold len. lia.
Qed.

Lemma jp_encode_blocks_loop_layout (blocks : list str)
  (char_to_unit : dict str Z) (dn : Z) (policy : string) :
  forall (all_units : list Z) (entries : list Entry)
         (all_units' : list Z) (entries' : list Entry),
  JP.encode_blocks_loop blocks char_to_unit dn policy all_units entries
  = Ok (all_units', entries') ->
  exists blocks_units : list (list Z),
    Forall2 (fun b units => JP.encode_block b char_to_unit dn policy = Ok units)
      blocks blocks_units /\
    all_units' = all_units ++ concat blocks_units /\
    entries' = entries ++ layout (len all_units) blocks_units.
Proof.
  induction blocks as [|b blocks IH]; intros us es us' es' H;
    cbn [JP.encode_blocks_loop] in H.
  - inversion H. subst. exists []. cbn [concat layout].
    rewrite !app_nil_r. split; [constructor|auto].
  - unfold bind in H.
    destruct (JP.encode_block b char_to_unit dn policy) as [units|] eqn:Hb;
      [|discriminate].
    apply IH in H. destruct H as (bus & HF & -> & ->).
    exists (units :: bus). split; [constructor; assumption|].
    cbn [concat layout]. rewrite <- !app_assoc. cbn [app].
    replace (len (us ++ units)) with (len us + len units)
      by (unfold len; rewrite length_app; lia).
    split; reflexivity.
Qed.

(** X3: the block table of a container written by either encoder, read
    back as the decoders read it, is the table of the encoded blocks laid
    one after the other: the first block starts at code unit 0, each next
    block starts where the previous one ends, and the text area starts
    right after the table. The encoders never write overlapping blocks or
    gaps. *)
Theorem written_block_table_is_contiguous (blocks : list str)
  (default_newline : Z) (char_to_unit : dict str Z) (policy : string) :
  (forall out : bytes,
      EN.encode_blocks_to_msg blocks default_newline = Ok out ->
      read_msg_entries_and_textstart out
      = Ok (layout 0
              (map (fun b => EN._encode_text_to_units b default_newline)
                 blocks),
            4 + 4 * len blocks)) /\
  (forall out : bytes,
      JP.encode_blocks_with_map blocks char_to_unit default_newline policy
      = Ok out ->
      exists blocks_units : list (list Z),
        Forall2
          (fun b units =>
             JP.encode_block b char_to_unit default_newline policy = Ok units)
          blocks blocks_units /\
        read_msg_entries_and_textstart out
        = Ok (layout 0 blocks_units, 4 + 4 * len blocks)).
Proof.
  split; intros out H.
  - unfold EN.encode_blocks_to_msg in H.
    pose proof (en_encode_blocks_loop_layout blocks default_newline [] [])
      as Hloop.
    change (len (@nil Z)) with 0 in Hloop. rewrite Hloop in H.
    cbn [app] in H. apply read_serialized in H. rewrite H.
    rewrite length_layout. unfold len. rewrite length_map. reflexivity.
  - unfold JP.encode_blocks_with_map, bind in H.
    destruct (JP.encode_blocks_loop blocks char_to_unit default_newline
                policy [] []) as [[all_units entries]|] eqn:Hl;
      [|discriminate].
    apply jp_encode_blocks_loop_layout in Hl.
    destruct Hl as (bus & HF & -> & ->). cbn [app] in H.
    exists bus. split; [exact HF|].
    apply read_serialized in H. rewrite H. rewrite length_layout.
    change (len (@nil Z)) with 0.
    unfold len. rewrite (Forall2_length HF). reflexivity.
Qed.

Lemma written_block_table_is_contiguous_witness :
  EN.encode_blocks_to_msg [lit "Hi"; lit "a"; lit "xyz"] 0x8016
  = Ok [0; 28; 0; 3; 0; 0; 0; 2; 0; 2; 0; 1; 0; 3; 0; 3;
        0; 72; 0; 233; 0; 225; 0; 248; 0; 249; 0; 250] /\
  read_msg_entries_and_textstart
    [0; 28; 0; 3; 0; 0; 0; 2; 0; 2; 0; 1; 0; 3; 0; 3;
     0; 72; 0; 233; 0; 225; 0; 248; 0; 249; 0; 250]
  = Ok ([mkEntry 0 2; mkEntry 2 1; mkEntry 3 3], 16).
Proof.
  split; [reflexivity|].
  exact (proj1 (written_block_table_is_contiguous
                  [lit "Hi"; lit "a"; lit "xyz"] 0x8016 []
                  JP.ENCODE_UNKNOWN_POLICY) _ eq_refl).
Defined.

Lemma encode_blocks_to_msg_succeeds_witness :
  Forall (fun b => Forall (fun u => 0 <= u <= 0xFFFF)
                     (EN._encode_text_to_units b 0x8016))
    [lit "Hi"; lit "a"] /\
  4 + 4 * len [lit "Hi"; lit "a"]
  + 2 * total_units
          (map (fun b => EN._encode_text_to_units b 0x8016) [lit "Hi"; lit "a"])
  <= 0xFFFF /\
  exists out, EN.encode_blocks_to_msg [lit "Hi"; lit "a"] 0x8016 = Ok out.
Proof.
  assert (H1 : Forall (fun b => Forall (fun u => 0 <= u <= 0xFFFF)
                                  (EN._encode_text_to_units b 0x8016))
                 [lit "Hi"; lit "a"]).
  { apply Forall_forall. intros b Hb. cbn [In] in Hb.
    destruct Hb as [<- | [<- | []]]; apply Forall_forall; intros u Hu;
      vm_compute in Hu; intuition lia. }
  assert (H2 : 4 + 4 * len [lit "Hi"; lit "a"]
               + 2 * total_units
                       (map (fun b => EN._encode_text_to_units b 0x8016)
                          [lit "Hi"; lit "a"]) <= 0xFFFF).
  { vm_compute. discriminate. }
  split; [exact H1|]. split; [exact H2|].
  exact (encode_blocks_to_msg_succeeds [lit "Hi"; lit "a"] 0x8016 H1 H2).
Defined.

Lemma en_decode_checks_block_bounds_witness :
  octets short_container /\
  read_msg_entries_and_textstart short_container = Ok ([mkEntry 0 2], 8) /\
  Exists (fun e => ~ in_bounds short_container 8 e) [mkEntry 0 2] /\
  EN.decode_msg_to_blocks short_container true
  = Err (ValueError "Invalid block offset/length").
Proof.
  assert (Ho : octets short_container).
  { unfold octets, short_container. repeat constructor; lia. }
  assert (Hex : Exists (fun e => ~ in_bounds short_container 8 e)
                  [mkEntry 0 2]).
  { constructor. unfold in_bounds. cbn. intros [_ H]. lia. }
  split; [exact Ho|]. split; [reflexivity|]. split; [exact Hex|].
  exact (proj1 (en_decode_checks_block_bounds short_container true
                  [mkEntry 0 2] 8 Ho eq_refl) Hex).
Defined.

(** ** Reading the header and the block table (both tools) *)

Lemma unpack_HH_slice (data : bytes) (off : Z) :
  0 <= off -> off + 4 <= len data ->
  exists a b c d,
    slice data off (off + 4) = [a; b; c; d] /\
    unpack_HH (slice data off (off + 4)) = Ok (a * 256 + b, c * 256 + d).
Proof.
  intros H0 H1.
  pose proof (length_slice data off (off + 4) H0 ltac:(lia) H1) as Hl.
  replace (Z.to_nat (off + 4 - off)) with 4%nat in Hl by lia.
  destruct (slice data off (off + 4)) as [|a [|b [|c [|d [|]]]]];
    try discriminate.
  exists a, b, c, d. split; reflexivity.
Qed.

Lemma read_table_complete (data : bytes) (count : nat) :
  forall off : Z,
  0 <= off -> off + 4 * Z.of_nat count <= len data ->
  exists entries,
    read_table count data off = Ok (entries, off + 4 * Z.of_nat count) /\
    List.length entries = count.
Proof.
  induction count as [|count IH]; intros off H0 H1.
  - exists []. cbn [read_table]. split; [|reflexivity].
    f_equal. f_equal. lia.
  - cbn [read_table]. rewrite Z.gtb_ltb.
    destruct (Z.ltb_spec (len data) (off + 4)); [lia|].
    destruct (unpack_HH_slice data off H0 ltac:(lia)) as (a & b & c & d & _ & ->).
    cbn [bind].
    destruct (IH (off + 4) ltac:(lia) ltac:(lia)) as (entries & -> & Hl).
    cbn [bind]. exists (mkEntry (a * 256 + b) (c * 256 + d) :: entries).
    split; [|cbn [List.length]; rewrite Hl; reflexivity].
    f_equal. f_equal. lia.
Qed.

Lemma read_table_truncated (data : bytes) (count : nat) :
  forall off : Z,
  0 <= off -> off <= len data -> len data < off + 4 * Z.of_nat count ->
  read_table count data off = Err (ValueError "Truncated block table").
Proof.
  induction count as [|count IH]; intros off H0 H1 H2; [lia|].
  cbn [read_table]. rewrite Z.gtb_ltb.
  destruct (Z.ltb_spec (len data) (off + 4)); [reflexivity|].
  destruct (unpack_HH_slice data off H0 ltac:(lia)) as (a & b & c & d & _ & ->).
  cbn [bind]. rewrite IH by lia. reflexivity.
Qed.

(** X6: what reading the header and the block table gives, on the bytes of
    any file. A file of fewer than 4 bytes is refused as too small. In a
    longer file the block count is the second 16-bit word: when the file
    is too short for that many 4-byte table entries, reading fails with
    "Truncated block table"; otherwise it returns exactly that many
    entries and the text area starts at byte 4 + 4 x count. *)
Theorem header_parse_outcomes (data : bytes) :
  octets data ->
  (len data < 4 ->
   read_msg_entries_and_textstart data
   = Err (ValueError "File too small to be a valid MSG")) /\
  (4 <= len data ->
   exists size count,
     declared_header data = Ok (size, count) /\ 0 <= count <= 0xFFFF /\
     (len data < 4 + 4 * count ->
      read_msg_entries_and_textstart data
      = Err (ValueError "Truncated block table")) /\
     (4 + 4 * count <= len data ->
      exists entries,
        read_msg_entries_and_textstart data = Ok (entries, 4 + 4 * count) /\
        len entries = count)).
Proof.
  intros Ho. unfold read_msg_entries_and_textstart. split; intros Hlen.
  - destruct (Z.ltb_spec (len data) 4); [reflexivity|lia].
  - destruct (unpack_HH_slice data 0 ltac:(lia) ltac:(lia))
      as (a & b & c & d & Hs & Hu).
    cbn [Z.add] in Hs, Hu.
    exists (a * 256 + b), (c * 256 + d). unfold declared_header.
    assert (Hr : 0 <= c * 256 + d <= 0xFFFF).
    { pose proof (unpack_HH_range _ _ _ (Forall_slice _ data 0 4 Ho) Hu).
      tauto. }
    split; [exact Hu|]. split; [exact Hr|].
    destruct (Z.ltb_spec (len data) 4); [lia|]. rewrite Hu. cbn [bind].
    split; intros Hc.
    + apply read_table_truncated; lia.
    + destruct (read_table_complete data (Z.to_nat (c * 256 + d)) 4
                  ltac:(lia) ltac:(lia)) as (entries & Hread & Hl).
      exists entries. rewrite Hread. split.
      * f_equal. f_equal. lia.
      * unfold len. rewrite Hl. lia.
Qed.

Lemma header_parse_outcomes_witness :
  octets [0; 0; 0; 2; 0; 0; 0; 1] /\
  exists size count,
    declared_header [0; 0; 0; 2; 0; 0; 0; 1] = Ok (size, count) /\
    0 <= count <= 0xFFFF /\
    (len [0; 0; 0; 2; 0; 0; 0; 1] < 4 + 4 * count ->
     read_msg_entries_and_textstart [0; 0; 0; 2; 0; 0; 0; 1]
     = Err (ValueError "Truncated block table")) /\
    (4 + 4 * count <= len [0; 0; 0; 2; 0; 0; 0; 1] ->
     exists entries,
       read_msg_entries_and_textstart [0; 0; 0; 2; 0; 0; 0; 1]
       = Ok (entries, 4 + 4 * count) /\
       len entries = count).
Proof.
  assert (Ho : octets [0; 0; 0; 2; 0; 0; 0; 1]).
  { unfold octets. repeat constructor; lia. }
  split; [exact Ho|].
  apply (proj2 (header_parse_outcomes [0; 0; 0; 2; 0; 0; 0; 1] Ho)).
  vm_compute. discriminate.
Defined.

Lemma slice_past_two {A : Type} (a b a' b' : A) (rest : list A) (lo hi : Z) :
  2 <= lo -> slice (a :: b :: rest) lo hi = slice (a' :: b' :: rest) lo hi.
Proof.
  intros H. unfold slice.
  replace (Z.to_nat lo) with (S (S (Z.to_nat (lo - 2)))) by lia.
  reflexivity.
Qed.

Lemma read_table_past_two (a b a' b' : Z) (rest : bytes) (count : nat) :
  forall off : Z, 2 <= off ->
  read_table count (a :: b :: rest) off
  = read_table count (a' :: b' :: rest) off.
Proof.
  induction count as [|count IH]; intros off H; [reflexivity|].
  cbn [read_table].
  change (len (a :: b :: rest)) with (len (a' :: b' :: rest)).
  rewrite (slice_past_two a b a' b' rest off (off + 4) H).
  rewrite (IH (off + 4)) by lia. reflexivity.
Qed.

Lemma read_header_past_two (a b a' b' : Z) (rest : bytes) :
  read_msg_entries_and_textstart (a :: b :: rest)
  = read_msg_entries_and_textstart (a' :: b' :: rest).
Proof.
  unfold read_msg_entries_and_textstart.
  change (len (a :: b :: rest)) with (len (a' :: b' :: rest)).
  destruct (len (a' :: b' :: rest) <? 4); [reflexivity|].
  destruct rest as [|c [|d rest]]; [reflexivity|reflexivity|].
  unfold slice. cbn [Z.sub Z.to_nat Z.opp Z.add Pos.to_nat Pos.iter_op
                     Nat.add skipn firstn unpack_HH bind].
  apply read_table_past_two. lia.
Qed.

Lemma en_decode_entries_past_two (a b a' b' : Z) (rest : bytes)
  (text_start : Z) (tag : bool) (entries : list Entry) :
  2 <= text_start ->
  EN.decode_entries entries (a :: b :: rest) text_start tag
  = EN.decode_entries entries (a' :: b' :: rest) text_start tag.
Proof.
  intros Hts. induction entries as [|e entries IH]; [reflexivity|].
  cbn [EN.decode_entries]. cbv zeta.
  change (len (a :: b :: rest)) with (len (a' :: b' :: rest)).
  destruct (Z.leb_spec text_start (text_start + offset e * 2)) as [Hs|Hs];
    [|reflexivity].
  rewrite (slice_past_two a b a' b' rest (text_start + offset e * 2)
             (text_start + (offset e + length_ e) * 2) ltac:(lia)).
  rewrite IH. reflexivity.
Qed.

Lemma jp_blocks_units_past_two (a b a' b' : Z) (rest : bytes)
  (text_start : Z) (entries : list Entry) :
  2 <= text_start -> Forall (fun e => 0 <= offset e) entries ->
  JP.blocks_units entries (a :: b :: rest) text_start
  = JP.blocks_units entries (a' :: b' :: rest) text_start.
Proof.
  intros Hts. induction 1 as [|e entries He _ IH]; [reflexivity|].
  cbn [JP.blocks_units]. cbv zeta.
  rewrite (slice_past_two a b a' b' rest (text_start + offset e * 2)
             (text_start + (offset e + length_ e) * 2) ltac:(lia)).
  rewrite IH. reflexivity.
Qed.

(** X7: the first header field, the declared total size, is never used when
    a file is read: two files that differ only in their first two bytes
    decode to the same result (the same blocks or the same error), in the
    decoder of duomsgEN.pyw and in the block reader of the trainer. *)
Theorem declared_size_is_ignored (a b a' b' : Z) (rest : bytes)
  (tag_newlines : bool) :
  octets rest ->
  EN.decode_msg_to_blocks (a :: b :: rest) tag_newlines
  = EN.decode_msg_to_blocks (a' :: b' :: rest) tag_newlines /\
  JP._read_all_blocks_units (a :: b :: rest)
  = JP._read_all_blocks_units (a' :: b' :: rest).
Proof.
  intros Ho.
  unfold EN.decode_msg_to_blocks, JP._read_all_blocks_units.
  rewrite (read_header_past_two a b a' b' rest).
  destruct (read_msg_entries_and_textstart (a' :: b' :: rest))
    as [[entries text_start]|e] eqn:Hr; [|split; reflexivity].
  cbn [bind].
  assert (Hts : 4 <= text_start /\ Forall (fun e => 0 <= offset e) entries).
  { unfold read_msg_entries_and_textstart, bind in Hr.
    destruct (len (a' :: b' :: rest) <? 4); [discriminate|].
    destruct rest as [|c [|d rest]]; try discriminate.
    unfold slice in Hr.
    cbn [Z.sub Z.to_nat Z.opp Z.add Pos.to_nat Pos.iter_op Nat.add skipn
         firstn unpack_HH] in Hr.
    assert (Hrest : forall n off es off',
               4 <= off ->
               read_table n (a' :: b' :: c :: d :: rest) off = Ok (es, off') ->
               4 <= off' /\ Forall (fun e => 0 <= offset e) es).
    { induction n as [|n IH]; intros off es off' Hoff H; cbn [read_table] in H.
      - inversion H; subst. split; [lia|constructor].
      - destruct (off + 4 >? len (a' :: b' :: c :: d :: rest));
          [discriminate|].
        unfold bind in H.
        destruct (unpack_HH (slice (a' :: b' :: c :: d :: rest) off (off + 4)))
          as [[o l]|] eqn:Hu; [|discriminate].
        destruct (read_table n (a' :: b' :: c :: d :: rest) (off + 4))
          as [[es' off'']|] eqn:Hn; [|discriminate].
        inversion H; subst.
        destruct (IH (off + 4) es' off' ltac:(lia) Hn) as [H4 HF].
        split; [exact H4|]. constructor; [|exact HF]. cbn [offset].
        rewrite (slice_past_two a' b' 0 0 _ off (off + 4) ltac:(lia)) in Hu.
        assert (Ho' : octets (0 :: 0 :: c :: d :: rest)).
        { constructor; [lia|]. constructor; [lia|exact Ho]. }
        pose proof (unpack_HH_range _ _ _ (Forall_slice _ _ off (off + 4) Ho')
                      Hu). lia. }
    eapply Hrest; [|exact Hr]. lia. }
  destruct Hts as [Hts Hoff]. split.
  - apply en_decode_entries_past_two. lia.
  - apply jp_blocks_units_past_two; [lia|exact Hoff].
Qed.

Lemma declared_size_is_ignored_witness :
  octets [0; 1; 0; 0; 0; 1; 0; 0x48] /\
  EN.decode_msg_to_blocks (0 :: 10 :: [0; 1; 0; 0; 0; 1; 0; 0x48]) true
  = EN.decode_msg_to_blocks (255 :: 255 :: [0; 1; 0; 0; 0; 1; 0; 0x48]) true
  /\
  EN.decode_msg_to_blocks (255 :: 255 :: [0; 1; 0; 0; 0; 1; 0; 0x48]) true
  = Ok [lit "H"].
Proof.
  assert (Ho : octets [0; 1; 0; 0; 0; 1; 0; 0x48]).
  { unfold octets. repeat constructor; lia. }
  split; [exact Ho|]. split; [|reflexivity].
  exact (proj1 (declared_size_is_ignored 0 10 255 255
                  [0; 1; 0; 0; 0; 1; 0; 0x48] true Ho)).
Defined.

(** ** The Latin transcoder, the other way round (duomsgEN.pyw) *)

Lemma encode_app_tagged (a b : str) (d : Z) :
  tagged_text a -> tagged_text b ->
  EN._encode_text_to_units (a ++ b) d
  = EN._encode_text_to_units a d ++ EN._encode_text_to_units b d.
Proof.
  intros Ha Hb. induction Ha as [|c t Hc Ht IH|t Ht IH|t Ht IH].
  - reflexivity.
  - cbn [app]. rewrite !encode_cons_char; auto using tagged_text_app.
    rewrite IH. reflexivity.
  - rewrite <- app_assoc. cbn [app].
    rewrite !encode_cons_tag_8016, IH. reflexivity.
  - rewrite <- app_assoc. cbn [app].
    rewrite !encode_cons_tag_000A, IH. reflexivity.
Qed.

Lemma canonical_units_decode (units : list Z) (d : Z) :
  forallb canonical_unit units = true ->
  exists t,
    EN._decode_units_to_text units true = Ok t /\
    tagged_text t /\ ascii_only t = true /\
    EN._encode_text_to_units t d = units.
Proof.
  induction units as [|u units IH]; cbn [forallb]; intros H.
  - exists []. repeat split; constructor.
  - apply andb_prop in H. destruct H as [Hu Hrest].
    destruct (IH Hrest) as (t & Hdec & Htag & Hasc & Henc).
    cbn [EN._decode_units_to_text]. rewrite Hdec.
    unfold EN.decode_unit, EN.NEWLINE_000A, EN.NEWLINE_8016.
    destruct (Z.eqb_spec u 0xA) as [-> | Ha].
    { cbn [bind]. exists ((EN.NL_TAG_000A ++ [LF]) ++ t).
      rewrite <- app_assoc. cbn [app].
      split; [reflexivity|]. split; [apply tagged_000A; exact Htag|].
      split; [exact Hasc|]. rewrite encode_cons_tag_000A, Henc. reflexivity. }
    destruct (Z.eqb_spec u 0x8016) as [-> | H8].
    { cbn [bind]. exists ((EN.NL_TAG_8016 ++ [LF]) ++ t).
      rewrite <- app_assoc. cbn [app].
      split; [reflexivity|]. split; [apply tagged_8016; exact Htag|].
      split; [exact Hasc|]. rewrite encode_cons_tag_8016, Henc. reflexivity. }
    unfold canonical_unit in Hu.
    destruct (Z.eqb_spec u 0xA) as [|_]; [contradiction|].
    destruct (Z.eqb_spec u 0x8016) as [|_]; [contradiction|].
    cbn [orb] in Hu. unfold chr. rewrite Z.geb_leb.
    destruct (Z.leb_spec 0x80 u) as [Hhi | Hlo].
    + assert (Hr : 0xE1 <= u <= 0xFA).
      { revert Hu. zcases; cbn [andb orb]; intros Hu; try discriminate; lia. }
      replace ((0 <=? u - 0x80) && (u - 0x80 <? 0x110000)) with true
        by (symmetry; rewrite andb_true_iff, Z.leb_le, Z.ltb_lt; lia).
      cbn [bind app]. exists ((u - 0x80) :: t).
      split; [reflexivity|].
      assert (Hne : u - 0x80 <> LF) by (unfold LF; lia).
      split; [apply tagged_char; assumption|]. split.
      * cbn [ascii_only forallb]. fold (ascii_only t). rewrite Hasc.
        rewrite andb_true_r, andb_true_iff, Z.leb_le, Z.ltb_lt. lia.
      * rewrite encode_cons_char by assumption. rewrite Henc.
        replace ((0x61 <=? u - 0x80) && (u - 0x80 <=? 0x7A)) with true
          by (symmetry; rewrite andb_true_iff, !Z.leb_le; lia).
        f_equal. lia.
    + assert (Hr : 0 <= u < 0x61 \/ 0x7B <= u < 0x80).
      { revert Hu. zcases; cbn [andb orb]; intros Hu; try discriminate; lia. }
      replace ((0 <=? u) && (u <? 0x110000)) with true
        by (symmetry; rewrite andb_true_iff, Z.leb_le, Z.ltb_lt; lia).
      cbn [bind app]. exists (u :: t).
      split; [reflexivity|].
      assert (Hne : u <> LF) by (unfold LF; lia).
      split; [apply tagged_char; assumption|]. split.
      * cbn [ascii_only forallb]. fold (ascii_only t). rewrite Hasc.
        rewrite andb_true_r, andb_true_iff, Z.leb_le, Z.ltb_lt. lia.
      * rewrite encode_cons_char by assumption. rewrite Henc.
        replace ((0x61 <=? u) && (u <=? 0x7A)) with false; [reflexivity|].
        symmetry. rewrite andb_false_iff, !Z.leb_gt. lia.
Qed.

(** X8: units that the Latin encoder itself writes (newline codes, ASCII
    values other than lowercase letters, lowercase letters plus 0x80) are
    restored by decoding with tags and encoding again, whatever the
    default newline code: [_encode_text_to_units(_decode_units_to_text(us))
    == us]. *)
Theorem latin_units_roundtrip (units : list Z) (default_newline_code : Z) :
  forallb canonical_unit units = true ->
  exists t,
    EN._decode_units_to_text units true = Ok t /\
    EN._encode_text_to_units t default_newline_code = units.
Proof.
  intros H.
  destruct (canonical_units_decode units default_newline_code H)
    as (t & Hd & _ & _ & He).
  exists t. split; assumption.
Qed.

Lemma latin_units_roundtrip_witness :
  forallb canonical_unit [0x48; 0xE5; 0x8016; 0x2F; 0x0A; 0x7E] = true /\
  exists t,
    EN._decode_units_to_text [0x48; 0xE5; 0x8016; 0x2F; 0x0A; 0x7E] true
    = Ok t /\
    EN._encode_text_to_units t 0x8016 = [0x48; 0xE5; 0x8016; 0x2F; 0x0A; 0x7E].
Proof.
  split; [reflexivity|].
  exact (latin_units_roundtrip [0x48; 0xE5; 0x8016; 0x2F; 0x0A; 0x7E] 0x8016
           eq_refl).
Defined.

(** X9: on texts without bare line break the Latin encoder works piece by
    piece: the units of a concatenation are the units of the first text
    followed by the units of the second. (With a bare line break this
    fails: "/n" then a line break encode apart as three units, together as
    the one code 0x8016.) *)
Theorem encode_concatenation (a b : str) (default_newline_code : Z) :
  newlines_all_tagged a = true -> newlines_all_tagged b = true ->
  EN._encode_text_to_units (a ++ b) default_newline_code
  = EN._encode_text_to_units a default_newline_code
      ++ EN._encode_text_to_units b default_newline_code.
Proof.
  intros Ha Hb.
  apply encode_app_tagged; apply newlines_all_tagged_sound; assumption.
Qed.

Lemma encode_concatenation_witness :
  newlines_all_tagged (lit "a/") = true /\
  newlines_all_tagged (lit "n/nn" ++ [LF]) = true /\
  EN._encode_text_to_units (lit "a/" ++ (lit "n/nn" ++ [LF])) 0x8016
  = EN._encode_text_to_units (lit "a/") 0x8016
      ++ EN._encode_text_to_units (lit "n/nn" ++ [LF]) 0x8016.
Proof.
  split; [reflexivity|]. split; [reflexivity|].
  exact (encode_concatenation (lit "a/") (lit "n/nn" ++ [LF]) 0x8016
           eq_refl eq_refl).
Defined.

(** ** The text document, in general (both tools) *)

Lemma plain_block_inv (b : str) :
  plain_block b = true ->
  forallb (fun c => negb (is_linebreak c) || (c =? LF)) b = true /\
  forallb (fun line => negb (str_eqb (strip line) EN.BLOCK_SEPARATOR))
    (lines_from [] b) = true.
Proof.
  unfold plain_block. intros H. apply orb_prop in H. destruct H as [H | H].
  - destruct b; [|discriminate]. split; reflexivity.
  - apply clean_block_inv in H. tauto.
Qed.

Lemma splitlines_joined_plain (bs : list str) :
  forallb plain_block bs = true ->
  splitlines
    (concat (map (fun b => b ++ [LF] ++ EN.BLOCK_SEPARATOR ++ [LF]) bs))
  = concat (map (fun b => lines_from [] b ++ [EN.BLOCK_SEPARATOR]) bs).
Proof.
  unfold splitlines. induction bs as [|b bs IH]; intros H; [reflexivity|].
  cbn [forallb] in H. apply andb_prop in H. destruct H as [Hb Hbs].
  apply plain_block_inv in Hb. destruct Hb as (Hlf & _).
  cbn [map concat]. rewrite <- !app_assoc. cbn [app] in IH |- *.
  rewrite splitlines_from_app_LF by exact Hlf.
  rewrite splitlines_from_app_LF by reflexivity.
  rewrite IH by exact Hbs. reflexivity.
Qed.

Lemma split_loop_joined_plain (bs parts : list str) :
  forallb plain_block bs = true ->
  EN.split_loop
    (concat (map (fun b => lines_from [] b ++ [EN.BLOCK_SEPARATOR]) bs))
    parts []
  = (parts ++ bs, []).
Proof.
  revert parts. induction bs as [|b bs IH]; intros parts H.
  - simpl. rewrite app_nil_r. reflexivity.
  - cbn [forallb] in H. apply andb_prop in H. destruct H as [Hb Hbs].
    apply plain_block_inv in Hb. destruct Hb as (_ & Hsep).
    cbn [map concat]. rewrite <- app_assoc.
    rewrite split_loop_plain by exact Hsep.
    cbn [app]. rewrite split_loop_separator, join_lines_from.
    rewrite IH by exact Hbs. rewrite <- app_assoc. reflexivity.
Qed.

Lemma split_made_txt (bs : list str) :
  bs <> [] ->
  forallb plain_block (map rstrip_nl bs) = true ->
  EN.split_txt_into_blocks (EN.make_txt_from_blocks bs)
  = without_final_empty (map rstrip_nl bs).
Proof.
  intros Hne Hplain.
  unfold EN.make_txt_from_blocks, EN.split_txt_into_blocks.
  assert (Hne' : map rstrip_nl bs <> []) by (destruct bs; [contradiction|discriminate]).
  revert Hplain Hne'. generalize (map rstrip_nl bs). clear bs Hne.
  intros bs Hplain Hne.
  rewrite join_then_sep by exact Hne.
  rewrite splitlines_joined_plain by exact Hplain.
  rewrite split_loop_joined_plain by exact Hplain.
  cbn [app EN.is_empty negb orb]. unfold without_final_empty.
  destruct bs as [|b0 bs0]; [contradiction|]. reflexivity.
Qed.

(** X10: what comes back from a document. For a non-empty list of blocks
    that, once their trailing line breaks are removed, are each empty or
    free of other line boundaries and of sentinel lines, splitting the
    document made from them returns the blocks without their trailing line
    breaks, and without the last one when it is empty and not alone. *)
Theorem split_made_document (bs : list str) :
  bs <> [] ->
  forallb plain_block (map rstrip_nl bs) = true ->
  EN.split_txt_into_blocks (EN.make_txt_from_blocks bs)
  = without_final_empty (map rstrip_nl bs).
Proof. exact (split_made_txt bs). Qed.

Lemma split_made_document_witness :
  let bs := [lit "a" ++ [LF; LF]; []; lit "b"; [LF]] in
  bs <> [] /\
  forallb plain_block (map rstrip_nl bs) = true /\
  EN.split_txt_into_blocks (EN.make_txt_from_blocks bs)
  = [lit "a"; []; lit "b"] /\
  EN.split_txt_into_blocks (EN.make_txt_from_blocks bs)
  = without_final_empty (map rstrip_nl bs).
Proof.
  intros bs. split; [discriminate|]. split; [reflexivity|].
  split; [reflexivity|].
  apply (split_made_document bs); [discriminate|reflexivity].
Defined.

Lemma without_final_empty_clean (bs : list str) :
  forallb clean_block bs = true -> without_final_empty bs = bs.
Proof.
  intros Hclean. unfold without_final_empty.
  destruct bs as [|b0 bs0] eqn:Hbs; [reflexivity|]. rewrite <- Hbs in *.
  assert (Hne : bs <> []) by (subst; discriminate).
  replace (str_eqb (last bs []) []) with false; [reflexivity|].
  symmetry. apply not_true_is_false. intros Hl. apply str_eqb_eq in Hl.
  destruct (exists_last Hne) as (bs' & x & Hx).
  rewrite Hx, last_last in Hl. subst x.
  rewrite Hx, forallb_app in Hclean.
  apply andb_prop in Hclean. destruct Hclean as [_ Hc]. discriminate.
Qed.

Lemma clean_blocks_plain (bs : list str) :
  forallb clean_block bs = true -> forallb plain_block bs = true.
Proof.
  induction bs as [|b bs IH]; cbn [forallb]; intros H; [reflexivity|].
  apply andb_prop in H. destruct H as [Hb Hbs].
  unfold plain_block at 1. rewrite Hb, orb_true_r, (IH Hbs). reflexivity.
Qed.

(** X11: an unedited round trip through the text document reproduces the
    file. For a non-empty list of ASCII blocks that are non-empty, do not
    end in a line break, carry a tag before each line break and have no
    other line boundary and no sentinel line: if [encode_blocks_to_msg]
    with the default newline code returns the bytes of a container, the
    text that "MSG to TXT" makes of these bytes is turned by "TXT to MSG"
    into the same bytes. *)
Theorem en_document_roundtrip (blocks : list str) (out : bytes) :
  blocks <> [] ->
  forallb ascii_only blocks = true ->
  forallb newlines_all_tagged blocks = true ->
  forallb clean_block blocks = true ->
  EN.encode_blocks_to_msg blocks EN.DEFAULT_ENCODE_NEWLINE = Ok out ->
  exists doc,
    EN.decode_msg_file_to_txt out = Ok doc /\
    EN.encode_txt_file_to_msg doc = Ok out.
Proof.
  intros Hne Ha Hn Hc H.
  exists (EN.make_txt_from_blocks blocks).
  unfold EN.decode_msg_file_to_txt, EN.encode_txt_file_to_msg.
  destruct (en_decode_encoded _ _ EN.TAG_NEWLINES _ H) as [Hdec _].
  rewrite Hdec. change EN.TAG_NEWLINES with true.
  rewrite decode_each_identity by assumption. cbn [bind].
  split; [reflexivity|].
  rewrite split_made_txt; rewrite ?map_rstrip_nl_clean by exact Hc;
    auto using clean_blocks_plain.
  rewrite without_final_empty_clean by exact Hc. exact H.
Qed.

Lemma en_document_roundtrip_witness :
  let blocks := [lit "Hi/n" ++ [LF] ++ lit "there"; lit "## #"] in
  blocks <> [] /\
  forallb ascii_only blocks = true /\
  forallb newlines_all_tagged blocks = true /\
  forallb clean_block blocks = true /\
  exists out,
    EN.encode_blocks_to_msg blocks EN.DEFAULT_ENCODE_NEWLINE = Ok out /\
    exists doc,
      EN.decode_msg_file_to_txt out = Ok doc /\
      EN.encode_txt_file_to_msg doc = Ok out.
Proof.
  intros blocks. split; [discriminate|]. split; [reflexivity|].
  split; [reflexivity|]. split; [reflexivity|].
  eexists. split; [reflexivity|].
  apply (en_document_roundtrip blocks); try reflexivity. discriminate.
Defined.

Lemma rstrip_nl_app_LF (b : str) :
  b <> [] -> last b 0 <> LF -> rstrip_nl (b ++ [LF]) = b.
Proof.
  intros Hne Hlast. unfold rstrip_nl. rewrite rev_app_distr.
  cbn [rev app lstrip_char]. rewrite Z.eqb_refl.
  apply (rstrip_nl_clean b Hne Hlast).
Qed.

Lemma tagged_text_plain_chars (s : str) :
  Forall (fun c => c <> LF) s -> tagged_text s.
Proof. induction 1; constructor; assumption. Qed.

(** X12: a line break at the very end of a block does not survive the
    text document. For an ASCII text [t] without bare line break, and
    either tag: the block [t], tag, line break encodes with the newline
    code as its last unit and is written by "MSG to TXT" without its final
    line break; "TXT to MSG" then encodes the block [t], tag, whose units
    end in those of the characters of the tag ('/' is 0x2F, 'n' is 0xEE)
    where the newline code was. *)
Theorem trailing_newline_code_is_lost (t tag : str) (code : Z) (out : bytes) :
  (tag = EN.NL_TAG_8016 /\ code = EN.NEWLINE_8016) \/
  (tag = EN.NL_TAG_000A /\ code = EN.NEWLINE_000A) ->
  ascii_only t = true ->
  newlines_all_tagged t = true ->
  clean_block (t ++ tag) = true ->
  EN.encode_blocks_to_msg [t ++ tag ++ [LF]] EN.DEFAULT_ENCODE_NEWLINE
  = Ok out ->
  EN._encode_text_to_units (t ++ tag ++ [LF]) EN.DEFAULT_ENCODE_NEWLINE
  = EN._encode_text_to_units t EN.DEFAULT_ENCODE_NEWLINE ++ [code] /\
  EN._encode_text_to_units (t ++ tag) EN.DEFAULT_ENCODE_NEWLINE
  = EN._encode_text_to_units t EN.DEFAULT_ENCODE_NEWLINE
      ++ map latin_unit tag /\
  exists doc,
    EN.decode_msg_file_to_txt out = Ok doc /\
    EN.encode_txt_file_to_msg doc
    = EN.encode_blocks_to_msg [t ++ tag] EN.DEFAULT_ENCODE_NEWLINE.
Proof.
  intros Htag Ha Hn Hc H.
  pose proof (newlines_all_tagged_sound t Hn) as Ht.
  assert (Hfacts :
    tagged_text (tag ++ [LF]) /\ tagged_text tag /\
    ascii_only (tag ++ [LF]) = true /\
    EN._encode_text_to_units (tag ++ [LF]) EN.DEFAULT_ENCODE_NEWLINE = [code] /\
    EN._encode_text_to_units tag EN.DEFAULT_ENCODE_NEWLINE
    = map latin_unit tag).
  { destruct Htag as [[-> ->] | [-> ->]].
    - split; [apply (tagged_8016 []); constructor|].
      split; [apply tagged_text_plain_chars;
              repeat constructor; discriminate|].
      repeat split; reflexivity.
    - split; [apply (tagged_000A []); constructor|].
      split; [apply tagged_text_plain_chars;
              repeat constructor; discriminate|].
      repeat split; reflexivity. }
  destruct Hfacts as (HtagLF & Htagged & HascLF & HencLF & Henc).
  split; [rewrite encode_app_tagged, HencLF by assumption; reflexivity|].
  split; [rewrite encode_app_tagged, Henc by assumption; reflexivity|].
  exists (EN.make_txt_from_blocks [t ++ tag ++ [LF]]).
  unfold EN.decode_msg_file_to_txt, EN.encode_txt_file_to_msg.
  destruct (en_decode_encoded _ _ EN.TAG_NEWLINES _ H) as [Hdec _].
  rewrite Hdec. change EN.TAG_NEWLINES with true.
  assert (Hasc : ascii_only (t ++ tag ++ [LF]) = true).
  { unfold ascii_only in *. rewrite forallb_app, Ha, HascLF. reflexivity. }
  cbn [map decode_each].
  rewrite (roundtrip_tagged_text _ _ (tagged_text_app _ _ Ht HtagLF) Hasc).
  cbn [bind].
  split; [reflexivity|].
  apply clean_block_inv in Hc as Hc'. destruct Hc' as (Hne & Hlast & _).
  assert (Hstrip : map rstrip_nl [t ++ tag ++ [LF]] = [t ++ tag]).
  { cbn [map]. rewrite app_assoc, rstrip_nl_app_LF by assumption.
    reflexivity. }
  rewrite split_made_txt; rewrite ?Hstrip; [|discriminate|].
  - rewrite without_final_empty_clean; [reflexivity|].
    cbn [forallb]. rewrite Hc. reflexivity.
  - cbn [forallb]. unfold plain_block. rewrite Hc, orb_true_r. reflexivity.
Qed.

Lemma trailing_newline_code_is_lost_witness :
  let t := lit "Hi" in
  ascii_only t = true /\ newlines_all_tagged t = true /\
  clean_block (t ++ EN.NL_TAG_8016) = true /\
  exists out,
    EN.encode_blocks_to_msg [t ++ EN.NL_TAG_8016 ++ [LF]]
      EN.DEFAULT_ENCODE_NEWLINE = Ok out /\
    EN._encode_text_to_units (t ++ EN.NL_TAG_8016 ++ [LF])
      EN.DEFAULT_ENCODE_NEWLINE = [0x48; 0xE9; 0x8016] /\
    EN._encode_text_to_units (t ++ EN.NL_TAG_8016)
      EN.DEFAULT_ENCODE_NEWLINE = [0x48; 0xE9; 0x2F; 0xEE] /\
    exists doc,
      EN.decode_msg_file_to_txt out = Ok doc /\
      EN.encode_txt_file_to_msg doc
      = EN.encode_blocks_to_msg [t ++ EN.NL_TAG_8016]
          EN.DEFAULT_ENCODE_NEWLINE.
Proof.
  intros t. split; [reflexivity|]. split; [reflexivity|].
  split; [reflexivity|]. eexists. split; [reflexivity|].
  split; [reflexivity|]. split; [reflexivity|].
  refine (proj2 (proj2 (trailing_newline_code_is_lost t EN.NL_TAG_8016
            EN.NEWLINE_8016 _ (or_introl (conj eq_refl eq_refl))
            eq_refl eq_refl eq_refl eq_refl))).
Defined.

(** ** What the trainer's tables contain (duomsgJP) *)

Lemma cnt_pos_get (d : dict Z (dict Z Z)) (a b : Z) :
  0 < cnt d a b -> exists c, dict_get Z.eqb a d = Some c.
Proof.
  unfold cnt. destruct (dict_get Z.eqb a d) as [c|]; [eauto|lia].
Qed.

Lemma dict_get_same_keys {V W : Type} (d1 : dict Z V) :
  forall (d2 : dict Z W) (k : Z) (v : V),
  map fst d2 = map fst d1 ->
  dict_get Z.eqb k d1 = Some v -> exists w, dict_get Z.eqb k d2 = Some w.
Proof.
  induction d1 as [|[k1 v1] d1 IH]; intros d2 k v Hk Hget;
    [discriminate|].
  destruct d2 as [|[k2 w2] d2]; [discriminate|].
  cbn [map fst] in Hk. inversion Hk as [[Hk2 Hrest]]. subst k2.
  cbn [dict_get] in *.
  destruct (Z.eqb k k1); [eauto|]. exact (IH d2 k v Hrest Hget).
Qed.

Lemma learn_from_blocks_cover (msg_blocks_units : list (list Z))
  (txt_blocks : list str) (unit_to_char char_to_unit : dict Z Z) :
  JP.learn_from_blocks msg_blocks_units txt_blocks
  = Ok (unit_to_char, char_to_unit) ->
  forall u ch,
    In (u, ch) (training_observations msg_blocks_units txt_blocks) ->
    (exists ch', dict_get Z.eqb u unit_to_char = Some ch') /\
    (exists u', dict_get Z.eqb ch char_to_unit = Some u').
Proof.
  unfold JP.learn_from_blocks, training_observations.
  rewrite reverse_counts_events, align_blocks_events.
  set (obs := observations (combine msg_blocks_units txt_blocks)).
  set (counts := build (observation_events obs) []).
  set (rev_counts := build (reversed_events counts) []).
  assert (Hok : counters_ok counts).
  { apply build_ok; [apply observation_events_positive|apply counters_ok_nil]. }
  assert (Hcnt : forall u ch, cnt counts u ch = count_pair obs u ch).
  { intros u ch. unfold counts. rewrite cnt_build, weight_observation_events.
    reflexivity. }
  assert (Hrcnt : forall ch u, cnt rev_counts ch u = count_pair obs u ch).
  { intros ch u. unfold rev_counts.
    rewrite cnt_build, weight_reversed_events by exact Hok.
    rewrite Hcnt. reflexivity. }
  unfold bind.
  destruct (JP.choose_most_common counts) as [u2c|] eqn:Hu2c; [|discriminate].
  destruct (JP.choose_most_common rev_counts) as [c2u|] eqn:Hc2u;
    [|discriminate].
  intros H. inversion H; subst u2c c2u. clear H.
  destruct (choose_most_common_get _ _ Hu2c) as [Hkf _].
  destruct (choose_most_common_get _ _ Hc2u) as [Hkb _].
  intros u ch Hin. apply In_count_pair in Hin. split.
  - rewrite <- Hcnt in Hin. destruct (cnt_pos_get _ _ _ Hin) as [c Hc].
    exact (dict_get_same_keys _ _ _ _ Hkf Hc).
  - rewrite <- Hrcnt in Hin. destruct (cnt_pos_get _ _ _ Hin) as [c Hc].
    exact (dict_get_same_keys _ _ _ _ Hkb Hc).
Qed.

(** X13: the learned tables cover the training pair and each other. When
    training on parsed blocks returns its two tables, every unit that was
    aligned with a character is a key of the unit->glyph table and every
    such character is a key of the glyph->unit table; the glyph chosen for
    a unit is itself a key of the glyph->unit table, and the unit chosen
    for a glyph a key of the unit->glyph table. *)
Theorem learned_tables_cover_training (msg_blocks_units : list (list Z))
  (txt_blocks : list str) (unit_to_char char_to_unit : dict Z Z) :
  JP.learn_from_blocks msg_blocks_units txt_blocks
  = Ok (unit_to_char, char_to_unit) ->
  (forall u ch,
      In (u, ch) (training_observations msg_blocks_units txt_blocks) ->
      (exists ch', dict_get Z.eqb u unit_to_char = Some ch') /\
      (exists u', dict_get Z.eqb ch char_to_unit = Some u')) /\
  (forall u ch, dict_get Z.eqb u unit_to_char = Some ch ->
                exists u', dict_get Z.eqb ch char_to_unit = Some u') /\
  (forall ch u, dict_get Z.eqb ch char_to_unit = Some u ->
                exists ch', dict_get Z.eqb u unit_to_char = Some ch').
Proof.
  intros H. pose proof (learn_from_blocks_cover _ _ _ _ H) as Hcover.
  pose proof (learn_from_blocks_ties _ _ _ _ H) as [Hfw Hbw].
  split; [exact Hcover|]. split.
  - intros u ch Hget. destruct (Hfw _ _ Hget) as [Hpos _].
    apply count_pair_In in Hpos. exact (proj2 (Hcover _ _ Hpos)).
  - intros ch u Hget. destruct (Hbw _ _ Hget) as [Hpos _].
    apply count_pair_In in Hpos. exact (proj1 (Hcover _ _ Hpos)).
Qed.

Lemma learned_tables_cover_training_witness :
  JP.learn_from_blocks tie_units tie_text
  = Ok ([(2, 0x61); (1, 0x62)], [(0x61, 2); (0x63, 2); (0x62, 1)]) /\
  (forall u ch, dict_get Z.eqb u [(2, 0x61); (1, 0x62)] = Some ch ->
     exists u', dict_get Z.eqb ch [(0x61, 2); (0x63, 2); (0x62, 1)]
                = Some u').
Proof.
  split; [reflexivity|].
  exact (proj1 (proj2 (learned_tables_cover_training tie_units tie_text
                         [(2, 0x61); (1, 0x62)]
                         [(0x61, 2); (0x63, 2); (0x62, 1)] eq_refl))).
Defined.

(** ** The mapped transcoder, there and back (duomsgJP) *)

Lemma jp_tagged_text_inv (s : str) :
  jp_tagged_text s ->
  match s with
  | [] => True
  | c :: t => c <> LF /\ (c <> 0x3C -> jp_tagged_text t)
  end.
Proof.
  intros H. destruct H as [|c t Hc Ht|t Ht|t Ht].
  - exact I.
  - split; [exact Hc|intros _; exact Ht].
  - cbn. split; [discriminate|]. intros Hne. exfalso. apply Hne. reflexivity.
  - cbn. split; [discriminate|]. intros Hne. exfalso. apply Hne. reflexivity.
Qed.

Lemma jp_tagged_text_head (c : Z) (t : str) :
  jp_tagged_text (c :: t) -> c <> LF.
Proof. intros H. exact (proj1 (jp_tagged_text_inv _ H)). Qed.

Lemma jp_tagged_text_tail (c : Z) (t : str) :
  jp_tagged_text (c :: t) -> c <> 0x3C -> jp_tagged_text t.
Proof. intros H. exact (proj2 (jp_tagged_text_inv _ H)). Qed.

Lemma jp_tagged_text_app (a b : str) :
  jp_tagged_text a -> jp_tagged_text b -> jp_tagged_text (a ++ b).
Proof.
  intros Ha Hb. induction Ha as [|c t Hc Ht IH|t Ht IH|t Ht IH].
  - exact Hb.
  - cbn [app]. apply jp_tagged_char; assumption.
  - rewrite <- app_assoc. cbn [app]. apply jp_tagged_8016. exact IH.
  - rewrite <- app_assoc. cbn [app]. apply jp_tagged_000A. exact IH.
Qed.

Lemma jp_no_tag_before_tagged_text (tag : str) (c : Z) (t : str) :
  tag = JP.NL_TAG_8016 \/ tag = JP.NL_TAG_000A ->
  jp_tagged_text t -> tagged_newline_at tag (c :: t) = false.
Proof.
  intros Htag Ht.
  destruct (tagged_newline_at tag (c :: t)) eqn:E; [|reflexivity].
  exfalso. apply tagged_newline_at_inv in E. destruct E as [r E].
  destruct Htag as [-> | ->]; vm_compute in E; inversion E; subst;
    do 8 (apply jp_tagged_text_tail in Ht; [|discriminate]);
    apply jp_tagged_text_head in Ht; apply Ht; reflexivity.
Qed.

Lemma jp_encode_tag_8016 (t : str) (char_to_unit : dict str Z) (d : Z)
  (policy : string) :
  JP.encode_block (JP.NL_TAG_8016 ++ LF :: t) char_to_unit d policy
  = (units <- JP.encode_block t char_to_unit d policy ;;
     Ok (JP.NEWLINE_8016 :: units)).
Proof.
  unfold JP.encode_block.
  remember (JP.NL_TAG_8016 ++ LF :: t) as s eqn:Hs.
  destruct s as [|ch rest]; [discriminate|].
  cbn [List.length JP.encode_block_loop].
  rewrite Hs at 1. rewrite tagged_newline_at_intro. cbn [JP.TAG_NEWLINES andb].
  rewrite Hs, skipn_tagged.
  rewrite (encode_block_loop_fuel char_to_unit d policy
             (List.length rest) (List.length t) t); [reflexivity| |lia].
  apply (f_equal (@List.length Z)) in Hs. rewrite length_app in Hs.
  simpl in Hs. lia.
Qed.

Lemma jp_encode_tag_000A (t : str) (char_to_unit : dict str Z) (d : Z)
  (policy : string) :
  JP.encode_block (JP.NL_TAG_000A ++ LF :: t) char_to_unit d policy
  = (units <- JP.encode_block t char_to_unit d policy ;;
     Ok (JP.NEWLINE_000A :: units)).
Proof.
  unfold JP.encode_block.
  remember (JP.NL_TAG_000A ++ LF :: t) as s eqn:Hs.
  destruct s as [|ch rest]; [discriminate|].
  cbn [List.length JP.encode_block_loop].
  destruct (tagged_newline_at JP.NL_TAG_8016 (ch :: rest)) eqn:E.
  { apply tagged_newline_at_inv in E. destruct E as [r E].
    rewrite E in Hs. vm_compute in Hs. discriminate. }
  cbn [JP.TAG_NEWLINES andb].
  rewrite Hs at 1. rewrite tagged_newline_at_intro. cbn [JP.TAG_NEWLINES andb].
  rewrite Hs, skipn_tagged.
  rewrite (encode_block_loop_fuel char_to_unit d policy
             (List.length rest) (List.length t) t); [reflexivity| |lia].
  apply (f_equal (@List.length Z)) in Hs. rewrite length_app in Hs.
  simpl in Hs. lia.
Qed.

Lemma jp_encode_mapped_char (c u : Z) (t : str) (char_to_unit : dict str Z)
  (d : Z) (policy : string) :
  c <> LF -> jp_tagged_text t ->
  dict_get str_eqb [c] char_to_unit = Some u ->
  JP.encode_block (c :: t) char_to_unit d policy
  = (units <- JP.encode_block t char_to_unit d policy ;; Ok (u :: units)).
Proof.
  intros Hc Ht Hget. unfold JP.encode_block.
  cbn [List.length JP.encode_block_loop].
  rewrite !jp_no_tag_before_tagged_text by auto.
  cbn [JP.TAG_NEWLINES andb].
  destruct (Z.eqb_spec c LF); [contradiction|].
  rewrite Hget. reflexivity.
Qed.

Lemma jp_encode_lowercase_char (c : Z) (t : str) (char_to_unit : dict str Z)
  (d : Z) (policy : string) :
  0x61 <= c <= 0x7A -> jp_tagged_text t ->
  dict_get str_eqb [c] char_to_unit = None ->
  JP.encode_block (c :: t) char_to_unit d policy
  = (units <- JP.encode_block t char_to_unit d policy ;;
     Ok ((c + 0x80) :: units)).
Proof.
  intros Hc Ht Hget. unfold JP.encode_block.
  cbn [List.length JP.encode_block_loop].
  rewrite !jp_no_tag_before_tagged_text by auto.
  cbn [JP.TAG_NEWLINES andb].
  destruct (Z.eqb_spec c LF) as [E|_]; [unfold LF in E; lia|].
  rewrite Hget.
  replace ((0x61 <=? c) && (c <=? 0x7A)) with true
    by (symmetry; rewrite andb_true_iff, !Z.leb_le; lia).
  reflexivity.
Qed.

Lemma printable_not_LF (c : Z) : JP._is_ascii_printable c = true -> c <> LF.
Proof.
  unfold JP._is_ascii_printable, LF. intros H ->. vm_compute in H.
  discriminate.
Qed.

Lemma mapped_units_decode_encode (unit_to_char : dict Z str)
  (char_to_unit : dict str Z) (d : Z) (policy : string) (units : list Z) :
  forallb (unit_restored unit_to_char char_to_unit) units = true ->
  jp_tagged_text (JP.decode_units_with_map units unit_to_char true) /\
  JP.encode_block (JP.decode_units_with_map units unit_to_char true)
    char_to_unit d policy = Ok units.
Proof.
  induction units as [|u units IH]; cbn [forallb]; intros H.
  - split; [constructor|reflexivity].
  - apply andb_prop in H. destruct H as [Hu Hrest].
    destruct (IH Hrest) as [Ht Henc]. clear IH.
    cbn [JP.decode_units_with_map]. unfold JP.decode_unit_with_map.
    unfold unit_restored in Hu.
    destruct (Z.eqb_spec u JP.NEWLINE_000A) as [-> | Ha].
    { rewrite <- app_assoc. cbn [app].
      split; [apply jp_tagged_000A; exact Ht|].
      rewrite jp_encode_tag_000A, Henc. reflexivity. }
    destruct (Z.eqb_spec u JP.NEWLINE_8016) as [-> | H8].
    { rewrite <- app_assoc. cbn [app].
      split; [apply jp_tagged_8016; exact Ht|].
      rewrite jp_encode_tag_8016, Henc. reflexivity. }
    cbn [orb] in Hu.
    destruct (dict_get Z.eqb u unit_to_char) as [[|c [|c' g]]|];
      try discriminate.
    + apply andb_prop in Hu. destruct Hu as [Hc Hback].
      apply negb_true_iff, Z.eqb_neq in Hc.
      destruct (dict_get str_eqb [c] char_to_unit) as [u'|] eqn:Hget;
        [|discriminate].
      apply Z.eqb_eq in Hback. subst u'. cbn [app].
      split; [apply jp_tagged_char; assumption|].
      rewrite (jp_encode_mapped_char c u) by assumption.
      rewrite Henc. reflexivity.
    + apply andb_prop in Hu. destruct Hu as [Hp Hback]. rewrite Hp.
      apply andb_prop in Hp. destruct Hp as [_ Hp].
      pose proof (printable_not_LF _ Hp) as Hc. cbn [app].
      split; [apply jp_tagged_char; assumption|].
      destruct (dict_get str_eqb [u - 0x80] char_to_unit) as [u'|] eqn:Hget.
      * apply Z.eqb_eq in Hback. subst u'.
        rewrite (jp_encode_mapped_char (u - 0x80) u) by assumption.
        rewrite Henc. reflexivity.
      * apply andb_prop in Hback. destruct Hback as [H1 H2].
        apply Z.leb_le in H1, H2.
        rewrite jp_encode_lowercase_char by (auto; lia).
        rewrite Henc. cbn [bind]. do 2 f_equal. lia.
Qed.

(** X14: with a pair of tables that agree on the units of a block, mapped
    decoding with tags followed by mapped encoding restores the block.
    Each unit is a newline code, or has a one-character glyph that the
    glyph->unit table sends back to it, or has no glyph and is a printable
    ASCII value plus 0x80 that the glyph->unit table sends back to it or
    that is a lowercase letter left out of the table. Then encoding the
    decoded text returns exactly these units, whatever the default newline
    code and the policy for unknown glyphs. *)
Theorem mapped_units_roundtrip (unit_to_char : dict Z str)
  (char_to_unit : dict str Z) (default_newline : Z) (policy : string)
  (units : list Z) :
  forallb (unit_restored unit_to_char char_to_unit) units = true ->
  JP.encode_block (JP.decode_units_with_map units unit_to_char true)
    char_to_unit default_newline policy = Ok units.
Proof.
  intros H.
  exact (proj2 (mapped_units_decode_encode unit_to_char char_to_unit
                  default_newline policy units H)).
Qed.

Lemma mapped_units_roundtrip_witness :
  let unit_to_char := [(0x0142, lit "A"); (0x0143, [0x3042])] in
  let char_to_unit := [(lit "A", 0x0142); ([0x3042], 0x0143)] in
  let units := [0x0142; 0x8016; 0xE2; 0x0143; 0x000A] in
  forallb (unit_restored unit_to_char char_to_unit) units = true /\
  JP.decode_units_with_map units unit_to_char true
  = lit "A<NL_8016>" ++ [LF] ++ lit "b" ++ [0x3042] ++ lit "<NL_000A>"
      ++ [LF] /\
  JP.encode_block (JP.decode_units_with_map units unit_to_char true)
    char_to_unit 0x8016 "error" = Ok units.
Proof.
  intros unit_to_char char_to_unit units.
  split; [reflexivity|]. split; [reflexivity|].
  exact (mapped_units_roundtrip unit_to_char char_to_unit 0x8016 "error"
           units eq_refl).
Defined.

(** ** The unknown-glyph policy and the English-only encoder (duomsgJP) *)

Lemma encode_block_loop_policy_free (char_to_unit : dict str Z) (d : Z)
  (policy : string) (fuel : nat) :
  forall (s : str) (units : list Z),
  JP.encode_block_loop fuel s char_to_unit d "error" = Ok units ->
  JP.encode_block_loop fuel s char_to_unit d policy = Ok units.
Proof.
  induction fuel as [|fuel IH]; intros s units H; [exact H|].
  destruct s as [|ch rest]; [exact H|].
  cbn [JP.encode_block_loop] in H |- *.
  repeat match goal with
         | |- context [if ?b then _ else _] =>
             lazymatch b with
             | String.eqb _ _ => fail
             | _ => destruct b
             end
         | |- context [match dict_get ?e ?k ?t with _ => _ end] =>
             destruct (dict_get e k t)
         end;
    try (change (String.eqb "error" "error") with true in H; discriminate);
    match type of H with
    | bind ?r _ = _ =>
        destruct r as [us|e] eqn:Hr; cbn [bind] in H; [|discriminate];
        rewrite (IH _ _ Hr); exact H
    end.
Qed.

(** X15: the policy for unknown glyphs only matters when a glyph is
    unknown. If a block is encoded under the shipped policy, "error", then
    under every other value of [ENCODE_UNKNOWN_POLICY] the same units are
    returned. *)
Theorem encoded_units_do_not_depend_on_policy (block : str)
  (char_to_unit : dict str Z) (default_newline : Z) (policy : string)
  (units : list Z) :
  JP.encode_block block char_to_unit default_newline
    JP.ENCODE_UNKNOWN_POLICY = Ok units ->
  JP.encode_block block char_to_unit default_newline policy = Ok units.
Proof. apply encode_block_loop_policy_free. Qed.

Lemma encoded_units_do_not_depend_on_policy_witness :
  JP.encode_block (lit "A<NL_000A>" ++ [LF] ++ lit "b") [(lit "A", 0x0142)]
    0x8016 JP.ENCODE_UNKNOWN_POLICY = Ok [0x0142; 0x000A; 0xE2] /\
  JP.encode_block (lit "A<NL_000A>" ++ [LF] ++ lit "b") [(lit "A", 0x0142)]
    0x8016 "skip" = Ok [0x0142; 0x000A; 0xE2].
Proof.
  split; [reflexivity|].
  exact (encoded_units_do_not_depend_on_policy
           (lit "A<NL_000A>" ++ [LF] ++ lit "b") [(lit "A", 0x0142)] 0x8016
           "skip" [0x0142; 0x000A; 0xE2] eq_refl).
Defined.

Lemma english_loop_as_mapped (policy : string) (fuel : nat) :
  String.eqb policy "error" = false ->
  String.eqb policy "placeholder" = false ->
  String.eqb policy "skip" = false ->
  forall s : str,
  JP.encode_block_loop fuel s [] JP.DEFAULT_ENCODE_NEWLINE policy
  = Ok (JP.encode_english_loop fuel s).
Proof.
  intros He Hp Hs.
  induction fuel as [|fuel IH]; intros s; [reflexivity|].
  destruct s as [|ch rest]; [reflexivity|].
  cbn [JP.encode_block_loop JP.encode_english_loop dict_get].
  rewrite He, Hp, Hs, !IH. cbn [bind].
  repeat match goal with
         | |- context [if ?b then _ else _] => destruct b
         end; reflexivity.
Qed.

(** X16: the English-only branch of "TXT to MSG" repeats the mapped
    encoder with an empty table. Whenever [encode_blocks_with_map]'s loop
    encodes a block with an empty glyph->unit table, the default newline
    code and the shipped policy, the loop written out in
    [encode_txt_file_to_msg_path] returns the same units for it. *)
Theorem english_branch_agrees_with_empty_table (block : str)
  (units : list Z) :
  JP.encode_block block [] JP.DEFAULT_ENCODE_NEWLINE
    JP.ENCODE_UNKNOWN_POLICY = Ok units ->
  JP.encode_english_block block = units.
Proof.
  intros H.
  apply (encode_block_loop_policy_free _ _ "raw") in H.
  unfold JP.encode_block in H.
  rewrite (english_loop_as_mapped "raw") in H by reflexivity.
  inversion H. reflexivity.
Qed.

Lemma english_branch_agrees_with_empty_table_witness :
  JP.encode_block (lit "ab<NL_8016>" ++ [LF; LF]) []
    JP.DEFAULT_ENCODE_NEWLINE JP.ENCODE_UNKNOWN_POLICY
  = Ok [0xE1; 0xE2; 0x8016; 0x8016] /\
  JP.encode_english_block (lit "ab<NL_8016>" ++ [LF; LF])
  = [0xE1; 0xE2; 0x8016; 0x8016].
Proof.
  split; [reflexivity|].
  exact (english_branch_agrees_with_empty_table
           (lit "ab<NL_8016>" ++ [LF; LF]) [0xE1; 0xE2; 0x8016; 0x8016]
           eq_refl).
Defined.

Lemma jp_encode_raw_char (c : Z) (t : str) (d : Z) :
  c <> LF -> jp_tagged_text t ->
  (0x61 <=? c) && (c <=? 0x7A) = false ->
  JP.encode_block (c :: t) [] d "raw"
  = (units <- JP.encode_block t [] d "raw" ;; Ok (c :: units)).
Proof.
  intros Hc Ht Hl. unfold JP.encode_block.
  cbn [List.length JP.encode_block_loop].
  rewrite !jp_no_tag_before_tagged_text by auto.
  cbn [JP.TAG_NEWLINES andb dict_get].
  destruct (Z.eqb_spec c LF); [contradiction|].
  rewrite Hl. reflexivity.
Qed.

Lemma english_units_decode_encode (units : list Z) :
  forallb english_unit_restored units = true ->
  exists t,
    JP._decode_units_english units true = Ok t /\
    jp_tagged_text t /\
    JP.encode_block t [] JP.DEFAULT_ENCODE_NEWLINE "raw" = Ok units.
Proof.
  induction units as [|u units IH]; cbn [forallb]; intros H.
  - exists []. repeat split. constructor.
  - apply andb_prop in H. destruct H as [Hu Hrest].
    destruct (IH Hrest) as (t & Hdec & Ht & Henc). clear IH.
    cbn [JP._decode_units_english]. rewrite Hdec.
    unfold JP.decode_unit_english. unfold english_unit_restored in Hu.
    destruct (Z.eqb_spec u JP.NEWLINE_000A) as [-> | Ha].
    { cbn [bind]. exists ((JP.NL_TAG_000A ++ [LF]) ++ t).
      rewrite <- app_assoc. cbn [app].
      split; [reflexivity|]. split; [apply jp_tagged_000A; exact Ht|].
      rewrite jp_encode_tag_000A, Henc. reflexivity. }
    destruct (Z.eqb_spec u JP.NEWLINE_8016) as [-> | H8].
    { cbn [bind]. exists ((JP.NL_TAG_8016 ++ [LF]) ++ t).
      rewrite <- app_assoc. cbn [app].
      split; [reflexivity|]. split; [apply jp_tagged_8016; exact Ht|].
      rewrite jp_encode_tag_8016, Henc. reflexivity. }
    cbn [orb] in Hu. unfold JP.NEWLINE_000A in Ha.
    destruct ((0xE1 <=? u) && (u <=? 0xFA)) eqn:Hshift.
    + apply andb_prop in Hshift. destruct Hshift as [H1 H2].
      apply Z.leb_le in H1, H2.
      replace ((u >=? 0x80) && JP._is_ascii_printable (u - 0x80)) with true.
      2:{ symmetry. unfold JP._is_ascii_printable.
          rewrite Z.geb_leb, !andb_true_iff, orb_true_iff, andb_true_iff,
            !Z.leb_le. lia. }
      unfold chr.
      replace ((0 <=? u - 0x80) && (u - 0x80 <? 0x110000)) with true
        by (symmetry; rewrite andb_true_iff, Z.leb_le, Z.ltb_lt; lia).
      cbn [bind app]. exists ((u - 0x80) :: t).
      split; [reflexivity|].
      assert (Hne : u - 0x80 <> LF) by (unfold LF; lia).
      split; [apply jp_tagged_char; assumption|].
      rewrite jp_encode_lowercase_char by (auto; lia).
      rewrite Henc. cbn [bind]. do 2 f_equal. lia.
    + cbn [orb] in Hu.
      apply andb_prop in Hu. destruct Hu as [Hu Hnp].
      apply andb_prop in Hu. destruct Hu as [Hr Hnl].
      apply andb_prop in Hr. destruct Hr as [H0 Hmax].
      apply Z.leb_le in H0, Hmax.
      apply negb_true_iff in Hnp, Hnl. rewrite Hnp.
      unfold chr.
      replace ((0 <=? u) && (u <? 0x110000)) with true
        by (symmetry; rewrite andb_true_iff, Z.leb_le, Z.ltb_lt; lia).
      cbn [bind app]. exists (u :: t).
      split; [reflexivity|].
      assert (Hne : u <> LF) by (unfold LF; lia).
      split; [apply jp_tagged_char; assumption|].
      rewrite jp_encode_raw_char by assumption.
      rewrite Henc. reflexivity.
Qed.

(** X17: which units the English-only rules of the second tool give back.
    If every unit is a newline code, a lowercase letter plus 0x80, or a
    16-bit value that is neither a lowercase letter nor a printable ASCII
    value (or the tab) plus 0x80, then [_decode_units_english] with tags
    returns a text that the English-only encoder of "TXT to MSG" turns
    back into the same units. Units of glyphs above 0xFF pass unchanged
    this way; a raw lowercase letter or 0xC1 ('A' plus 0x80) does not. *)
Theorem english_units_roundtrip (units : list Z) :
  forallb english_unit_restored units = true ->
  exists t,
    JP._decode_units_english units true = Ok t /\
    JP.encode_english_block t = units.
Proof.
  intros H. destruct (english_units_decode_encode units H)
    as (t & Hdec & _ & Henc).
  exists t. split; [exact Hdec|].
  unfold JP.encode_block in Henc.
  rewrite (english_loop_as_mapped "raw") in Henc by reflexivity.
  inversion Henc. reflexivity.
Qed.

Lemma english_units_roundtrip_witness :
  forallb english_unit_restored [0x48; 0xE9; 0x3042; 0x8016; 0x89A0] = true /\
  (exists t,
      JP._decode_units_english [0x48; 0xE9; 0x3042; 0x8016; 0x89A0] true
      = Ok t /\
      JP.encode_english_block t = [0x48; 0xE9; 0x3042; 0x8016; 0x89A0]) /\
  english_unit_restored 0x65 = false /\
  english_unit_restored 0xC1 = false.
Proof.
  split; [reflexivity|].
  split; [exact (english_units_roundtrip
                   [0x48; 0xE9; 0x3042; 0x8016; 0x89A0] eq_refl)|].
  split; reflexivity.
Defined.

(** ** When the Latin encoder returns a container (duomsgEN.pyw) *)

Lemma Forall_skipn_keep {A : Type} (P : A -> Prop) (n : nat) (l : list A) :
  Forall P l -> Forall P (skipn n l).
Proof.
  revert l. induction n as [|n IH]; intros l H; [exact H|].
  destruct l as [|x l]; [exact H|]. inversion H; subst. cbn [skipn]. auto.
Qed.

Lemma encode_loop_bounded (d : Z) (fuel : nat) :
  0 <= d <= 0xFFFF ->
  forall s : str,
  Forall (fun c => 0 <= c <= 0xFFFF) s ->
  Forall (fun u => 0 <= u <= 0xFFFF) (EN.encode_loop fuel s d) /\
  (List.length (EN.encode_loop fuel s d) <= List.length s)%nat.
Proof.
  intros Hd. induction fuel as [|fuel IH]; intros s Hs.
  - split; [constructor|cbn; lia].
  - destruct s as [|ch rest]; [split; [constructor|cbn; lia]|].
    inversion Hs as [|? ? Hch Hrest]; subst.
    cbn [EN.encode_loop].
    pose proof (IH rest Hrest) as [IHr IHl].
    assert (Hk : forall k,
               Forall (fun u => 0 <= u <= 0xFFFF)
                 (EN.encode_loop fuel (skipn (S k) (ch :: rest)) d) /\
               (List.length (EN.encode_loop fuel (skipn (S k) (ch :: rest)) d)
                <= List.length rest)%nat).
    { intros k. cbn [skipn].
      destruct (IH (skipn k rest) (Forall_skipn_keep _ k rest Hrest))
        as [H1 H2].
      split; [exact H1|]. rewrite length_skipn in H2. lia. }
    unfold ord.
    repeat match goal with
           | |- context [if ?b then _ else _] => destruct b eqn:?
           end;
      cbn [List.length];
      try (destruct (Hk (List.length EN.NL_TAG_8016)) as [H1 H2];
           replace (List.length EN.NL_TAG_8016 + 1)%nat
             with (S (List.length EN.NL_TAG_8016)) by lia;
           split; [constructor; [vm_compute; split; discriminate|exact H1]
                  |lia]);
      try (destruct (Hk (List.length EN.NL_TAG_000A)) as [H1 H2];
           replace (List.length EN.NL_TAG_000A + 1)%nat
             with (S (List.length EN.NL_TAG_000A)) by lia;
           split; [constructor; [vm_compute; split; discriminate|exact H1]
                  |lia]);
      try (split; [constructor; [lia|exact IHr]|lia]).
Qed.

Lemma total_units_encoded_le (blocks : list str) (d : Z) :
  0 <= d <= 0xFFFF ->
  Forall (Forall (fun c => 0 <= c <= 0xFFFF)) blocks ->
  total_units (map (fun b => EN._encode_text_to_units b d) blocks)
  <= total_units blocks.
Proof.
  intros Hd H. induction H as [|b bs Hb Hbs IH]; [cbn; lia|].
  cbn [map]. rewrite !total_units_cons.
  destruct (encode_loop_bounded d (List.length b) Hd b Hb) as [_ Hl].
  change (EN.encode_loop (List.length b) b d)
    with (EN._encode_text_to_units b d) in Hl.
  unfold len. lia.
Qed.

(** X4: when "TXT to MSG" of the first tool produces a file. If the
    default newline code and every character of every block are at most
    0xFFFF, and four bytes of header, four bytes per block and two bytes
    per character make at most 0xFFFF bytes, then [encode_blocks_to_msg]
    returns a container: no [struct.pack] raises. *)
Theorem en_encoding_succeeds_within_16_bits (blocks : list str)
  (default_newline_code : Z) :
  0 <= default_newline_code <= 0xFFFF ->
  Forall (Forall (fun c => 0 <= c <= 0xFFFF)) blocks ->
  4 + 4 * len blocks + 2 * total_units blocks <= 0xFFFF ->
  exists out, EN.encode_blocks_to_msg blocks default_newline_code = Ok out.
Proof.
  intros Hd Hchars Hsize.
  apply encode_blocks_to_msg_succeeds.
  - eapply Forall_impl; [|exact Hchars]. cbv beta. intros b Hb.
    exact (proj1 (encode_loop_bounded _ (List.length b) Hd b Hb)).
  - pose proof (total_units_encoded_le blocks _ Hd Hchars). lia.
Qed.

Lemma en_encoding_succeeds_within_16_bits_witness :
  let blocks := [lit "Hi/n" ++ [LF]; [0x3042; LF]] in
  0 <= 0x8016 <= 0xFFFF /\
  Forall (Forall (fun c => 0 <= c <= 0xFFFF)) blocks /\
  4 + 4 * len blocks + 2 * total_units blocks <= 0xFFFF /\
  exists out, EN.encode_blocks_to_msg blocks 0x8016 = Ok out.
Proof.
  intros blocks.
  assert (H1 : 0 <= 0x8016 <= 0xFFFF) by lia.
  assert (H2 : Forall (Forall (fun c => 0 <= c <= 0xFFFF)) blocks)
    by (repeat constructor; discriminate).
  assert (H3 : 4 + 4 * len blocks + 2 * total_units blocks <= 0xFFFF)
    by (vm_compute; discriminate).
  split; [exact H1|]. split; [exact H2|]. split; [exact H3|].
  exact (en_encoding_succeeds_within_16_bits blocks 0x8016 H1 H2 H3).
Defined.

(** ** The container written and read by the second tool (duomsgJP) *)

Lemma jp_blocks_units_layout (hdr : bytes) :
  forall (blocks_units : list (list Z)) (pre : list Z) (text : bytes),
  pack_units (pre ++ concat blocks_units) = Ok text ->
  JP.blocks_units (layout (len pre) blocks_units) (hdr ++ text) (len hdr)
  = Ok blocks_units.
Proof.
  induction blocks_units as [|us rest IH]; intros pre text Hpack;
    [reflexivity|].
  cbn [layout JP.blocks_units offset length_ concat] in *.
  cbv zeta.
  pose proof Hpack as Hpack'.
  apply pack_units_app in Hpack'.
  destruct Hpack' as (ppre & ptail & Hpre & Htail & ->).
  apply pack_units_app in Htail.
  destruct Htail as (pus & prest & Hus & Hrest & ->).
  destruct (words_be_pack_units _ _ Hpre) as [_ Hlpre].
  destruct (words_be_pack_units _ _ Hus) as [_ Hlus].
  assert (Ha : len hdr + len pre * 2 = len (hdr ++ ppre)).
  { unfold len. rewrite length_app, Hlpre. lia. }
  assert (Hb : len hdr + (len pre + len us) * 2
               = len (hdr ++ ppre) + len pus).
  { unfold len. rewrite length_app, Hlpre, Hlus. lia. }
  rewrite Ha, Hb.
  replace (hdr ++ ppre ++ pus ++ prest) with ((hdr ++ ppre) ++ pus ++ prest)
    by (rewrite <- app_assoc; reflexivity).
  rewrite slice_app_exact, (units_of_raw_pack_units _ _ Hus). cbn [bind].
  replace ((hdr ++ ppre) ++ pus ++ prest) with (hdr ++ (ppre ++ pus) ++ prest)
    by (rewrite <- !app_assoc; reflexivity).
  replace (len pre + len us) with (len (pre ++ us))
    by (unfold len; rewrite length_app; lia).
  rewrite (IH (pre ++ us) ((ppre ++ pus) ++ prest)); [reflexivity|].
  rewrite <- app_assoc. rewrite Hpack. rewrite <- !app_assoc. reflexivity.
Qed.

Lemma decode_entries_with_map_as_units (unit_to_char : dict Z str)
  (tag : bool) (data : bytes) (text_start : Z) (entries : list Entry) :
  JP.decode_entries_with_map entries data text_start unit_to_char tag
  = (blocks_units <- JP.blocks_units entries data text_start ;;
     Ok (map (fun units => JP.decode_units_with_map units unit_to_char tag)
           blocks_units)).
Proof.
  induction entries as [|e entries IH];
    cbn [JP.decode_entries_with_map JP.blocks_units]; [reflexivity|].
  cbv zeta. rewrite IH.
  destruct (units_of_raw _) as [units|err]; [|reflexivity]. cbn [bind].
  destruct (JP.blocks_units entries data text_start) as [bus|err];
    reflexivity.
Qed.

Lemma jp_read_encoded (blocks : list str)
  (char_to_unit : dict str Z) (default_newline : Z) (policy : string)
  (unit_to_char : dict Z str) (tag_newlines : bool) (out : bytes) :
  JP.encode_blocks_with_map blocks char_to_unit default_newline policy
  = Ok out ->
  exists blocks_units,
    Forall2 (fun b units =>
               JP.encode_block b char_to_unit default_newline policy
               = Ok units) blocks blocks_units /\
    JP._read_all_blocks_units out = Ok blocks_units /\
    JP.decode_msg_to_blocks_with_map out unit_to_char tag_newlines
    = Ok (map (fun units =>
                 JP.decode_units_with_map units unit_to_char tag_newlines)
            blocks_units).
Proof.
  intros H. unfold JP.encode_blocks_with_map, bind in H.
  destruct (JP.encode_blocks_loop blocks char_to_unit default_newline policy
              [] []) as [[all_units entries]|] eqn:Hloop; [|discriminate].
  apply jp_encode_blocks_loop_layout in Hloop.
  destruct Hloop as (uss & HF & -> & ->).
  change (len (@nil Z)) with 0 in H. cbn [app] in H.
  exists uss. split; [exact HF|].
  pose proof (read_serialized _ _ _ H) as Hread.
  destruct (serialize_msg_parts _ _ _ H)
    as (header & table & text & -> & Hl4 & _ & Ht & Hu).
  apply pack_entries_length in Ht.
  assert (Hunits : JP.blocks_units (layout 0 uss)
                     (header ++ table ++ text) (4 + 4 * len (layout 0 uss))
                   = Ok uss).
  { replace (4 + 4 * len (layout 0 uss)) with (len (header ++ table))
      by (unfold len in *; rewrite length_app, Hl4; lia).
    rewrite app_assoc.
    apply (jp_blocks_units_layout (header ++ table) uss [] text).
    exact Hu. }
  split.
  - unfold JP._read_all_blocks_units. rewrite Hread. cbn [bind].
    exact Hunits.
  - unfold JP.decode_msg_to_blocks_with_map. rewrite Hread. cbn [bind].
    rewrite decode_entries_with_map_as_units, Hunits. reflexivity.
Qed.

(** X18: a container written by [encode_blocks_with_map] is read back
    whole. If the encoder returns the bytes of a container, the trainer's
    reader [_read_all_blocks_units] returns for these bytes exactly the
    units encoded for each block, in order, and
    [decode_msg_to_blocks_with_map] returns the mapped decoding of each of
    them, whatever the table it is given. *)
Theorem jp_container_roundtrip (blocks : list str)
  (char_to_unit : dict str Z) (default_newline : Z) (policy : string)
  (unit_to_char : dict Z str) (tag_newlines : bool) (out : bytes) :
  JP.encode_blocks_with_map blocks char_to_unit default_newline policy
  = Ok out ->
  exists blocks_units,
    Forall2 (fun b units =>
               JP.encode_block b char_to_unit default_newline policy
               = Ok units) blocks blocks_units /\
    JP._read_all_blocks_units out = Ok blocks_units /\
    JP.decode_msg_to_blocks_with_map out unit_to_char tag_newlines
    = Ok (map (fun units =>
                 JP.decode_units_with_map units unit_to_char tag_newlines)
            blocks_units).
Proof.
  exact (jp_read_encoded blocks char_to_unit default_newline policy
           unit_to_char tag_newlines out).
Qed.

Lemma jp_container_roundtrip_witness :
  let blocks := [lit "A<NL_000A>" ++ [LF] ++ lit "b"; []; lit "A"] in
  exists out,
    JP.encode_blocks_with_map blocks [(lit "A", 0x0142)] 0x8016 "error"
    = Ok out /\
    JP._read_all_blocks_units out = Ok [[0x0142; 0x000A; 0xE2]; []; [0x0142]].
Proof.
  intros blocks. eexists. split; [reflexivity|].
  destruct (jp_container_roundtrip blocks [(lit "A", 0x0142)] 0x8016 "error"
              [] true _ eq_refl) as (uss & HF & Hread & _).
  rewrite Hread. f_equal.
  inversion HF as [|? ? ? ? H1 HF1]; subst. inversion H1; subst.
  inversion HF1 as [|? ? ? ? H2 HF2]; subst. inversion H2; subst.
  inversion HF2 as [|? ? ? ? H3 HF3]; subst. inversion H3; subst.
  inversion HF3; subst. reflexivity.
Defined.

(** ** Blocks of any document (both tools) *)

Lemma removelast_nonempty {A : Type} (l : list A) :
  (1 < List.length l)%nat -> removelast l <> [].
Proof.
  destruct l as [|x [|y l]]; cbn [List.length]; try lia.
  intros _. cbn [removelast]. discriminate.
Qed.

(** X19: splitting never returns an empty list of blocks. Whatever the
    text, empty or made of sentinel lines only, [split_txt_into_blocks]
    returns at least one block. *)
Theorem split_returns_a_block (txt_text : str) :
  EN.split_txt_into_blocks txt_text <> [] /\
  JP.split_txt_into_blocks txt_text <> [].
Proof.
  assert (H : EN.split_txt_into_blocks txt_text <> []).
  { unfold EN.split_txt_into_blocks.
    destruct (EN.split_loop (splitlines txt_text) [] []) as [parts cur].
    set (parts' := if negb (EN.is_empty cur) || EN.is_empty parts
                   then parts ++ [join [LF] cur] else parts).
    assert (Hne : parts' <> []).
    { unfold parts'.
      destruct (negb (EN.is_empty cur) || EN.is_empty parts) eqn:E.
      - intros Happ. apply app_eq_nil in Happ. destruct Happ as [_ Happ].
        discriminate.
      - apply orb_false_iff in E. destruct E as [_ E].
        destruct parts; [discriminate|discriminate]. }
    destruct (negb (EN.is_empty parts') && str_eqb (last parts' []) [] &&
              (len parts' >? 1)) eqn:E; [|exact Hne].
    apply andb_prop in E. destruct E as [_ E].
    rewrite Z.gtb_ltb in E. apply Z.ltb_lt in E.
    apply removelast_nonempty. unfold len in E. lia. }
  split; exact H.
Qed.

(** ** The two tools on the same units *)

Lemma same_reading_unit (tag : bool) (u : Z) :
  same_reading tag u = true ->
  JP.decode_unit_english u tag = EN.decode_unit u tag.
Proof.
  unfold same_reading, JP.decode_unit_english, EN.decode_unit,
    JP.NEWLINE_000A, JP.NEWLINE_8016, EN.NEWLINE_000A, EN.NEWLINE_8016.
  destruct (Z.eqb_spec u 0xA) as [-> | Ha]; cbn [orb].
  { intros H. apply negb_true_iff in H. subst tag. reflexivity. }
  destruct (Z.eqb_spec u 0x8016) as [-> | H8].
  { intros H. apply negb_true_iff in H. subst tag. reflexivity. }
  intros H. rewrite Z.geb_leb.
  destruct (Z.leb_spec 0x80 u) as [Hhi | Hlo]; cbn [andb]; [|reflexivity].
  apply orb_prop in H. destruct H as [H | H].
  - apply Z.ltb_lt in H. lia.
  - rewrite H. reflexivity.
Qed.

(** X22: on which units the two tools read a file alike without a
    mapping. For units below 0x80 or equal to a printable ASCII value (or
    the tab) plus 0x80, and for the newline codes when tags are off, the
    English-only decoder of duomsgJP returns what the decoder of
    duomsgEN.pyw returns, text or error. (Elsewhere they differ: the first
    tool always subtracts 0x80 from a unit of 0x80 or more, the second
    keeps units such as 0x3042 as they are.) *)
Theorem tools_read_english_alike (units : list Z) (tag_newlines : bool) :
  forallb (same_reading tag_newlines) units = true ->
  JP._decode_units_english units tag_newlines
  = EN._decode_units_to_text units tag_newlines.
Proof.
  induction units as [|u units IH]; cbn [forallb]; intros H; [reflexivity|].
  apply andb_prop in H. destruct H as [Hu Hrest].
  cbn [JP._decode_units_english EN._decode_units_to_text].
  rewrite (same_reading_unit _ _ Hu), (IH Hrest). reflexivity.
Qed.

Lemma tools_read_english_alike_witness :
  forallb (same_reading true) [0x48; 0xE9; 0xA1; 0x89] = true /\
  JP._decode_units_english [0x48; 0xE9; 0xA1; 0x89] true
  = EN._decode_units_to_text [0x48; 0xE9; 0xA1; 0x89] true /\
  JP._decode_units_english [0x3042] true
  <> EN._decode_units_to_text [0x3042] true.
Proof.
  split; [reflexivity|].
  split; [exact (tools_read_english_alike [0x48; 0xE9; 0xA1; 0x89] true
                   eq_refl)|].
  discriminate.
Defined.

(** ** Witnesses of earlier statements *)

Lemma learn_mapping_total_witness :
  JP._read_all_blocks_units tie_msg = Ok tie_units /\
  len tie_units = len (JP.split_txt_into_blocks tie_txt) /\
  exists unit_to_char char_to_unit,
    JP.learn_mapping tie_msg tie_txt = Ok (unit_to_char, char_to_unit).
Proof.
  split; [reflexivity|]. split; [reflexivity|].
  exact (learn_mapping_total tie_msg tie_txt tie_units eq_refl eq_refl).
Defined.

Lemma encode_blocks_with_map_fails_witness :
  let blocks := [lit "ab"; lit "aBc"; lit "c"] in
  Exists (fun b => exists e, JP.encode_block b [] 0x8016 "error" = Err e)
    blocks /\
  exists e, JP.encode_blocks_with_map blocks [] 0x8016 "error" = Err e.
Proof.
  intros blocks.
  assert (H : Exists (fun b => exists e,
                          JP.encode_block b [] 0x8016 "error" = Err e)
                blocks).
  { apply Exists_cons_tl, Exists_cons_hd. eexists. reflexivity. }
  split; [exact H|].
  exact (encode_blocks_with_map_fails blocks [] 0x8016 "error" H).
Defined.

(** ** A whole round trip with a mapping (duomsgJP) *)




(** ** A whole round trip without a mapping (duomsgJP) *)





